(** * lwIP Pong: the authoritative server loop, the wire protocol and the
      client-side ball prediction

    Shallow embedding of [pong/pong.c] (server) and of the Raylib client
    ([handle_input], [process_game_state], [draw_game] and [main]: the
    start-up, the prediction block and the receive block).

    Conventions
    - a C [int] is a [Z]; every arithmetic result is passed through
      [CInt.wrap] (two's complement, 32 bits);
    - a C [float] is an IEEE-754 binary32 value and a C [double] a binary64
      value, both carried by [spec_float] and computed with the operations of
      the standard library's executable specification ([SFadd], [SFmul], ...);
      mixed [float]/[double] expressions are widened and narrowed where C does;
    - a C string is a [string]; reading past its end reads [NUL];
    - [rand()] is the list of the values it is going to return;
    - time is what [GetTime()] and [GetFrameTime()] return; the sleeps of the
      two loops are left out;
    - [sinf] and [cosf] (libm) are parameters of the server section. *)

From Stdlib Require Import ZArith List Bool Lia String Ascii.
From Stdlib Require Import Floats.SpecFloat.
Import ListNotations.
Open Scope Z_scope.

(** ** 32-bit signed integers *)
Module CInt.

Definition INT_MIN : Z := -2147483648.
Definition INT_MAX : Z := 2147483647.

Definition in_range (z : Z) : Prop := INT_MIN <= z <= INT_MAX.

Definition wrap (z : Z) : Z := (z + 2147483648) mod 4294967296 - 2147483648.

End CInt.

(** ** IEEE-754 binary32 ([float]) and binary64 ([double]) *)
Module F32.

Definition prec : Z := 24.
Definition emax : Z := 128.

Definition add := SFadd prec emax.
Definition sub := SFsub prec emax.
Definition mul := SFmul prec emax.
Definition div := SFdiv prec emax.
Definition ltb := SFltb.
Definition leb := SFleb.
Definition fabsf := SFabs.

(** [(float) z] for an [int] z. *)
Definition of_int (z : Z) : spec_float := binary_normalize prec emax z 0 false.

(** The binary32 value nearest to [(-1)^s * n / d]: a decimal literal with
    an [f] suffix. The division core works on integers of any size, so the
    quotient is rounded once. *)
Definition lit (s : bool) (n d : positive) : spec_float :=
  SFdiv prec emax (S754_finite s n 0) (S754_finite false d 0).

Definition is_nan (x : spec_float) : bool :=
  match x with S754_nan => true | _ => false end.

Definition is_finite (x : spec_float) : bool :=
  match x with S754_zero _ | S754_finite _ _ _ => true | _ => false end.

End F32.

Module F64.

Definition prec : Z := 53.
Definition emax : Z := 1024.

Definition add := SFadd prec emax.
Definition sub := SFsub prec emax.
Definition mul := SFmul prec emax.
Definition div := SFdiv prec emax.
Definition ltb := SFltb.
Definition leb := SFleb.

Definition of_int (z : Z) : spec_float := binary_normalize prec emax z 0 false.

Definition lit (s : bool) (n d : positive) : spec_float :=
  SFdiv prec emax (S754_finite s n 0) (S754_finite false d 0).

(** [(double) x] for a [float] x: the same value, renormalised to 53 bits. *)
Definition of_f32 (x : spec_float) : spec_float :=
  match x with
  | S754_finite s m e => binary_round prec emax s m e
  | _ => x
  end.

(** [(float) x] for a [double] x: rounded to nearest even. *)
Definition to_f32 (x : spec_float) : spec_float :=
  match x with
  | S754_finite s m e => binary_round F32.prec F32.emax s m e
  | _ => x
  end.

End F64.

(** ** C strings *)
Module CStr.

Definition NUL : ascii := "000"%char.

(** The string made of a newline. *)
Definition LF : string := String "010"%char EmptyString.

Definition code (c : ascii) : Z := Z.of_N (N_of_ascii c).

(** [s[0]], [NUL] at the end of the string. *)
Definition head (s : string) : ascii :=
  match s with EmptyString => NUL | String c _ => c end.

Definition tail (s : string) : string :=
  match s with EmptyString => EmptyString | String _ r => r end.

(** [strncmp(s1, s2, n)]. *)
Fixpoint strncmp (s1 s2 : string) (n : nat) : Z :=
  match n with
  | O => 0
  | S n' =>
      let c1 := head s1 in
      let c2 := head s2 in
      if negb (Ascii.eqb c1 c2) then code c1 - code c2
      else if Ascii.eqb c1 NUL then 0
      else strncmp (tail s1) (tail s2) n'
  end.

(** No character of [s] is [NUL]. *)
Fixpoint no_nul (s : string) : bool :=
  match s with
  | EmptyString => true
  | String c r => negb (Ascii.eqb c NUL) && no_nul r
  end.

(** The first [n] bytes of [s]. *)
Fixpoint take (n : nat) (s : string) : string :=
  match n, s with
  | S n', String c r => String c (take n' r)
  | _, _ => EmptyString
  end.

End CStr.

(** ** Formatted output and input (<stdio.h>)

    The conversions the two programs use, after ISO C: [%d] and [%.2f] for
    [snprintf], [%d] and [%f] for [sscanf]. Of the forms [%f] accepts, the
    decimal ones (with an optional exponent), [inf], [infinity] and [nan] are
    covered; hexadecimal constants and [nan(...)] are not. *)
Module Stdio.

Inductive arg : Type :=
| ArgInt (z : Z)              (* an [int] *)
| ArgDouble (x : spec_float)  (* a [double], or a [float] after promotion *)
| ArgFloat (x : spec_float).  (* a [float] stored through a [float *] *)

Definition digit_char (d : Z) : ascii := ascii_of_N (Z.to_N (48 + d)).

Definition is_digit (c : ascii) : bool :=
  (48 <=? CStr.code c) && (CStr.code c <=? 57).

Definition digit_val (c : ascii) : Z := CStr.code c - 48.

(** *** Output *)

(** The decimal digits of [n >= 0], most significant first, in front of
    [acc]. *)
Fixpoint decimal_fuel (fuel : nat) (n : Z) (acc : string) : string :=
  match fuel with
  | O => acc
  | S fuel' =>
      let acc' := String (digit_char (n mod 10)) acc in
      if n <? 10 then acc' else decimal_fuel fuel' (n / 10) acc'
  end.

Definition decimal (n : Z) (acc : string) : string :=
  decimal_fuel (S (Z.to_nat (Z.log2 n))) n acc.

Definition sign_prefix (s : bool) (r : string) : string :=
  if s then String "-"%char r else r.

(** [%d]. *)
Definition fmt_d (z : Z) (acc : string) : string :=
  sign_prefix (z <? 0) (decimal (Z.abs z) acc).

(** [n / d] rounded to the nearest integer, ties to even ([n >= 0], [d > 0]). *)
Definition div_nearest_even (n d : Z) : Z :=
  let q := n / d in
  match 2 * (n mod d) ?= d with
  | Lt => q
  | Gt => q + 1
  | Eq => if Z.even q then q else q + 1
  end.

(** [m * 2^e * 100], rounded to an integer. *)
Definition hundredths (m : positive) (e : Z) : Z :=
  if 0 <=? e then Zpos m * 2 ^ e * 100
  else div_nearest_even (Zpos m * 100) (2 ^ (- e)).

(** [h] hundredths with two decimals. *)
Definition fixed2 (h : Z) (acc : string) : string :=
  decimal (h / 100)
    (String "."%char
       (String (digit_char (h / 10 mod 10))
          (String (digit_char (h mod 10)) acc))).

(** [%.2f]. *)
Definition fmt_f2 (x : spec_float) (acc : string) : string :=
  match x with
  | S754_zero s => sign_prefix s (fixed2 0 acc)
  | S754_finite s m e => sign_prefix s (fixed2 (hundredths m e) acc)
  | S754_infinity s => sign_prefix s ("inf" ++ acc)
  | S754_nan => ("nan" ++ acc)%string
  end.

Inductive out_directive : Type :=
| OutChar (c : ascii)
| OutD
| OutF2.

(** The characters the format asks for, without any bound. *)
Fixpoint format (fmt : list out_directive) (args : list arg) : string :=
  match fmt with
  | [] => EmptyString
  | OutChar c :: fmt' => String c (format fmt' args)
  | OutD :: fmt' =>
      match args with
      | ArgInt z :: args' => fmt_d z (format fmt' args')
      | _ => EmptyString
      end
  | OutF2 :: fmt' =>
      match args with
      | ArgDouble x :: args' => fmt_f2 x (format fmt' args')
      | _ => EmptyString
      end
  end.

(** [snprintf(buf, size, fmt, args)]: what [buf] holds afterwards, at most
    [size - 1] characters. *)
Definition snprintf (size : nat) (fmt : list out_directive) (args : list arg)
  : string :=
  CStr.take (Nat.pred size) (format fmt args).

(** *** Input *)
Definition is_space (c : ascii) : bool :=
  let n := CStr.code c in (n =? 32) || ((9 <=? n) && (n <=? 13)).

Fixpoint skip_space (s : string) : string :=
  match s with
  | String c r => if is_space c then skip_space r else s
  | EmptyString => s
  end.

(** The longest run of digits at the head of [s], accumulated onto [acc];
    [n] counts them. *)
Fixpoint scan_digits (s : string) (acc : Z) (n : nat) : Z * nat * string :=
  match s with
  | String c r =>
      if is_digit c then scan_digits r (10 * acc + digit_val c) (S n)
      else (acc, n, s)
  | EmptyString => (acc, n, s)
  end.

(** The string stops a run of digits. *)
Definition stops (s : string) : Prop :=
  is_digit (CStr.head s) = false.

Definition scan_sign (s : string) : bool * string :=
  match s with
  | String "-"%char r => (true, r)
  | String "+"%char r => (false, r)
  | _ => (false, s)
  end.

Inductive scanned (A : Type) : Type :=
| Matched (v : A) (rest : string)
| MatchingFailure
| InputFailure.

Arguments Matched {A} v rest.
Arguments MatchingFailure {A}.
Arguments InputFailure {A}.

(** [%d] into an [int]. A value outside the range of [int] is reduced
    modulo 2^32 here; the C library may saturate instead, and what the
    program stores then is not defined by the language. *)
Definition scan_d (s : string) : scanned Z :=
  match skip_space s with
  | EmptyString => InputFailure
  | s1 =>
      let '(neg, s2) := scan_sign s1 in
      let '(v, n, rest) := scan_digits s2 0 0 in
      match n with
      | O => MatchingFailure
      | S _ => Matched (CInt.wrap (if neg then - v else v)) rest
      end
  end.

(** The binary32 value nearest to [(-1)^s * v * 10^k]. *)
Definition decimal_to_f32 (s : bool) (v : Z) (k : Z) : spec_float :=
  match v with
  | Zpos p =>
      if 0 <=? k then F32.lit s (p * Z.to_pos (10 ^ k)) 1
      else F32.lit s p (Z.to_pos (10 ^ (- k)))
  | _ => S754_zero s
  end.

Definition lower (c : ascii) : ascii :=
  let n := CStr.code c in
  if (65 <=? n) && (n <=? 90) then ascii_of_N (Z.to_N (n + 32)) else c.

(** [lit] is a prefix of [s], letter case apart: the rest of [s]. *)
Fixpoint skip_word (lit s : string) : option string :=
  match lit with
  | EmptyString => Some s
  | String c lit' =>
      match s with
      | String d r => if Ascii.eqb (lower d) c then skip_word lit' r else None
      | EmptyString => None
      end
  end.

(** The exponent part, if there is one: [e], a sign, digits. An [e] without
    digits is a matching failure, as the language has it; a C library that
    pushes the [e] back and accepts the number is not modelled. *)
Definition scan_exponent (s : string) : scanned Z :=
  match s with
  | String c r =>
      if Ascii.eqb (lower c) "e"%char then
        let '(neg, r1) := scan_sign r in
        let '(v, n, rest) := scan_digits r1 0 0 in
        match n with
        | O => MatchingFailure
        | S _ => Matched (if neg then - v else v) rest
        end
      else Matched 0 s
  | EmptyString => Matched 0 s
  end.

(** A decimal number: digits with at most one point among them, then an
    exponent or not. *)
Definition scan_number (neg : bool) (s : string) : scanned spec_float :=
  let '(ip, n1, s3) := scan_digits s 0 0 in
  let '(v, n2, s4) :=
    match s3 with
    | String "."%char r => scan_digits r ip 0
    | _ => (ip, O, s3)
    end in
  match (n1 + n2)%nat with
  | O => MatchingFailure
  | S _ =>
      match scan_exponent s4 with
      | Matched ex rest =>
          Matched (decimal_to_f32 neg v (ex - Z.of_nat n2)) rest
      | _ => MatchingFailure
      end
  end.

(** [%f] into a [float]: the decimal forms, [inf], [infinity] and [nan]. The
    hexadecimal form and [nan(...)] are not modelled: they are matching
    failures here. *)
Definition scan_f (s : string) : scanned spec_float :=
  match skip_space s with
  | EmptyString => InputFailure
  | s1 =>
      let '(neg, s2) := scan_sign s1 in
      match skip_word "infinity" s2, skip_word "inf" s2, skip_word "nan" s2 with
      | Some rest, _, _ => Matched (S754_infinity neg) rest
      | None, Some rest, _ => Matched (S754_infinity neg) rest
      | None, None, Some rest => Matched S754_nan rest
      | None, None, None => scan_number neg s2
      end
  end.

(** What [%.2f] followed by [%f] makes of a [double]: the [float] nearest to
    its value rounded to two decimals. *)
Definition two_decimals (x : spec_float) : spec_float :=
  match x with
  | S754_finite s m e => decimal_to_f32 s (hundredths m e) (-2)
  | _ => x
  end.

Inductive in_directive : Type :=
| InChar (c : ascii)
| InD
| InF.

(** [EOF] when the input fails before any conversion, the number of
    assignments otherwise. *)
Definition scanf_stop (input_failure : bool) (done : list arg) : Z * list arg :=
  match done with
  | [] => if input_failure then (-1, done) else (0, done)
  | _ => (Z.of_nat (List.length done), done)
  end.

(** [sscanf(s, fmt, ...)]: the value returned and the values stored, in the
    order of the conversions. *)
Fixpoint sscanf (fmt : list in_directive) (s : string) (done : list arg)
  : Z * list arg :=
  match fmt with
  | [] => (Z.of_nat (List.length done), done)
  | InChar c :: fmt' =>
      match s with
      | EmptyString => scanf_stop true done
      | String d r =>
          if Ascii.eqb d c then sscanf fmt' r done else scanf_stop false done
      end
  | InD :: fmt' =>
      match scan_d s with
      | Matched z rest => sscanf fmt' rest (done ++ [ArgInt z])
      | MatchingFailure => scanf_stop false done
      | InputFailure => scanf_stop true done
      end
  | InF :: fmt' =>
      match scan_f s with
      | Matched x rest => sscanf fmt' rest (done ++ [ArgFloat x])
      | MatchingFailure => scanf_stop false done
      | InputFailure => scanf_stop true done
      end
  end.

(** [args] are values for the first conversions of [fmt], of their types. *)
Fixpoint assigned_by (fmt : list in_directive) (args : list arg) : bool :=
  match fmt with
  | [] => match args with [] => true | _ => false end
  | InChar _ :: fmt' => assigned_by fmt' args
  | InD :: fmt' =>
      match args with
      | [] => true
      | ArgInt _ :: args' => assigned_by fmt' args'
      | _ => false
      end
  | InF :: fmt' =>
      match args with
      | [] => true
      | ArgFloat _ :: args' => assigned_by fmt' args'
      | _ => false
      end
  end.

(** The ordinary characters of a format. *)
Fixpoint out_chars (s : string) : list out_directive :=
  match s with
  | EmptyString => []
  | String c r => OutChar c :: out_chars r
  end.

Fixpoint in_chars (s : string) : list in_directive :=
  match s with
  | EmptyString => []
  | String c r => InChar c :: in_chars r
  end.

End Stdio.

(** ** The server: [pong/pong.c] *)
Module Pong.

(** *** Constants *)
Definition FPS : Z := 60.
Definition FIELD_WIDTH : Z := 80.
Definition FIELD_HEIGHT : Z := 24.
Definition PADDLE_HEIGHT : Z := 4.
Definition PADDLE_WIDTH : Z := 2.
Definition PADDLE_OFFSET_X : Z := 2.
Definition SERVE_TIME : Z := FPS * 3.

Definition INITIAL_BALL_SPEED : spec_float := F32.lit false 5 10.
Definition MAX_BALL_SPEED : spec_float := F32.lit false 12 10.
Definition SPEED_INCREASE_FACTOR : spec_float := F32.lit false 103 100.
Definition MIN_BOUNCE_ANGLE : spec_float := F32.lit false 3 10.

(** [M_PI] of <math.h>, a [double]. *)
Definition M_PI : spec_float :=
  F64.lit false 314159265358979323846 100000000000000000000.

(** *** Data *)
Inductive Input : Type := NONE | UP | DOWN.

Record Player : Type := mkPlayer {
  p_y : Z;          (* paddle vertical position *)
  p_input : Input   (* last received input *)
}.

Record Ball : Type := mkBall {
  b_x : spec_float;
  b_y : spec_float;
  b_dx : spec_float;
  b_dy : spec_float;
  b_serve_timer : Z;
  b_speed : spec_float
}.

(** A [struct netconn *]: [None] is the null pointer. *)
Definition handle : Type := positive.

Record Client : Type := mkClient {
  c_conn : option handle;
  c_id : Z
}.

(** What [netbuf_data] hands out: [len] bytes of payload, and the bytes that
    happen to follow them in memory (the payload is not NUL-terminated). *)
Record netbuf : Type := mkNetbuf {
  nb_data : string;
  nb_after : string
}.

Definition nb_len (nb : netbuf) : Z := Z.of_nat (String.length (nb_data nb)).

Definition nb_memory (nb : netbuf) : string := (nb_data nb ++ nb_after nb)%string.

(** *** [clamp_paddle] *)
Definition clamp_paddle (p : Player) : Player :=
  let p := if p_y p <? 0 then mkPlayer 0 (p_input p) else p in
  if p_y p >? FIELD_HEIGHT - PADDLE_HEIGHT
  then mkPlayer (FIELD_HEIGHT - PADDLE_HEIGHT) (p_input p)
  else p.

(** The paddle is inside the field. *)
Definition in_field (p : Player) : Prop :=
  0 <= p_y p <= FIELD_HEIGHT - PADDLE_HEIGHT.

(** *** [parse_input_line] *)
Definition parse_input_line (line : string) : Input :=
  if CStr.strncmp line "INPUT:UP" 8 =? 0 then UP
  else if CStr.strncmp line "INPUT:DOWN" 10 =? 0 then DOWN
  else NONE.

(** *** [reset_ball] *)
Section Libm.

Variables sinf cosf : spec_float -> spec_float.

(** [((rand() % 1000) / 1000.0f) * (M_PI / 3) - (M_PI / 6)], stored in a
    [float]: the quotient is a [float], the product and the difference are
    [double]s. *)
Definition angle_of (k : Z) : spec_float :=
  let q := F32.div (F32.of_int k) (F32.lit false 1000 1) in
  F64.to_f32
    (F64.sub (F64.mul (F64.of_f32 q) (F64.div M_PI (F64.of_int 3)))
             (F64.div M_PI (F64.of_int 6))).

(** The angle for the value [r] of [rand()]. *)
Definition serve_angle (r : N) : spec_float :=
  angle_of (Z.rem (Z.of_N r) 1000).

(** 30 degrees as a [float]: [M_PI / 6], narrowed. *)
Definition thirty_degrees : spec_float :=
  F64.to_f32 (F64.div M_PI (F64.of_int 6)).

(** The loop condition [fabsf(sinf(angle)) < 0.3f]. *)
Definition too_flat (angle : spec_float) : bool :=
  F32.ltb (F32.fabsf (sinf angle)) (F32.lit false 3 10).

(** The [do ... while] loop: draws are consumed until one is kept. [None]
    when the listed draws are all rejected. *)
Fixpoint draw_angle (draws : list N) : option (spec_float * list N) :=
  match draws with
  | [] => None
  | r :: rest =>
      let angle := serve_angle r in
      if too_flat angle then draw_angle rest else Some (angle, rest)
  end.

Definition serve_dir (serving_player : Z) : spec_float :=
  if serving_player =? 1 then F32.lit false 1 1 else F32.lit true 1 1.

Definition reset_ball (serving_player : Z) (draws : list N)
  : option (Ball * list N) :=
  let x := F32.of_int (Z.quot FIELD_WIDTH 2) in
  let y := F32.of_int (Z.quot FIELD_HEIGHT 2) in
  let speed := INITIAL_BALL_SPEED in
  match draw_angle draws with
  | None => None
  | Some (angle, rest) =>
      let dir := serve_dir serving_player in
      let dx := F32.mul (F32.mul dir speed) (cosf angle) in
      let dy := F32.mul speed (sinf angle) in
      Some (mkBall x y dx dy SERVE_TIME speed, rest)
  end.

(** *** [pong_thread]: waiting for the two players *)

(** One round of the accept loop: [netconn_accept] failed, or it returned a
    connection, on which [netconn_recv] delivered a first message or not. *)
Inductive accept_event : Type :=
| AcceptFailed
| Accepted (conn : handle) (hello : option netbuf).

Inductive net_action : Type :=
| NetWrite (conn : handle) (bytes : string)
| NetClose (conn : handle)
| NetDelete (conn : handle).

Record Lobby : Type := mkLobby {
  l_client0 : Client;
  l_client1 : Client;
  l_ready : Z
}.

Definition no_client : Client := mkClient None 0.

Definition lobby_init : Lobby := mkLobby no_client no_client 0.

Definition is_null (c : option handle) : bool :=
  match c with None => true | Some _ => false end.

(** [buf] after the optional receive: at most 31 bytes, NUL-terminated. *)
Definition hello_buf (hello : option netbuf) : string :=
  match hello with
  | None => EmptyString
  | Some nb => CStr.take 31 (nb_data nb)
  end.

Definition accept_one (l : Lobby) (conn : handle) (hello : option netbuf)
  : Lobby * list net_action :=
  let buf := hello_buf hello in
  if (CStr.strncmp buf "HELLO:1" 7 =? 0) && is_null (c_conn (l_client0 l)) then
    (mkLobby (mkClient (Some conn) 1) (l_client1 l) (CInt.wrap (l_ready l + 1)),
     [NetWrite conn (CStr.take 10 ("WELCOME 1" ++ CStr.LF)%string)])
  else if (CStr.strncmp buf "HELLO:2" 7 =? 0) && is_null (c_conn (l_client1 l)) then
    (mkLobby (l_client0 l) (mkClient (Some conn) 2) (CInt.wrap (l_ready l + 1)),
     [NetWrite conn (CStr.take 10 ("WELCOME 2" ++ CStr.LF)%string)])
  else (l, [NetClose conn; NetDelete conn]).

(** The tests [strncmp(buf, "HELLO:1", 7) == 0] and
    [strncmp(buf, "HELLO:2", 7) == 0]: the first seven bytes of [buf] are
    [HELLO:1], [HELLO:2], whatever follows them. *)
Definition claims1 (hello : option netbuf) : bool :=
  String.prefix "HELLO:1" (hello_buf hello).

Definition claims2 (hello : option netbuf) : bool :=
  String.prefix "HELLO:2" (hello_buf hello).

(** The characters of [s] before its first newline. *)
Fixpoint first_line (s : string) : string :=
  match s with
  | EmptyString => EmptyString
  | String c r =>
      if Ascii.eqb c "010"%char then EmptyString else String c (first_line r)
  end.

(** As the specification words the handshake, not as the code tests it: an
    identity claim is the line [HELLO:1] or [HELLO:2], and names slot 1 or
    slot 2; any other message, or none, names no slot. *)
Definition spec_named_slot (hello : option netbuf) : option Z :=
  match hello with
  | None => None
  | Some nb =>
      if String.eqb (first_line (nb_data nb)) "HELLO:1" then Some 1
      else if String.eqb (first_line (nb_data nb)) "HELLO:2" then Some 2
      else None
  end.

(** [while (ready < 2)]: the rounds are taken from [evs]; the loop is left
    with the rounds it did not need. When [evs] runs out first the server is
    still waiting. *)
Fixpoint accept_loop (l : Lobby) (evs : list accept_event)
  : Lobby * list net_action * list accept_event :=
  if l_ready l <? 2 then
    match evs with
    | [] => (l, [], [])
    | AcceptFailed :: evs' => accept_loop l evs'
    | Accepted conn hello :: evs' =>
        let '(l1, out1) := accept_one l conn hello in
        let '(l2, out2, rest) := accept_loop l1 evs' in
        (l2, out1 ++ out2, rest)
    end
  else (l, [], evs).

(** *** [pong_thread]: the game loop *)
Record Game : Type := mkGame {
  g_client0 : Client;
  g_client1 : Client;
  g_p1 : Player;
  g_p2 : Player;
  g_ball : Ball;
  g_score1 : Z;
  g_score2 : Z;
  g_draws : list N   (* what rand() returns from now on *)
}.

(** The state on entry of [while (1)]. *)
Definition game_init (c0 c1 : Client) (draws : list N) : option Game :=
  let p1 := mkPlayer (Z.quot FIELD_HEIGHT 2 - Z.quot PADDLE_HEIGHT 2) NONE in
  let p2 := mkPlayer (Z.quot FIELD_HEIGHT 2 - Z.quot PADDLE_HEIGHT 2) NONE in
  match reset_ball 1 draws with
  | None => None
  | Some (ball, rest) => Some (mkGame c0 c1 p1 p2 ball 0 0 rest)
  end.

(** One iteration of the input [for] loop: [recv] is what [netconn_recv]
    delivers for this client in this tick, if anything. *)
Definition handle_client (c : Client) (recv : option netbuf)
  (ps : Player * Player) : Player * Player :=
  let '(p1, p2) := ps in
  match c_conn c, recv with
  | Some _, Some nb =>
      if nb_len nb >=? 5 then
        let i := parse_input_line (nb_memory nb) in
        if c_id c =? 1 then (mkPlayer (p_y p1) i, p2)
        else (p1, mkPlayer (p_y p2) i)
      else ps
  | _, _ => ps
  end.

(** One of the three messages of a client. *)
Definition recognized (line : string) : bool :=
  String.prefix "INPUT:UP" line || String.prefix "INPUT:DOWN" line
  || String.prefix "INPUT:IDLE" line.

(** The command in store after the read of a tick, [old] being the one in
    store before. For a message of five bytes or more [strncmp] decides, and
    it compares the bytes at [data] without regard to [len]: the message and
    what follows it in memory. *)
Definition command_after (old : Input) (recv : option netbuf) : Input :=
  match recv with
  | Some nb =>
      if 5 <=? nb_len nb then
        if String.prefix "INPUT:UP" (nb_memory nb) then UP
        else if String.prefix "INPUT:DOWN" (nb_memory nb) then DOWN
        else NONE
      else old
  | None => old
  end.

Definition move_paddle (p : Player) : Player :=
  let p := match p_input p with
           | UP => mkPlayer (CInt.wrap (p_y p - 1)) (p_input p)
           | _ => p
           end in
  match p_input p with
  | DOWN => mkPlayer (CInt.wrap (p_y p + 1)) (p_input p)
  | _ => p
  end.

Definition move_ball (b : Ball) : Ball :=
  if b_serve_timer b >? 0 then
    mkBall (b_x b) (b_y b) (b_dx b) (b_dy b)
           (CInt.wrap (b_serve_timer b - 1)) (b_speed b)
  else
    mkBall (F32.add (b_x b) (b_dx b)) (F32.add (b_y b) (b_dy b))
           (b_dx b) (b_dy b) (b_serve_timer b) (b_speed b).

Definition flip (v : spec_float) : spec_float := F32.mul v (F32.of_int (-1)).

Definition bounce_walls (b : Ball) : Ball :=
  if F32.ltb (b_y b) (F32.of_int 0)
     || F32.ltb (F32.of_int (FIELD_HEIGHT - 1)) (b_y b)
  then mkBall (b_x b) (b_y b) (b_dx b) (flip (b_dy b))
              (b_serve_timer b) (b_speed b)
  else b.

Definition within_paddle (p : Player) (b : Ball) : bool :=
  F32.leb (F32.of_int (p_y p)) (b_y b)
  && F32.leb (b_y b) (F32.of_int (CInt.wrap (p_y p + PADDLE_HEIGHT))).

Definition flip_dx (b : Ball) : Ball :=
  mkBall (b_x b) (b_y b) (flip (b_dx b)) (b_dy b) (b_serve_timer b) (b_speed b).

Definition paddle1_collision (p1 : Player) (b : Ball) : Ball :=
  if F32.ltb (b_dx b) (F32.of_int 0)
     && F32.leb (b_x b) (F32.of_int (PADDLE_OFFSET_X + PADDLE_WIDTH))
  then if within_paddle p1 b then flip_dx b else b
  else b.

Definition paddle2_collision (p2 : Player) (b : Ball) : Ball :=
  if F32.ltb (F32.of_int 0) (b_dx b)
     && F32.leb (F32.of_int (FIELD_WIDTH - PADDLE_OFFSET_X - PADDLE_WIDTH)) (b_x b)
  then if within_paddle p2 b then flip_dx b else b
  else b.

(** The tick up to, and without, the scoring block. *)
Definition before_scoring (g : Game) (recv0 recv1 : option netbuf) : Game :=
  let '(p1, p2) :=
    handle_client (g_client1 g) recv1
      (handle_client (g_client0 g) recv0 (g_p1 g, g_p2 g)) in
  let p1 := clamp_paddle (move_paddle p1) in
  let p2 := clamp_paddle (move_paddle p2) in
  let b := paddle2_collision p2
             (paddle1_collision p1 (bounce_walls (move_ball (g_ball g)))) in
  mkGame (g_client0 g) (g_client1 g) p1 p2 b
         (g_score1 g) (g_score2 g) (g_draws g).

Definition out_left (b : Ball) : bool := F32.ltb (b_x b) (F32.of_int 0).

Definition out_right (b : Ball) : bool :=
  F32.ltb (F32.of_int FIELD_WIDTH) (b_x b).

(** The scoring block. *)
Definition scoring (g : Game) : option Game :=
  if out_left (g_ball g) then
    match reset_ball 1 (g_draws g) with
    | None => None
    | Some (b, rest) =>
        Some (mkGame (g_client0 g) (g_client1 g) (g_p1 g) (g_p2 g) b
                     (g_score1 g) (CInt.wrap (g_score2 g + 1)) rest)
    end
  else if out_right (g_ball g) then
    match reset_ball 2 (g_draws g) with
    | None => None
    | Some (b, rest) =>
        Some (mkGame (g_client0 g) (g_client1 g) (g_p1 g) (g_p2 g) b
                     (CInt.wrap (g_score1 g + 1)) (g_score2 g) rest)
    end
  else Some g.

(** One iteration of [while (1)], up to the formatting of the snapshot. *)
Definition tick (g : Game) (recv0 recv1 : option netbuf) : option Game :=
  scoring (before_scoring g recv0 recv1).

(** Both players are connected, player 1 in slot 0 and player 2 in slot 1. *)
Definition both_connected (c0 c1 : Client) : Prop :=
  exists h0 h1, c0 = mkClient (Some h0) 1 /\ c1 = mkClient (Some h1) 2.

(** The ball waits at the centre while the serve countdown runs. *)
Definition waits_at_centre (b : Ball) : Prop :=
  0 <= b_serve_timer b <= SERVE_TIME
  /\ (0 < b_serve_timer b ->
      b_x b = F32.of_int 40 /\ b_y b = F32.of_int 12).

(** The scores can still be incremented. *)
Definition scores_in_range (g : Game) : Prop :=
  CInt.INT_MIN <= g_score1 g < CInt.INT_MAX
  /\ CInt.INT_MIN <= g_score2 g < CInt.INT_MAX.

(** A draw the [do ... while] loop keeps. *)
Definition kept (r : N) : Prop := too_flat (serve_angle r) = false.

(** The states of the game loop: the one it is entered with, once the accept
    loop has seen both players, and those a tick leads to. *)
Inductive reachable : Game -> Prop :=
| reach_init evs l out rest draws g :
    accept_loop lobby_init evs = (l, out, rest) ->
    (l_ready l <? 2) = false ->
    game_init (l_client0 l) (l_client1 l) draws = Some g ->
    reachable g
| reach_tick g recv0 recv1 g' :
    reachable g ->
    tick g recv0 recv1 = Some g' ->
    reachable g'.

End Libm.

(** *** [pong_thread]: the snapshot *)

(** ["STATE:%d,%d,%.2f,%.2f,%.2f,%.2f,%d,%d,%d\n"]. *)
Definition state_format : list Stdio.out_directive :=
  Stdio.out_chars "STATE:"
  ++ [Stdio.OutD; Stdio.OutChar ","; Stdio.OutD; Stdio.OutChar ",";
      Stdio.OutF2; Stdio.OutChar ","; Stdio.OutF2; Stdio.OutChar ",";
      Stdio.OutF2; Stdio.OutChar ","; Stdio.OutF2; Stdio.OutChar ",";
      Stdio.OutD; Stdio.OutChar ","; Stdio.OutD; Stdio.OutChar ",";
      Stdio.OutD]
  ++ Stdio.out_chars CStr.LF.

(** The arguments of the [snprintf] call; the [float]s are promoted. *)
Definition state_args (g : Game) : list Stdio.arg :=
  [Stdio.ArgInt (p_y (g_p1 g)); Stdio.ArgInt (p_y (g_p2 g));
   Stdio.ArgDouble (F64.of_f32 (b_x (g_ball g)));
   Stdio.ArgDouble (F64.of_f32 (b_y (g_ball g)));
   Stdio.ArgDouble (F64.of_f32 (b_dx (g_ball g)));
   Stdio.ArgDouble (F64.of_f32 (b_dy (g_ball g)));
   Stdio.ArgInt (g_score1 g); Stdio.ArgInt (g_score2 g);
   Stdio.ArgInt (b_serve_timer (g_ball g))].

(** The characters of a snapshot, followed by [tail]. *)
Definition state_text (p1 p2 : Z) (bx by_ bdx bdy : spec_float)
  (s1 s2 timer : Z) (tail : string) : string :=
  ("STATE:" ++
   Stdio.fmt_d p1 (String "," (Stdio.fmt_d p2 (String ","
     (Stdio.fmt_f2 bx (String "," (Stdio.fmt_f2 by_ (String ","
       (Stdio.fmt_f2 bdx (String "," (Stdio.fmt_f2 bdy (String ","
         (Stdio.fmt_d s1 (String "," (Stdio.fmt_d s2 (String ","
           (Stdio.fmt_d timer tail)))))))))))))))))%string.

(** The five [int]s of a snapshot are [int]s. *)
Definition ints_in_range (g : Game) : Prop :=
  CInt.in_range (p_y (g_p1 g)) /\ CInt.in_range (p_y (g_p2 g))
  /\ CInt.in_range (g_score1 g) /\ CInt.in_range (g_score2 g)
  /\ CInt.in_range (b_serve_timer (g_ball g)).

(** [char state[128]] after the [snprintf]. *)
Definition state_line (g : Game) : string :=
  Stdio.snprintf 128 state_format (state_args g).

Definition send_state (c : Client) (state : string) : list net_action :=
  match c_conn c with
  | Some conn => [NetWrite conn state]
  | None => []
  end.

(** The two [netconn_write] calls of a tick. *)
Definition broadcast (g : Game) : list net_action :=
  send_state (g_client0 g) (state_line g)
  ++ send_state (g_client1 g) (state_line g).

End Pong.

(** ** A sine and a cosine to run the server with

    Truncated Taylor series in binary32 arithmetic, good to a few units in the
    last place on the range of the serve angles. They stand for libm wherever
    the server model is evaluated on concrete inputs; no theorem about the
    server depends on them. *)
Module Taylor.

Definition one : spec_float := F32.lit false 1 1.

Definition term (x2 : spec_float) (k : positive) (inner : spec_float)
  : spec_float :=
  F32.sub one (F32.mul (F32.div x2 (F32.lit false k 1)) inner).

Definition sinf (x : spec_float) : spec_float :=
  let x2 := F32.mul x x in
  F32.mul x (term x2 6 (term x2 20 (term x2 42 (term x2 72 one)))).

Definition cosf (x : spec_float) : spec_float :=
  let x2 := F32.mul x x in
  term x2 2 (term x2 12 (term x2 30 (term x2 56 one))).

End Taylor.

(** ** The client *)
Module Client.

Definition SERVER_EXPECTED_MESSAGES : Z := 9.

Record GameState : Type := mkGameState {
  is_player1 : Z;
  p1_y : Z;
  p2_y : Z;
  score1 : Z;
  score2 : Z;
  serve_timer : Z
}.

Record PredictedBall : Type := mkPredicted {
  x : spec_float;            (* float *)
  y : spec_float;            (* float *)
  dx : spec_float;           (* float *)
  dy : spec_float;           (* float *)
  last_update : spec_float;  (* double *)
  valid : Z
}.

(** [PredictedBall predicted = {0}]. *)
Definition predicted_init : PredictedBall :=
  mkPredicted (S754_zero false) (S754_zero false) (S754_zero false)
              (S754_zero false) (S754_zero false) 0.

(** The keys [handle_input] looks at. *)
Record Keys : Type := mkKeys {
  KEY_W : bool;
  KEY_S : bool;
  KEY_UP : bool;
  KEY_DOWN : bool
}.

(** The message [handle_input] sends. *)
Definition handle_input (keys : Keys) (state : GameState) : string :=
  if negb (is_player1 state =? 0) then
    if KEY_W keys then "INPUT:UP" ++ CStr.LF
    else if KEY_S keys then "INPUT:DOWN" ++ CStr.LF
    else "INPUT:IDLE" ++ CStr.LF
  else
    if KEY_UP keys then "INPUT:UP" ++ CStr.LF
    else if KEY_DOWN keys then "INPUT:DOWN" ++ CStr.LF
    else "INPUT:IDLE" ++ CStr.LF.

(** ["STATE:%d,%d,%f,%f,%f,%f,%d,%d,%d"]. *)
Definition state_format : list Stdio.in_directive :=
  Stdio.in_chars "STATE:"
  ++ [Stdio.InD; Stdio.InChar ","; Stdio.InD; Stdio.InChar ",";
      Stdio.InF; Stdio.InChar ","; Stdio.InF; Stdio.InChar ",";
      Stdio.InF; Stdio.InChar ","; Stdio.InF; Stdio.InChar ",";
      Stdio.InD; Stdio.InChar ","; Stdio.InD; Stdio.InChar ",";
      Stdio.InD].

(** [process_game_state]; [time] is what [GetTime()] returns. The result is
    the returned [int], [*state] and the global [predicted]. *)
Definition process_game_state (line : string) (state : GameState)
  (predicted : PredictedBall) (time : spec_float)
  : Z * GameState * PredictedBall :=
  match Stdio.sscanf state_format line [] with
  | (parsed,
     [Stdio.ArgInt new_p1_y; Stdio.ArgInt new_p2_y;
      Stdio.ArgFloat ball_x; Stdio.ArgFloat ball_y;
      Stdio.ArgFloat ball_dx; Stdio.ArgFloat ball_dy;
      Stdio.ArgInt s1; Stdio.ArgInt s2; Stdio.ArgInt timer]) =>
      if parsed =? SERVER_EXPECTED_MESSAGES then
        (1,
         mkGameState (is_player1 state) new_p1_y new_p2_y s1 s2 timer,
         mkPredicted ball_x ball_y ball_dx ball_dy time 1)
      else (0, state, predicted)
  | _ => (0, state, predicted)
  end.

(** [x + v * dt * 60.0f], stored in a [float]: [v] and [x] are widened, the
    products and the sum are [double]s. *)
Definition advance (x v dt : spec_float) : spec_float :=
  F64.to_f32
    (F64.add (F64.of_f32 x)
       (F64.mul (F64.mul (F64.of_f32 v) dt) (F64.of_f32 (F32.lit false 60 1)))).

(** The condition of the prediction block. *)
Definition fresh (now : spec_float) (predicted : PredictedBall) : bool :=
  negb (valid predicted =? 0)
  && F64.ltb (F64.sub now (last_update predicted)) (F64.lit false 1 1).

(** The prediction block of the main loop: [now] is what [GetTime()]
    returned, [frame_time] what [GetFrameTime()] returns (a [float]). *)
Definition predict (now frame_time : spec_float) (predicted : PredictedBall)
  : PredictedBall :=
  if fresh now predicted then
    let dt := F64.of_f32 frame_time in
    mkPredicted (advance (x predicted) (dx predicted) dt)
                (advance (y predicted) (dy predicted) dt)
                (dx predicted) (dy predicted) now (valid predicted)
  else predicted.

(** What a render frame does to the client: the prediction block, then one
    call of [process_game_state] for each complete line taken from the
    stream, stamped with the [GetTime()] of that call. *)
Fixpoint process_lines (ls : list (string * spec_float)) (state : GameState)
  (predicted : PredictedBall) : GameState * PredictedBall :=
  match ls with
  | [] => (state, predicted)
  | (line, time) :: ls' =>
      let '(_, state', predicted') :=
        process_game_state line state predicted time in
      process_lines ls' state' predicted'
  end.

Definition frame (now frame_time : spec_float) (ls : list (string * spec_float))
  (state : GameState) (predicted : PredictedBall)
  : GameState * PredictedBall :=
  process_lines ls state (predict now frame_time predicted).

(** Render frames during which nothing arrives: each is given by its
    [GetTime()] and its [GetFrameTime()]. *)
Fixpoint stalled_frames (fs : list (spec_float * spec_float))
  (state : GameState) (predicted : PredictedBall)
  : GameState * PredictedBall :=
  match fs with
  | [] => (state, predicted)
  | (now, frame_time) :: fs' =>
      let '(state', predicted') := frame now frame_time [] state predicted in
      stalled_frames fs' state' predicted'
  end.

End Client.

(** ** Runs of the two programs *)
Module Example.

(** The handshake: two clients ask for player 1, then one for player 2. *)
Definition hello (k : string) : Pong.netbuf :=
  Pong.mkNetbuf ("HELLO:" ++ k ++ CStr.LF) "".

Definition arrivals : list Pong.accept_event :=
  [Pong.Accepted 1%positive (Some (hello "1"));
   Pong.Accepted 2%positive (Some (hello "1"));
   Pong.Accepted 3%positive (Some (hello "2"))].

Definition lobby : Pong.Lobby :=
  Pong.mkLobby (Pong.mkClient (Some 1%positive) 1)
               (Pong.mkClient (Some 3%positive) 2) 2.

Definition answers : list Pong.net_action :=
  [Pong.NetWrite 1%positive ("WELCOME 1" ++ CStr.LF);
   Pong.NetClose 2%positive; Pong.NetDelete 2%positive;
   Pong.NetWrite 3%positive ("WELCOME 2" ++ CStr.LF)].

(** The values of [rand()]: 500 gives a flat angle, 0 gives -30 degrees. *)
Definition draws : list N := [500; 0; 999; 250]%N.

Definition served (dir : spec_float) (r : N) : Pong.Ball :=
  Pong.mkBall (F32.of_int 40) (F32.of_int 12)
    (F32.mul (F32.mul dir Pong.INITIAL_BALL_SPEED)
             (Taylor.cosf (Pong.serve_angle r)))
    (F32.mul Pong.INITIAL_BALL_SPEED (Taylor.sinf (Pong.serve_angle r)))
    180 Pong.INITIAL_BALL_SPEED.

(** The game as the loop is entered. *)
Definition start : Pong.Game :=
  Pong.mkGame (Pong.l_client0 lobby) (Pong.l_client1 lobby)
    (Pong.mkPlayer 10 Pong.NONE) (Pong.mkPlayer 10 Pong.NONE)
    (served (F32.lit false 1 1) 0) 0 0 [999; 250]%N.

Definition message (line : string) : option Pong.netbuf :=
  Some (Pong.mkNetbuf line "").

(** After a tick in which player 1 sent [INPUT:UP]. *)
Definition going_up : Pong.Game :=
  Pong.mkGame (Pong.l_client0 lobby) (Pong.l_client1 lobby)
    (Pong.mkPlayer 9 Pong.UP) (Pong.mkPlayer 10 Pong.NONE)
    (Pong.mkBall (F32.of_int 40) (F32.of_int 12)
       (Pong.b_dx (served (F32.lit false 1 1) 0))
       (Pong.b_dy (served (F32.lit false 1 1) 0))
       179 Pong.INITIAL_BALL_SPEED)
    0 0 [999; 250]%N.

(** The ball at [x = 80.75], moving right at [0.25] a tick, away from the
    paddles. *)
Definition leaving : Pong.Game :=
  Pong.mkGame (Pong.l_client0 lobby) (Pong.l_client1 lobby)
    (Pong.mkPlayer 10 Pong.NONE) (Pong.mkPlayer 10 Pong.NONE)
    (Pong.mkBall (F32.lit false 8075 100) (F32.of_int 3)
       (F32.lit false 1 4) (F32.lit false 1 8) 0 Pong.INITIAL_BALL_SPEED)
    4 2 [999; 250]%N.

(** The client before any snapshot, and the snapshot of the scenario. *)
Definition fresh_state : Client.GameState := Client.mkGameState 1 0 0 0 0 0.

Definition snapshot : string := "STATE:10,12,40.00,12.00,0.50,0.10,0,0,0".

(** The prediction once [snapshot] has been processed at time 0. *)
Definition synced : Client.PredictedBall :=
  snd (Client.process_game_state snapshot fresh_state Client.predicted_init
         (S754_zero false)).

(** Frames [1 .. n] at 60 frames a second: frame [k] is drawn at [k / 60]
    seconds and lasted [1 / 60] second. *)
Definition frames (n : nat) : list (spec_float * spec_float) :=
  List.map (fun k => (F64.lit false (Pos.of_nat k) 60, F32.lit false 1 60))
           (List.seq 1 n).

Definition after_frames (n : nat) : Client.PredictedBall :=
  snd (Client.stalled_frames (frames n) fresh_state synced).

End Example.

(** ** The server over several ticks *)
Module Play.

Section Libm.

Variables sinf cosf : spec_float -> spec_float.

(** Consecutive iterations of [while (1)]: one pair of reads for each. *)
Fixpoint ticks (g : Pong.Game)
  (recvs : list (option Pong.netbuf * option Pong.netbuf))
  : option Pong.Game :=
  match recvs with
  | [] => Some g
  | (recv0, recv1) :: recvs' =>
      match Pong.tick sinf cosf g recv0 recv1 with
      | Some g' => ticks g' recvs'
      | None => None
      end
  end.

End Libm.

(** Ticks in which nothing is read. *)
Definition silence (n : nat) : list (option Pong.netbuf * option Pong.netbuf) :=
  List.repeat (None, None) n.


(** The two tests of the collision blocks. *)
Definition hits_paddle1 (p1 : Pong.Player) (b : Pong.Ball) : bool :=
  F32.ltb (Pong.b_dx b) (F32.of_int 0)
  && F32.leb (Pong.b_x b) (F32.of_int (Pong.PADDLE_OFFSET_X + Pong.PADDLE_WIDTH))
  && Pong.within_paddle p1 b.

Definition hits_paddle2 (p2 : Pong.Player) (b : Pong.Ball) : bool :=
  F32.ltb (F32.of_int 0) (Pong.b_dx b)
  && F32.leb (F32.of_int (Pong.FIELD_WIDTH - Pong.PADDLE_OFFSET_X
                          - Pong.PADDLE_WIDTH)) (Pong.b_x b)
  && Pong.within_paddle p2 b.

(** The number of [netconn_write] calls among the actions. *)
Fixpoint writes (out : list Pong.net_action) : Z :=
  match out with
  | [] => 0
  | Pong.NetWrite _ _ :: out' => 1 + writes out'
  | _ :: out' => writes out'
  end.

(** The connections the actions are about, in order. *)
Definition action_conn (a : Pong.net_action) : Pong.handle :=
  match a with
  | Pong.NetWrite c _ => c
  | Pong.NetClose c => c
  | Pong.NetDelete c => c
  end.

(** The connections [netconn_accept] handed out, in order. *)
Fixpoint accepted (evs : list Pong.accept_event) : list Pong.handle :=
  match evs with
  | [] => []
  | Pong.AcceptFailed :: evs' => accepted evs'
  | Pong.Accepted c _ :: evs' => c :: accepted evs'
  end.

(** The ball fields print with at most ten digits before the point. *)
Definition moderate (x : spec_float) : Prop :=
  match F64.of_f32 x with
  | S754_finite _ m e => Stdio.hundredths m e < 10 ^ 12
  | _ => True
  end.

Definition moderate_ball (b : Pong.Ball) : Prop :=
  moderate (Pong.b_x b) /\ moderate (Pong.b_y b)
  /\ moderate (Pong.b_dx b) /\ moderate (Pong.b_dy b).

End Play.

(** ** The client: start-up, stream reassembly and the frame *)
Module Session.

(** ["HELLO:%d\n"]. *)
Definition hello_format : list Stdio.out_directive :=
  Stdio.out_chars "HELLO:" ++ [Stdio.OutD] ++ Stdio.out_chars CStr.LF.

(** [char hello_msg[32]] after the [snprintf]. *)
Definition hello_msg (player_number : Z) : string :=
  Stdio.snprintf 32 hello_format [Stdio.ArgInt player_number].

(** [main] from the check of the player number to the loop: the message it
    sends and the state it enters the loop with; [None] when it returns 1. *)
Definition start (player_number : Z) : option (string * Client.GameState) :=
  if negb (player_number =? 1) && negb (player_number =? 2) then None
  else
    Some (hello_msg player_number,
          Client.mkGameState (if player_number =? 1 then 1 else 0) 0 0 0 0 0).

(** A [char] array read as a C string: up to the first [NUL]. *)
Fixpoint c_str (s : string) : string :=
  match s with
  | EmptyString => EmptyString
  | String c r =>
      if Ascii.eqb c CStr.NUL then EmptyString else String c (c_str r)
  end.

(** [strchr(buffer, '\n')]: what is before the first newline and what is
    after it. *)
Fixpoint split_newline (s : string) : option (string * string) :=
  match s with
  | EmptyString => None
  | String c r =>
      if Ascii.eqb c "010"%char then Some (EmptyString, r)
      else
        match split_newline r with
        | Some (line, rest) => Some (String c line, rest)
        | None => None
        end
  end.

(** [while ((line = strchr(buffer, '\n')))]: the lines handed to
    [process_game_state], in order, and [buffer] at the end. One unit of
    fuel for each turn of the loop. *)
Fixpoint take_lines (fuel : nat) (buffer : string) : list string * string :=
  match fuel with
  | O => ([], buffer)
  | S fuel' =>
      match split_newline buffer with
      | None => ([], buffer)
      | Some (line, rest) =>
          let '(ls, b) := take_lines fuel' rest in (line :: ls, b)
      end
  end.

Definition BUFFER_SIZE : Z := 256.

(** The receive block: [data] is what [recv] put in [netbuf], its length is
    [n], at most [BUFFER_SIZE - 1]; the empty [data] stands for [n <= 0].
    [strcat] needs the two strings and the final [NUL] to fit the
    [BUFFER_SIZE * 2] bytes of [buffer]: beyond that the behaviour is
    undefined, [None] here. After [strcat] the loop cannot turn more often
    than [buffer] has characters. *)
Definition receive (buffer data : string) : option (list string * string) :=
  match data with
  | EmptyString => Some ([], buffer)
  | _ =>
      let b := (c_str buffer ++ c_str data)%string in
      if Z.of_nat (String.length b) <? BUFFER_SIZE * 2 then
        Some (take_lines (String.length b) b)
      else None
  end.

(** The receive blocks of consecutive turns of the main loop: the lines
    handed to [process_game_state] in all of them, and [buffer] at the end. *)
Fixpoint receives (buffer : string) (reads : list string)
  : option (list string * string) :=
  match reads with
  | [] => Some ([], buffer)
  | data :: reads' =>
      match receive buffer data with
      | None => None
      | Some (ls, b) =>
          match receives b reads' with
          | None => None
          | Some (ls', b') => Some (ls ++ ls', b')
          end
      end
  end.

(** What the server writes in consecutive ticks, as one stream. *)
Definition stream (lines : list string) : string :=
  List.fold_right String.append EmptyString lines.

(** No character of [s] is a [NUL] or a newline. *)
Fixpoint plain (s : string) : bool :=
  match s with
  | EmptyString => true
  | String c r =>
      negb (Ascii.eqb c CStr.NUL) && negb (Ascii.eqb c "010"%char) && plain r
  end.

(** The lines with the [GetTime()] of their [process_game_state] call:
    [clock k] is what the call number [k] of the frame returns. *)
Fixpoint stamp (clock : nat -> spec_float) (k : nat) (ls : list string)
  : list (string * spec_float) :=
  match ls with
  | [] => []
  | l :: ls' => (l, clock k) :: stamp clock (S k) ls'
  end.

(** One turn of the main loop, drawing apart: the message sent, [buffer],
    [state] and [predicted] afterwards. *)
Definition main_frame (now frame_time : spec_float) (keys : Client.Keys)
  (clock : nat -> spec_float) (data : string)
  (buffer : string) (state : Client.GameState)
  (predicted : Client.PredictedBall)
  : option (string * string * Client.GameState * Client.PredictedBall) :=
  let predicted1 := Client.predict now frame_time predicted in
  let last_input := Client.handle_input keys state in
  match receive buffer data with
  | None => None
  | Some (ls, buffer') =>
      let '(state', predicted') :=
        Client.process_lines (stamp clock 0 ls) state predicted1 in
      Some (last_input, buffer', state', predicted')
  end.

(** The line is a complete [STATE] message for [process_game_state]. *)
Definition complete (line : string) : bool :=
  fst (Stdio.sscanf Client.state_format line [])
  =? Client.SERVER_EXPECTED_MESSAGES.

End Session.

(** ** The client: [draw_game] *)
Module Render.

Definition SCREEN_WIDTH : Z := 800.
Definition SCREEN_HEIGHT : Z := 600.
Definition PADDLE_WIDTH : Z := 20.
Definition PADDLE_HEIGHT : Z := 100.
Definition BALL_SIZE : Z := 15.
Definition SERVER_WIDTH : Z := 80.
Definition SERVER_HEIGHT : Z := 24.
Definition SERVER_PADDLE_OFFSET_X : Z := 2.
Definition SERVER_PADDLE_WIDTH : Z := 2.

Inductive Color : Type := BLACK | WHITE | GREEN.

(** The calls made to the drawing library; the coordinates are [int]s. *)
Inductive draw : Type :=
| BeginDrawing
| ClearBackground (color : Color)
| DrawRectangle (posX posY width height : Z) (color : Color)
| DrawCircle (centerX centerY : Z) (radius : spec_float) (color : Color)
| DrawText (text : string) (posX posY fontSize : Z) (color : Color)
| EndDrawing.

(** [(int) x] for a [float] x: the fraction is dropped. Outside the range of
    [int] the conversion is undefined in C; it is [INT_MIN] here. *)
Definition int_of_float (x : spec_float) : Z :=
  match x with
  | S754_zero _ => 0
  | S754_finite s m e =>
      let a := if 0 <=? e then Zpos m * 2 ^ e else Zpos m / 2 ^ (- e) in
      let z := if s then - a else a in
      if (CInt.INT_MIN <=? z) && (z <=? CInt.INT_MAX) then z else CInt.INT_MIN
  | _ => CInt.INT_MIN
  end.

(** [((float) v / height) * pixels]. *)
Definition scale (v : spec_float) (units pixels : Z) : spec_float :=
  F32.mul (F32.div v (F32.of_int units)) (F32.of_int pixels).

(** The dashed line: [for (int i = 0; i < SCREEN_HEIGHT; i += 30)]. *)
Fixpoint dashes (fuel : nat) (i : Z) : list draw :=
  match fuel with
  | O => []
  | S fuel' =>
      if i <? SCREEN_HEIGHT then
        DrawRectangle (Z.quot SCREEN_WIDTH 2 - 2) i 4 20 WHITE
        :: dashes fuel' (CInt.wrap (i + 30))
      else []
  end.

(** [draw_game]: [last_input] is [None] for a null pointer. *)
Definition draw_game (state : Client.GameState)
  (predicted : Client.PredictedBall) (last_input : option string)
  : list draw :=
  let p1_screen_y :=
    scale (F32.of_int (Client.p1_y state)) SERVER_HEIGHT SCREEN_HEIGHT in
  let p2_screen_y :=
    scale (F32.of_int (Client.p2_y state)) SERVER_HEIGHT SCREEN_HEIGHT in
  let paddle1_x :=
    scale (F32.of_int SERVER_PADDLE_OFFSET_X) SERVER_WIDTH SCREEN_WIDTH in
  let paddle2_x :=
    scale (F32.of_int
             (SERVER_WIDTH - SERVER_PADDLE_OFFSET_X - SERVER_PADDLE_WIDTH))
          SERVER_WIDTH SCREEN_WIDTH in
  let ball_screen_x := scale (Client.x predicted) SERVER_WIDTH SCREEN_WIDTH in
  let ball_screen_y := scale (Client.y predicted) SERVER_HEIGHT SCREEN_HEIGHT in
  [BeginDrawing; ClearBackground BLACK;
   DrawRectangle (int_of_float paddle1_x) (int_of_float p1_screen_y)
     PADDLE_WIDTH PADDLE_HEIGHT WHITE;
   DrawRectangle (int_of_float paddle2_x) (int_of_float p2_screen_y)
     PADDLE_WIDTH PADDLE_HEIGHT WHITE]
  ++ (if Client.serve_timer state <=? 0 then
        [DrawCircle (int_of_float ball_screen_x) (int_of_float ball_screen_y)
           (F32.of_int BALL_SIZE) WHITE]
      else [])
  ++ [DrawText (Stdio.fmt_d (Client.score1 state) "")
        (Z.quot SCREEN_WIDTH 4) 30 40 WHITE;
      DrawText (Stdio.fmt_d (Client.score2 state) "")
        (Z.quot (3 * SCREEN_WIDTH) 4) 30 40 WHITE]
  ++ dashes (Z.to_nat SCREEN_HEIGHT) 0
  ++ (if Client.serve_timer state >? 0 then
        let countdown :=
          Z.quot (CInt.wrap (Client.serve_timer state + 29)) 30 in
        [DrawText (Stdio.fmt_d countdown "")
           (Z.quot SCREEN_WIDTH 2 - 10) (Z.quot SCREEN_HEIGHT 2 - 20) 40 WHITE]
      else [])
  ++ match last_input with
     | Some msg =>
         [DrawText ("Last input: " ++ msg) 10 (SCREEN_HEIGHT - 30) 20 GREEN]
     | None => []
     end
  ++ [EndDrawing].

(** The rectangle is inside the window. *)
Definition on_screen (d : draw) : Prop :=
  match d with
  | DrawRectangle posX posY width height _ =>
      0 <= posX /\ posX + width <= SCREEN_WIDTH
      /\ 0 <= posY /\ posY + height <= SCREEN_HEIGHT
  | _ => True
  end.

(** The calls that draw the ball, and the one that draws the countdown. *)
Definition is_ball (d : draw) : bool :=
  match d with
  | DrawCircle _ _ _ _ => true
  | _ => false
  end.

Definition is_countdown (d : draw) : bool :=
  match d with
  | DrawText _ posX posY _ _ =>
      (posX =? Z.quot SCREEN_WIDTH 2 - 10) && (posY =? Z.quot SCREEN_HEIGHT 2 - 20)
  | _ => false
  end.

End Render.

(** ** Runs for the properties of the two programs together *)
Module Scenario.

(** The handshake in two parts: player 1 arrives, then a second claim for
    player 1 and a claim for player 2. *)
Definition first_arrival : list Pong.accept_event :=
  [Pong.Accepted 1%positive (Some (Example.hello "1"))].

Definition half_lobby : Pong.Lobby :=
  Pong.mkLobby (Pong.mkClient (Some 1%positive) 1) Pong.no_client 1.

Definition later_arrivals : list Pong.accept_event :=
  [Pong.Accepted 2%positive (Some (Example.hello "1"));
   Pong.Accepted 3%positive (Some (Example.hello "2"))].

(** The ball a quarter of a unit from the left paddle, moving towards it and
    level with it. *)
Definition rally : Pong.Game :=
  Pong.mkGame (Pong.l_client0 Example.lobby) (Pong.l_client1 Example.lobby)
    (Pong.mkPlayer 10 Pong.NONE) (Pong.mkPlayer 10 Pong.NONE)
    (Pong.mkBall (F32.lit false 425 100) (F32.of_int 11)
       (F32.lit true 1 4) (F32.lit false 1 8) 0 Pong.INITIAL_BALL_SPEED)
    4 2 [999; 250]%N.

(** The snapshots of the first two states of the game, cut in three reads. *)
Definition reads : list string :=
  ["STATE:10,10,40.00,12";
   ".00,0.43,-0.25,0,0,180" ++ CStr.LF ++ "STATE:9,10,40.00,12.00,0.43";
   ",-0.25,0,0,179" ++ CStr.LF]%string.

(** A turn of the client's loop: [buffer] holds the start of a snapshot, the
    read brings its end, a line that is no snapshot and the start of the
    next. *)
Definition keys : Client.Keys := Client.mkKeys true false false false.

Definition clock (k : nat) : spec_float := F64.of_int (2 + Z.of_nat k).

Definition held : string := "STATE:10,12,40.00,".

Definition data : string :=
  ("12.00,0.50,0.10,0,0,0" ++ CStr.LF ++ "junk" ++ CStr.LF ++ "STA")%string.

(** The client's state at the start of a countdown. *)
Definition counting : Client.GameState := Client.mkGameState 1 10 20 3 2 180.

End Scenario.

(** * Properties *)

(** ** Integers and strings *)

Lemma wrap_id (z : Z) : CInt.in_range z -> CInt.wrap z = z.
Proof.
  unfold CInt.in_range, CInt.wrap, CInt.INT_MIN, CInt.INT_MAX; intros H.
  rewrite Z.mod_small by lia. lia.
Qed.

Lemma wrap_in_range (z : Z) : CInt.in_range (CInt.wrap z).
Proof.
  unfold CInt.in_range, CInt.wrap, CInt.INT_MIN, CInt.INT_MAX.
  pose proof (Z.mod_pos_bound (z + 2147483648) 4294967296 ltac:(lia)). lia.
Qed.

Lemma code_inj (c d : ascii) : CStr.code c = CStr.code d -> c = d.
Proof.
  unfold CStr.code. intros E.
  assert (E' : N_of_ascii c = N_of_ascii d) by lia.
  apply (f_equal ascii_of_N) in E'. now rewrite !ascii_N_embedding in E'.
Qed.

Lemma strncmp_step (s1 s2 : string) (n : nat) :
  CStr.strncmp s1 s2 (S n) =
  if negb (Ascii.eqb (CStr.head s1) (CStr.head s2))
  then CStr.code (CStr.head s1) - CStr.code (CStr.head s2)
  else if Ascii.eqb (CStr.head s1) CStr.NUL then 0
       else CStr.strncmp (CStr.tail s1) (CStr.tail s2) n.
Proof. reflexivity. Qed.

(** [strncmp(s, lit, strlen(lit)) == 0] says that [s] starts with [lit]. *)
Lemma strncmp_prefix (lit : string) :
  CStr.no_nul lit = true ->
  forall s, (CStr.strncmp s lit (String.length lit) =? 0) = String.prefix lit s.
Proof.
  induction lit as [|c lit IH]; intros Hn s.
  - destruct s; reflexivity.
  - cbn [CStr.no_nul] in Hn. apply andb_prop in Hn. destruct Hn as [Hc Hl].
    apply negb_true_iff in Hc.
    cbn [String.length]. rewrite strncmp_step.
    destruct s as [|d s]; cbn [CStr.head CStr.tail String.prefix].
    + rewrite Ascii.eqb_sym, Hc. cbn [negb].
      apply Z.eqb_neq. intros E.
      assert (E' : CStr.code CStr.NUL = CStr.code c) by lia.
      apply code_inj in E'. subst c. discriminate.
    + destruct (Ascii.eqb d c) eqn:Edc; cbn [negb].
      * apply Ascii.eqb_eq in Edc. subst d. rewrite Hc.
        destruct (ascii_dec c c) as [_|n]; [|congruence]. apply IH, Hl.
      * destruct (ascii_dec c d) as [e|_].
        { subst d. rewrite Ascii.eqb_refl in Edc. discriminate. }
        apply Z.eqb_neq. intros E.
        assert (E' : CStr.code d = CStr.code c) by lia.
        apply code_inj in E'. subst d. rewrite Ascii.eqb_refl in Edc.
        discriminate.
Qed.

(** ** Prefixes of messages *)

Lemma prefix_nil (s : string) : String.prefix EmptyString s = true.
Proof. destruct s; reflexivity. Qed.

(** A prefix of the message is a prefix of the message and what follows. *)
Lemma prefix_app_r (p : string) :
  forall d a, String.prefix p d = true -> String.prefix p (d ++ a) = true.
Proof.
  induction p as [|c p IH]; intros d a H; [apply prefix_nil|].
  destruct d as [|c' d]; [discriminate|].
  cbn [String.append String.prefix] in *.
  destruct (ascii_dec c c'); [apply IH, H|discriminate].
Qed.

(** What the message and the bytes after it start with, the message starts
    with, or it is itself only a beginning of it. *)
Lemma prefix_app_cases (p : string) :
  forall d a,
    String.prefix p (d ++ a) = true ->
    String.prefix p d = true \/ String.prefix d p = true.
Proof.
  induction p as [|c p IH]; intros d a H; [left; apply prefix_nil|].
  destruct d as [|c' d]; [right; reflexivity|].
  cbn [String.append String.prefix] in *.
  destruct (ascii_dec c c') as [->|N].
  - destruct (ascii_dec c' c') as [_|N']; [|congruence]. apply (IH d a H).
  - discriminate.
Qed.

Lemma prefix_iff_app (p s : string) :
  String.prefix p s = true <-> exists rest, s = (p ++ rest)%string.
Proof.
  revert s. induction p as [|c p IH]; intros s.
  - split; [intros _; exists s; reflexivity|intros _; apply prefix_nil].
  - destruct s as [|c' s]; cbn [String.prefix String.append].
    + split; [discriminate|intros (rest & E); discriminate].
    + destruct (ascii_dec c c') as [->|N].
      * rewrite IH. split; intros (rest & E); exists rest; congruence.
      * split; [discriminate|intros (rest & E); congruence].
Qed.

Lemma prefix_take (p : string) :
  forall n s,
    (String.length p <= n)%nat ->
    String.prefix p (CStr.take n s) = String.prefix p s.
Proof.
  induction p as [|c p IH]; intros n s H; [rewrite !prefix_nil; reflexivity|].
  cbn [String.length] in H. destruct n as [|n]; [lia|].
  destruct s as [|c' s]; [reflexivity|].
  cbn [CStr.take String.prefix].
  destruct (ascii_dec c c'); [apply IH; lia|reflexivity].
Qed.

Lemma first_line_prefix (s : string) :
  String.prefix (Pong.first_line s) s = true.
Proof.
  induction s as [|c s IH]; [reflexivity|].
  cbn [Pong.first_line]. destruct (Ascii.eqb c "010"); [reflexivity|].
  cbn [String.prefix]. destruct (ascii_dec c c); [exact IH|congruence].
Qed.

(** The seven-byte tests, in plain words. *)
Lemma claims_begin (hello : option Pong.netbuf) :
  (Pong.claims1 hello = true
   <-> exists nb rest,
       hello = Some nb /\ Pong.nb_data nb = ("HELLO:1" ++ rest)%string)
  /\ (Pong.claims2 hello = true
      <-> exists nb rest,
          hello = Some nb /\ Pong.nb_data nb = ("HELLO:2" ++ rest)%string).
Proof.
  unfold Pong.claims1, Pong.claims2, Pong.hello_buf.
  destruct hello as [nb|].
  - rewrite !prefix_take by (cbn; lia). rewrite !prefix_iff_app.
    split; split;
      try (intros (rest & E); exists nb, rest; auto);
      intros (nb' & rest & E & D); injection E as <-; exists rest; exact D.
  - split; split; try discriminate; intros (nb & rest & E & _); discriminate.
Qed.

(** The claims of the specification pass the tests of the code. *)
Lemma named_slot_claims (hello : option Pong.netbuf) :
  (Pong.spec_named_slot hello = Some 1 -> Pong.claims1 hello = true)
  /\ (Pong.spec_named_slot hello = Some 2 -> Pong.claims2 hello = true).
Proof.
  unfold Pong.spec_named_slot, Pong.claims1, Pong.claims2, Pong.hello_buf.
  destruct hello as [nb|]; [|split; discriminate].
  rewrite !prefix_take by (cbn; lia).
  pose proof (first_line_prefix (Pong.nb_data nb)) as P.
  destruct (String.eqb (Pong.first_line (Pong.nb_data nb)) "HELLO:1") eqn:E1.
  - apply String.eqb_eq in E1. rewrite E1 in P.
    split; [intros _; exact P|discriminate].
  - destruct (String.eqb (Pong.first_line (Pong.nb_data nb)) "HELLO:2") eqn:E2.
    + apply String.eqb_eq in E2. rewrite E2 in P.
      split; [discriminate|intros _; exact P].
    + split; discriminate.
Qed.

(** What a message of five bytes or more puts in store. *)
Lemma command_of_message (old : Pong.Input) (data after : string) :
  5 <= Z.of_nat (String.length data) ->
  let cmd := Pong.command_after old (Some (Pong.mkNetbuf data after)) in
  cmd = (if String.prefix "INPUT:UP" (data ++ after) then Pong.UP
         else if String.prefix "INPUT:DOWN" (data ++ after) then Pong.DOWN
         else Pong.NONE)
  /\ (String.prefix "INPUT:UP" data = true -> cmd = Pong.UP)
  /\ (String.prefix "INPUT:DOWN" data = true -> cmd = Pong.DOWN)
  /\ (String.prefix "INPUT:UP" data = false ->
      String.prefix "INPUT:DOWN" data = false ->
      String.prefix data "INPUT:UP" = false ->
      String.prefix data "INPUT:DOWN" = false -> cmd = Pong.NONE).
Proof.
  intros H cmd.
  assert (E : cmd = (if String.prefix "INPUT:UP" (data ++ after) then Pong.UP
                     else if String.prefix "INPUT:DOWN" (data ++ after)
                          then Pong.DOWN else Pong.NONE)).
  { unfold cmd, Pong.command_after, Pong.nb_len, Pong.nb_memory.
    cbn [Pong.nb_data Pong.nb_after].
    apply Z.leb_le in H. rewrite H. reflexivity. }
  split; [exact E|]. rewrite E. split; [|split].
  - intros U. rewrite (prefix_app_r _ _ after U). reflexivity.
  - intros D. rewrite (prefix_app_r _ _ after D).
    apply prefix_iff_app in D. destruct D as (r & ->). reflexivity.
  - intros U D U' D'.
    destruct (String.prefix "INPUT:UP" (data ++ after)) eqn:A.
    { destruct (prefix_app_cases _ _ _ A); congruence. }
    destruct (String.prefix "INPUT:DOWN" (data ++ after)) eqn:B.
    { destruct (prefix_app_cases _ _ _ B); congruence. }
    reflexivity.
Qed.

(** ** The server *)
Section ServerFacts.

Variables sinf cosf : spec_float -> spec_float.

Lemma clamp_paddle_in_field (p : Pong.Player) :
  Pong.in_field (Pong.clamp_paddle p).
Proof.
  unfold Pong.in_field, Pong.clamp_paddle, Pong.FIELD_HEIGHT, Pong.PADDLE_HEIGHT.
  destruct (Pong.p_y p <? 0) eqn:E1; cbn [Pong.p_y].
  - cbn. lia.
  - apply Z.ltb_ge in E1.
    destruct (Pong.p_y p >? 24 - 4) eqn:E2; cbn [Pong.p_y]; [lia|].
    rewrite Z.gtb_ltb in E2. apply Z.ltb_ge in E2. lia.
Qed.

Lemma clamp_paddle_input (p : Pong.Player) :
  Pong.p_input (Pong.clamp_paddle p) = Pong.p_input p.
Proof.
  unfold Pong.clamp_paddle.
  destruct (Pong.p_y p <? 0); cbn [Pong.p_y Pong.p_input];
    match goal with |- context [if ?c then _ else _] => destruct c end;
    reflexivity.
Qed.

Lemma move_paddle_input (p : Pong.Player) :
  Pong.p_input (Pong.move_paddle p) = Pong.p_input p.
Proof.
  unfold Pong.move_paddle. destruct p as [y0 []]; reflexivity.
Qed.

(** The loop stops at the first draw it keeps. *)
Lemma draw_angle_inv (draws : list N) (angle : spec_float) (rest : list N) :
  Pong.draw_angle sinf draws = Some (angle, rest) ->
  exists pre r,
    draws = pre ++ r :: rest
    /\ angle = Pong.serve_angle r
    /\ Pong.kept sinf r
    /\ Forall (fun r' => Pong.too_flat sinf (Pong.serve_angle r') = true) pre.
Proof.
  revert angle rest.
  induction draws as [|r draws IH]; intros angle rest H; [discriminate|].
  cbn [Pong.draw_angle] in H.
  destruct (Pong.too_flat sinf (Pong.serve_angle r)) eqn:E.
  - destruct (IH _ _ H) as (pre & r' & -> & Ha & Hk & Hpre).
    exists (r :: pre), r'. repeat split; auto.
  - injection H as <- <-. exists [], r. repeat split; auto.
Qed.

(** The loop ends when a draw to keep is coming. *)
Lemma draw_angle_total (draws : list N) :
  Exists (Pong.kept sinf) draws ->
  exists angle rest, Pong.draw_angle sinf draws = Some (angle, rest).
Proof.
  induction 1 as [r draws Hk | r draws _ IH]; cbn [Pong.draw_angle].
  - unfold Pong.kept in Hk. rewrite Hk. eauto.
  - destruct (Pong.too_flat sinf (Pong.serve_angle r)); eauto.
Qed.

Lemma reset_ball_total (serving : Z) (draws : list N) :
  Exists (Pong.kept sinf) draws ->
  exists b rest, Pong.reset_ball sinf cosf serving draws = Some (b, rest).
Proof.
  intros H. destruct (draw_angle_total _ H) as (angle & rest & E).
  unfold Pong.reset_ball. rewrite E. eauto.
Qed.

Lemma reset_ball_inv (serving : Z) (draws : list N) (b : Pong.Ball)
  (rest : list N) :
  Pong.reset_ball sinf cosf serving draws = Some (b, rest) ->
  exists angle,
    Pong.draw_angle sinf draws = Some (angle, rest)
    /\ b = Pong.mkBall (F32.of_int 40) (F32.of_int 12)
             (F32.mul (F32.mul (Pong.serve_dir serving) Pong.INITIAL_BALL_SPEED)
                      (cosf angle))
             (F32.mul Pong.INITIAL_BALL_SPEED (sinf angle))
             180 Pong.INITIAL_BALL_SPEED.
Proof.
  unfold Pong.reset_ball.
  destruct (Pong.draw_angle sinf draws) as [[angle rest']|]; [|discriminate].
  intros H. injection H as <- <-. exists angle. split; reflexivity.
Qed.

(** Every angle the formula yields is a finite number within 30 degrees. *)
Lemma angle_of_bounded (k : Z) :
  0 <= k < 1000 ->
  F32.is_finite (Pong.angle_of k) = true
  /\ F32.leb (F32.fabsf (Pong.angle_of k)) Pong.thirty_degrees = true.
Proof.
  intros Hk.
  assert (Hall : forallb (fun n =>
            F32.is_finite (Pong.angle_of (Z.of_nat n))
            && F32.leb (F32.fabsf (Pong.angle_of (Z.of_nat n)))
                       Pong.thirty_degrees) (seq 0 1000) = true)
    by (vm_compute; reflexivity).
  rewrite forallb_forall in Hall.
  specialize (Hall (Z.to_nat k)).
  rewrite Z2Nat.id in Hall by lia.
  apply andb_prop. apply Hall. apply in_seq. lia.
Qed.

Lemma serve_angle_bounded (r : N) :
  F32.is_finite (Pong.serve_angle r) = true
  /\ F32.leb (F32.fabsf (Pong.serve_angle r)) Pong.thirty_degrees = true.
Proof.
  unfold Pong.serve_angle. apply angle_of_bounded.
  pose proof (Z.rem_bound_pos (Z.of_N r) 1000 ltac:(lia) ltac:(lia)). lia.
Qed.

(** [a < b] fails and neither is a NaN: [b <= a]. *)
Lemma not_ltb_leb (a b : spec_float) :
  F32.is_nan a = false -> F32.is_nan b = false ->
  F32.ltb a b = false -> F32.leb b a = true.
Proof.
  unfold F32.ltb, F32.leb, SFltb, SFleb.
  destruct a as [sa|sa| |sa ma ea], b as [sb|sb| |sb mb eb];
    cbn; try discriminate; intros _ _;
    repeat match goal with
           | s : bool |- _ => destruct s
           end; cbn; try congruence.
  all: destruct (ea ?= eb) eqn:E1; rewrite Z.compare_antisym, E1; cbn;
       try congruence.
  all: change (PosDef.Pos.compare_cont Eq mb ma) with (mb ?= ma)%positive;
       change (PosDef.Pos.compare_cont Eq ma mb) with (ma ?= mb)%positive;
       rewrite (Pos.compare_antisym ma mb);
       destruct (ma ?= mb)%positive; cbn; congruence.
Qed.


(** *** The accept loop *)

Lemma accept_one_eq (l : Pong.Lobby) (conn : Pong.handle)
  (hello : option Pong.netbuf) :
  Pong.accept_one l conn hello =
  if Pong.claims1 hello && Pong.is_null (Pong.c_conn (Pong.l_client0 l)) then
    (Pong.mkLobby (Pong.mkClient (Some conn) 1) (Pong.l_client1 l)
       (CInt.wrap (Pong.l_ready l + 1)),
     [Pong.NetWrite conn ("WELCOME 1" ++ CStr.LF)])
  else if Pong.claims2 hello && Pong.is_null (Pong.c_conn (Pong.l_client1 l))
  then
    (Pong.mkLobby (Pong.l_client0 l) (Pong.mkClient (Some conn) 2)
       (CInt.wrap (Pong.l_ready l + 1)),
     [Pong.NetWrite conn ("WELCOME 2" ++ CStr.LF)])
  else (l, [Pong.NetClose conn; Pong.NetDelete conn]).
Proof.
  unfold Pong.accept_one, Pong.claims1, Pong.claims2.
  pose proof (strncmp_prefix "HELLO:1" eq_refl (Pong.hello_buf hello)) as P1.
  pose proof (strncmp_prefix "HELLO:2" eq_refl (Pong.hello_buf hello)) as P2.
  cbn [String.length] in P1, P2. rewrite P1, P2. reflexivity.
Qed.

Lemma accept_loop_step (l : Pong.Lobby) (conn : Pong.handle)
  (hello : option Pong.netbuf) (evs : list Pong.accept_event) :
  Pong.l_ready l < 2 ->
  Pong.accept_loop l (Pong.Accepted conn hello :: evs) =
  let '(l1, out1) := Pong.accept_one l conn hello in
  let '(l2, out2, rest) := Pong.accept_loop l1 evs in
  (l2, out1 ++ out2, rest).
Proof.
  intros Hr. apply Z.ltb_lt in Hr. cbn [Pong.accept_loop]. rewrite Hr.
  reflexivity.
Qed.

Lemma accept_one_cases (l : Pong.Lobby) (conn : Pong.handle)
  (hello : option Pong.netbuf) :
  let buf := Pong.hello_buf hello in
  (String.prefix "HELLO:1" buf = true /\ Pong.c_conn (Pong.l_client0 l) = None
   /\ Pong.accept_one l conn hello =
      (Pong.mkLobby (Pong.mkClient (Some conn) 1) (Pong.l_client1 l)
                    (CInt.wrap (Pong.l_ready l + 1)),
       [Pong.NetWrite conn ("WELCOME 1" ++ CStr.LF)]))
  \/ (String.prefix "HELLO:2" buf = true /\ Pong.c_conn (Pong.l_client1 l) = None
      /\ Pong.accept_one l conn hello =
         (Pong.mkLobby (Pong.l_client0 l) (Pong.mkClient (Some conn) 2)
                       (CInt.wrap (Pong.l_ready l + 1)),
          [Pong.NetWrite conn ("WELCOME 2" ++ CStr.LF)]))
  \/ ((String.prefix "HELLO:1" buf = false
       \/ exists h, Pong.c_conn (Pong.l_client0 l) = Some h)
      /\ (String.prefix "HELLO:2" buf = false
          \/ exists h, Pong.c_conn (Pong.l_client1 l) = Some h)
      /\ Pong.accept_one l conn hello =
         (l, [Pong.NetClose conn; Pong.NetDelete conn])).
Proof.
  intros buf. rewrite accept_one_eq. unfold Pong.claims1, Pong.claims2.
  fold buf.
  destruct (String.prefix "HELLO:1" buf) eqn:E1;
    destruct (Pong.c_conn (Pong.l_client0 l)) as [h0|] eqn:C0;
    cbn [Pong.is_null andb];
    try (left; repeat split; reflexivity);
    right;
    (destruct (String.prefix "HELLO:2" buf) eqn:E2;
     destruct (Pong.c_conn (Pong.l_client1 l)) as [h1|] eqn:C1;
     cbn [Pong.is_null andb];
     [ right | left | right | right ]);
    repeat split; eauto.
Qed.

(** The lobby counts the slots it has filled, and slot [k] holds player
    [k + 1]. *)
Lemma accept_loop_inv (evs : list Pong.accept_event) :
  forall l out rest l',
    Pong.accept_loop l evs = (l', out, rest) ->
    (Pong.l_client0 l = Pong.no_client
     \/ exists h, Pong.l_client0 l = Pong.mkClient (Some h) 1) ->
    (Pong.l_client1 l = Pong.no_client
     \/ exists h, Pong.l_client1 l = Pong.mkClient (Some h) 2) ->
    Pong.l_ready l =
      (if Pong.is_null (Pong.c_conn (Pong.l_client0 l)) then 0 else 1)
      + (if Pong.is_null (Pong.c_conn (Pong.l_client1 l)) then 0 else 1) ->
    (Pong.l_client0 l' = Pong.no_client
     \/ exists h, Pong.l_client0 l' = Pong.mkClient (Some h) 1)
    /\ (Pong.l_client1 l' = Pong.no_client
        \/ exists h, Pong.l_client1 l' = Pong.mkClient (Some h) 2)
    /\ Pong.l_ready l' =
       (if Pong.is_null (Pong.c_conn (Pong.l_client0 l')) then 0 else 1)
       + (if Pong.is_null (Pong.c_conn (Pong.l_client1 l')) then 0 else 1).
Proof.
  induction evs as [|ev evs IH]; intros l out rest l' H H0 H1 Hr.
  - cbn [Pong.accept_loop] in H.
    destruct (Pong.l_ready l <? 2); injection H as <- _ _; auto.
  - cbn [Pong.accept_loop] in H.
    destruct (Pong.l_ready l <? 2) eqn:Er.
    2:{ injection H as <- _ _; auto. }
    destruct ev as [|conn hello]; [eapply IH; eauto|].
    destruct (Pong.accept_one l conn hello) as [l1 out1] eqn:E1.
    destruct (Pong.accept_loop l1 evs) as [[l2 out2] rest2] eqn:E2.
    injection H as <- _ _.
    eapply IH; [exact E2| | | ];
      destruct (accept_one_cases l conn hello)
        as [(_ & C & E)|[(_ & C & E)|(_ & _ & E)]];
      rewrite E in E1; injection E1 as <- _; cbn [Pong.l_client0 Pong.l_client1
        Pong.l_ready Pong.c_conn Pong.is_null]; eauto.
    + rewrite Hr, C. cbn [Pong.is_null].
      destruct (Pong.is_null (Pong.c_conn (Pong.l_client1 l)));
        reflexivity.
    + rewrite Hr, C. cbn [Pong.is_null].
      destruct (Pong.is_null (Pong.c_conn (Pong.l_client0 l)));
        reflexivity.
Qed.

(** When the accept loop is left with [ready >= 2], both players are there. *)
Lemma accept_loop_both (evs : list Pong.accept_event) (l : Pong.Lobby)
  (out : list Pong.net_action) (rest : list Pong.accept_event) :
  Pong.accept_loop Pong.lobby_init evs = (l, out, rest) ->
  (Pong.l_ready l <? 2) = false ->
  Pong.both_connected (Pong.l_client0 l) (Pong.l_client1 l).
Proof.
  intros H Hr.
  destruct (accept_loop_inv evs _ _ _ _ H) as (H0 & H1 & Hc);
    try (left; reflexivity); try reflexivity.
  apply Z.ltb_ge in Hr. rewrite Hc in Hr.
  destruct H0 as [E0|[h0 E0]]; destruct H1 as [E1|[h1 E1]];
    rewrite E0, E1 in Hr; cbn in Hr; try lia.
  exists h0, h1. auto.
Qed.

(** *** The game loop *)

Lemma handle_client_y (c : Pong.Client) (recv : option Pong.netbuf)
  (p1 p2 : Pong.Player) :
  Pong.p_y (fst (Pong.handle_client c recv (p1, p2))) = Pong.p_y p1
  /\ Pong.p_y (snd (Pong.handle_client c recv (p1, p2))) = Pong.p_y p2.
Proof.
  unfold Pong.handle_client.
  destruct (Pong.c_conn c), recv as [nb|]; auto.
  destruct (Pong.nb_len nb >=? 5); auto.
  destruct (Pong.c_id c =? 1); auto.
Qed.

(** What the walls and the paddles leave alone. *)
Lemma deflect_frame (p1 p2 : Pong.Player) (b : Pong.Ball) :
  let b' := Pong.paddle2_collision p2
              (Pong.paddle1_collision p1 (Pong.bounce_walls b)) in
  Pong.b_x b' = Pong.b_x b /\ Pong.b_y b' = Pong.b_y b
  /\ Pong.b_serve_timer b' = Pong.b_serve_timer b
  /\ Pong.b_speed b' = Pong.b_speed b.
Proof.
  unfold Pong.paddle2_collision, Pong.paddle1_collision, Pong.bounce_walls,
    Pong.flip_dx, Pong.within_paddle.
  repeat match goal with
         | |- context [if ?c then _ else _] => destruct c; cbn
         end; auto.
Qed.

Lemma before_scoring_frame (g : Pong.Game) (recv0 recv1 : option Pong.netbuf) :
  let m := Pong.before_scoring g recv0 recv1 in
  Pong.g_client0 m = Pong.g_client0 g /\ Pong.g_client1 m = Pong.g_client1 g
  /\ Pong.g_score1 m = Pong.g_score1 g /\ Pong.g_score2 m = Pong.g_score2 g
  /\ Pong.g_draws m = Pong.g_draws g
  /\ Pong.in_field (Pong.g_p1 m) /\ Pong.in_field (Pong.g_p2 m)
  /\ Pong.b_x (Pong.g_ball m) = Pong.b_x (Pong.move_ball (Pong.g_ball g))
  /\ Pong.b_y (Pong.g_ball m) = Pong.b_y (Pong.move_ball (Pong.g_ball g))
  /\ Pong.b_serve_timer (Pong.g_ball m)
     = Pong.b_serve_timer (Pong.move_ball (Pong.g_ball g))
  /\ Pong.b_speed (Pong.g_ball m) = Pong.b_speed (Pong.g_ball g).
Proof.
  unfold Pong.before_scoring.
  destruct (Pong.handle_client (Pong.g_client1 g) recv1 _) as [q1 q2].
  cbn [Pong.g_client0 Pong.g_client1 Pong.g_score1 Pong.g_score2 Pong.g_draws
       Pong.g_p1 Pong.g_p2 Pong.g_ball].
  destruct (deflect_frame (Pong.clamp_paddle (Pong.move_paddle q1))
              (Pong.clamp_paddle (Pong.move_paddle q2))
              (Pong.move_ball (Pong.g_ball g))) as (Hx & Hy & Ht & Hs).
  repeat split; auto using clamp_paddle_in_field;
    try apply clamp_paddle_in_field.
  rewrite Hs. unfold Pong.move_ball.
  destruct (Pong.b_serve_timer (Pong.g_ball g) >? 0); reflexivity.
Qed.

(** Right of the field is not left of it. *)
Lemma out_right_not_left (b : Pong.Ball) :
  Pong.out_right b = true -> Pong.out_left b = false.
Proof.
  unfold Pong.out_right, Pong.out_left, F32.ltb, SFltb.
  destruct (Pong.b_x b) as [s|s| |s m e]; cbn; try discriminate;
    destruct s; cbn; try discriminate; reflexivity.
Qed.

(** The three ways through the scoring block. *)
Lemma scoring_cases (m g' : Pong.Game) :
  Pong.scoring sinf cosf m = Some g' ->
  (Pong.out_left (Pong.g_ball m) = true
   /\ exists b rest,
       Pong.reset_ball sinf cosf 1 (Pong.g_draws m) = Some (b, rest)
       /\ g' = Pong.mkGame (Pong.g_client0 m) (Pong.g_client1 m) (Pong.g_p1 m)
                 (Pong.g_p2 m) b (Pong.g_score1 m)
                 (CInt.wrap (Pong.g_score2 m + 1)) rest)
  \/ (Pong.out_left (Pong.g_ball m) = false
      /\ Pong.out_right (Pong.g_ball m) = true
      /\ exists b rest,
          Pong.reset_ball sinf cosf 2 (Pong.g_draws m) = Some (b, rest)
          /\ g' = Pong.mkGame (Pong.g_client0 m) (Pong.g_client1 m)
                    (Pong.g_p1 m) (Pong.g_p2 m) b
                    (CInt.wrap (Pong.g_score1 m + 1)) (Pong.g_score2 m) rest)
  \/ (Pong.out_left (Pong.g_ball m) = false
      /\ Pong.out_right (Pong.g_ball m) = false /\ g' = m).
Proof.
  unfold Pong.scoring.
  destruct (Pong.out_left (Pong.g_ball m)).
  - destruct (Pong.reset_ball sinf cosf 1 (Pong.g_draws m)) as [[b rest]|];
      [|discriminate].
    intros H. injection H as <-. left. split; [reflexivity|]. exists b, rest. auto.
  - destruct (Pong.out_right (Pong.g_ball m)).
    + destruct (Pong.reset_ball sinf cosf 2 (Pong.g_draws m)) as [[b rest]|];
        [|discriminate].
      intros H. injection H as <-. right. left.
      repeat split. exists b, rest. auto.
    + intros H. injection H as <-. right. right. auto.
Qed.

(** The scoring block goes through when a draw to keep is coming. *)
Lemma scoring_total (m : Pong.Game) :
  Exists (Pong.kept sinf) (Pong.g_draws m) ->
  exists g', Pong.scoring sinf cosf m = Some g'.
Proof.
  intros H. unfold Pong.scoring.
  destruct (reset_ball_total 1 _ H) as (b1 & r1 & E1).
  destruct (reset_ball_total 2 _ H) as (b2 & r2 & E2).
  rewrite E1, E2.
  destruct (Pong.out_left _); [eauto|]. destruct (Pong.out_right _); eauto.
Qed.

Lemma reset_ball_waits (serving : Z) (draws : list N) (b : Pong.Ball)
  (rest : list N) :
  Pong.reset_ball sinf cosf serving draws = Some (b, rest) ->
  Pong.waits_at_centre b /\ Pong.b_speed b = Pong.INITIAL_BALL_SPEED
  /\ Pong.b_serve_timer b = Pong.SERVE_TIME
  /\ Pong.b_x b = F32.of_int 40 /\ Pong.b_y b = F32.of_int 12.
Proof.
  intros H. destruct (reset_ball_inv _ _ _ _ H) as (angle & _ & ->).
  unfold Pong.waits_at_centre. cbn. repeat split; try reflexivity; lia.
Qed.

Lemma move_ball_cases (b : Pong.Ball) :
  (0 < Pong.b_serve_timer b
   /\ Pong.move_ball b =
      Pong.mkBall (Pong.b_x b) (Pong.b_y b) (Pong.b_dx b) (Pong.b_dy b)
        (CInt.wrap (Pong.b_serve_timer b - 1)) (Pong.b_speed b))
  \/ (Pong.b_serve_timer b <= 0
      /\ Pong.move_ball b =
         Pong.mkBall (F32.add (Pong.b_x b) (Pong.b_dx b))
           (F32.add (Pong.b_y b) (Pong.b_dy b)) (Pong.b_dx b) (Pong.b_dy b)
           (Pong.b_serve_timer b) (Pong.b_speed b)).
Proof.
  unfold Pong.move_ball.
  destruct (Pong.b_serve_timer b >? 0) eqn:E; rewrite Z.gtb_ltb in E.
  - apply Z.ltb_lt in E. left. auto.
  - apply Z.ltb_ge in E. right. auto.
Qed.

(** The centre of the field is inside it. *)
Lemma centre_inside (b : Pong.Ball) :
  Pong.b_x b = F32.of_int 40 ->
  Pong.out_left b = false /\ Pong.out_right b = false.
Proof.
  unfold Pong.out_left, Pong.out_right. intros ->. split; reflexivity.
Qed.

(** What holds of every state of the game loop. *)
Lemma reachable_inv (g : Pong.Game) :
  Pong.reachable sinf cosf g ->
  Pong.both_connected (Pong.g_client0 g) (Pong.g_client1 g)
  /\ Pong.in_field (Pong.g_p1 g) /\ Pong.in_field (Pong.g_p2 g)
  /\ Pong.waits_at_centre (Pong.g_ball g)
  /\ Pong.b_speed (Pong.g_ball g) = Pong.INITIAL_BALL_SPEED.
Proof.
  induction 1 as [evs l out rest draws g Hl Hr Hi | g recv0 recv1 g' Hg IH Ht].
  - unfold Pong.game_init in Hi.
    destruct (Pong.reset_ball sinf cosf 1 draws) as [[b rest']|] eqn:E;
      [|discriminate].
    injection Hi as <-. cbn.
    destruct (reset_ball_waits _ _ _ _ E) as (Hw & Hs & _).
    split; [eapply accept_loop_both; eauto|].
    split; [unfold Pong.in_field; cbn; lia|].
    split; [unfold Pong.in_field; cbn; lia|].
    split; [exact Hw|exact Hs].
  - destruct IH as (Hc & _ & _ & Hw & Hs).
    unfold Pong.tick in Ht.
    destruct (before_scoring_frame g recv0 recv1)
      as (F0 & F1 & _ & _ & _ & P1 & P2 & Fx & Fy & Ft & Fs).
    destruct (scoring_cases _ _ Ht)
      as [(_ & b & r & E & ->)|[(_ & _ & b & r & E & ->)|(_ & _ & ->)]];
      cbn [Pong.g_client0 Pong.g_client1 Pong.g_p1 Pong.g_p2 Pong.g_ball].
    1,2: destruct (reset_ball_waits _ _ _ _ E) as (Hw' & Hs' & _);
         rewrite F0, F1;
         exact (conj Hc (conj P1 (conj P2 (conj Hw' Hs')))).
    rewrite F0, F1, Fs.
    refine (conj Hc (conj P1 (conj P2 (conj _ Hs)))).
    unfold Pong.waits_at_centre in *. rewrite ?Fx, ?Fy, ?Ft.
    destruct Hw as (Hrange & Hpos).
    destruct (move_ball_cases (Pong.g_ball g)) as [(Hp & ->)|(Hp & ->)];
      cbn [Pong.b_x Pong.b_y Pong.b_serve_timer].
    + rewrite wrap_id
        by (unfold CInt.in_range, CInt.INT_MIN, CInt.INT_MAX,
            Pong.SERVE_TIME, Pong.FPS in *; lia).
      split; [lia|]. intros _. apply Hpos. lia.
    + split; [lia|]. intros; lia.
Qed.


(** Multiplying a [float] by [-1] changes its sign and nothing else. *)
Lemma flip_finite (s : bool) (m : positive) (e : Z) :
  bounded 24 128 m e = true ->
  Pong.flip (S754_finite s m e) = S754_finite (negb s) m e.
Proof.
  unfold bounded, canonical_mantissa. intros H.
  apply andb_prop in H. destruct H as [Hc He].
  apply Z.eqb_eq in Hc. apply Z.leb_le in He.
  unfold Pong.flip, F32.mul, F32.prec, F32.emax.
  change (F32.of_int (-1)) with (S754_finite true 8388608 (-23)).
  cbn [SFmul]. rewrite Pos.mul_comm.
  change (8388608 * m)%positive
    with (m~0~0~0~0~0~0~0~0~0~0~0~0~0~0~0~0~0~0~0~0~0~0~0)%positive.
  unfold binary_round_aux.
  assert (Hd : Zdigits2 (Z.pos m~0~0~0~0~0~0~0~0~0~0~0~0~0~0~0~0~0~0~0~0~0~0~0)
               = Z.pos (digits2_pos m) + 23).
  { cbn [Zdigits2 digits2_pos]. lia. }
  unfold shr_fexp at 1. rewrite Hd.
  replace (Z.pos (digits2_pos m) + 23 + (e + -23))
    with (Z.pos (digits2_pos m) + e) by lia.
  rewrite Hc. replace (e - (e + -23)) with 23 by lia.
  cbn [shr shr_record_of_loc iter_pos shr_1 orb].
  cbn [shr_m loc_of_shr_record round_nearest_even].
  unfold shr_fexp. cbn [Zdigits2].
  replace (e + -23 + 23) with e by lia.
  rewrite Hc, Z.sub_diag. cbn [shr shr_record_of_loc shr_m].
  change (128 - 24) with 104 in *.
  apply Z.leb_le in He. rewrite He. destruct s; reflexivity.
Qed.

Lemma flip_opp (v : spec_float) :
  valid_binary 24 128 v = true -> Pong.flip v = SFopp v.
Proof.
  destruct v as [s|s| |s m e]; intros H; try (destruct s; reflexivity).
  - reflexivity.
  - cbn [valid_binary] in H. rewrite (flip_finite _ _ _ H). reflexivity.
Qed.

Lemma paddle_collision_frame (p : Pong.Player) (b : Pong.Ball) :
  (Pong.paddle1_collision p b = b \/ Pong.paddle1_collision p b = Pong.flip_dx b)
  /\ (Pong.paddle2_collision p b = b
      \/ Pong.paddle2_collision p b = Pong.flip_dx b).
Proof.
  unfold Pong.paddle1_collision, Pong.paddle2_collision.
  split;
    repeat match goal with
           | |- context [if ?c then _ else _] => destruct c
           end; auto.
Qed.

(** A tick goes through when a draw to keep is coming. *)
Lemma tick_total (g : Pong.Game) (recv0 recv1 : option Pong.netbuf) :
  Exists (Pong.kept sinf) (Pong.g_draws g) ->
  exists g', Pong.tick sinf cosf g recv0 recv1 = Some g'.
Proof.
  intros H. apply scoring_total.
  destruct (before_scoring_frame g recv0 recv1) as (_ & _ & _ & _ & -> & _).
  exact H.
Qed.

(** ** The claims about the server *)

(** C4. After the input and paddle steps of any tick each paddle's vertical
    position is in [[0, FIELD_HEIGHT - PADDLE_HEIGHT]], that is [[0, 20]];
    so it is after the whole tick, which returns when a draw that
    [reset_ball] keeps is coming, and in every state of the game loop, the
    first one included. *)
Theorem paddles_stay_in_field :
  Pong.FIELD_HEIGHT - Pong.PADDLE_HEIGHT = 20
  /\ (forall g recv0 recv1,
        Pong.in_field (Pong.g_p1 (Pong.before_scoring g recv0 recv1))
        /\ Pong.in_field (Pong.g_p2 (Pong.before_scoring g recv0 recv1)))
  /\ (forall g recv0 recv1,
        Exists (Pong.kept sinf) (Pong.g_draws g) ->
        exists g',
          Pong.tick sinf cosf g recv0 recv1 = Some g'
          /\ Pong.in_field (Pong.g_p1 g') /\ Pong.in_field (Pong.g_p2 g'))
  /\ (forall g recv0 recv1 g',
        Pong.tick sinf cosf g recv0 recv1 = Some g' ->
        Pong.in_field (Pong.g_p1 g') /\ Pong.in_field (Pong.g_p2 g'))
  /\ (forall g,
        Pong.reachable sinf cosf g ->
        Pong.in_field (Pong.g_p1 g) /\ Pong.in_field (Pong.g_p2 g)).
Proof.
  assert (Htick : forall g recv0 recv1 g',
            Pong.tick sinf cosf g recv0 recv1 = Some g' ->
            Pong.in_field (Pong.g_p1 g') /\ Pong.in_field (Pong.g_p2 g')).
  { intros g recv0 recv1 g' Ht. unfold Pong.tick in Ht.
    destruct (before_scoring_frame g recv0 recv1)
      as (_ & _ & _ & _ & _ & P1 & P2 & _).
    destruct (scoring_cases _ _ Ht)
      as [(_ & b & r & _ & ->)|[(_ & _ & b & r & _ & ->)|(_ & _ & ->)]];
      auto. }
  split; [reflexivity|]. split; [|split; [|split]].
  - intros g recv0 recv1.
    destruct (before_scoring_frame g recv0 recv1)
      as (_ & _ & _ & _ & _ & P1 & P2 & _). auto.
  - intros g recv0 recv1 Hd.
    destruct (tick_total g recv0 recv1 Hd) as (g' & Ht).
    exists g'. split; [exact Ht|]. exact (Htick _ _ _ _ Ht).
  - exact Htick.
  - intros g Hg. destruct (reachable_inv g Hg) as (_ & P1 & P2 & _). auto.
Qed.

(** C9. In a state of the game loop the serve countdown is never negative.
    A tick that starts with a positive countdown takes one off it and leaves
    the ball where it is. A tick that starts with the countdown at zero adds
    the velocity to the position; the ball is at that position after the tick
    unless it left the field there, in which case it was reset (the tick
    returns when a draw that [reset_ball] keeps is coming). From one tick
    to the next the countdown does not grow, or it is [SERVE_TIME]. *)
Theorem serve_countdown (g : Pong.Game) (recv0 recv1 : option Pong.netbuf) :
  Pong.reachable sinf cosf g ->
  let b := Pong.g_ball g in
  0 <= Pong.b_serve_timer b
  /\ (0 < Pong.b_serve_timer b ->
      exists g',
        Pong.tick sinf cosf g recv0 recv1 = Some g'
        /\ Pong.b_serve_timer (Pong.g_ball g') = Pong.b_serve_timer b - 1
        /\ Pong.b_x (Pong.g_ball g') = Pong.b_x b
        /\ Pong.b_y (Pong.g_ball g') = Pong.b_y b)
  /\ (Pong.b_serve_timer b = 0 ->
      Pong.b_x (Pong.move_ball b) = F32.add (Pong.b_x b) (Pong.b_dx b)
      /\ Pong.b_y (Pong.move_ball b) = F32.add (Pong.b_y b) (Pong.b_dy b)
      /\ (Exists (Pong.kept sinf) (Pong.g_draws g) ->
          exists g', Pong.tick sinf cosf g recv0 recv1 = Some g')
      /\ forall g',
          Pong.tick sinf cosf g recv0 recv1 = Some g' ->
          (Pong.b_x (Pong.g_ball g') = F32.add (Pong.b_x b) (Pong.b_dx b)
           /\ Pong.b_y (Pong.g_ball g') = F32.add (Pong.b_y b) (Pong.b_dy b)
           /\ Pong.b_serve_timer (Pong.g_ball g') = 0)
          \/ (Pong.out_left (Pong.move_ball b)
              || Pong.out_right (Pong.move_ball b) = true
              /\ Pong.b_serve_timer (Pong.g_ball g') = Pong.SERVE_TIME
              /\ Pong.b_x (Pong.g_ball g') = F32.of_int 40
              /\ Pong.b_y (Pong.g_ball g') = F32.of_int 12))
  /\ (forall g',
        Pong.tick sinf cosf g recv0 recv1 = Some g' ->
        Pong.b_serve_timer (Pong.g_ball g') <= Pong.b_serve_timer b
        \/ Pong.b_serve_timer (Pong.g_ball g') = Pong.SERVE_TIME).
Proof.
  intros Hg b.
  destruct (reachable_inv g Hg) as (_ & _ & _ & (Hrange & Hpos) & _).
  fold b in Hrange, Hpos.
  destruct (before_scoring_frame g recv0 recv1)
    as (_ & _ & _ & _ & _ & _ & _ & Fx & Fy & Ft & _).
  fold b in Fx, Fy, Ft.
  assert (Hwrap : CInt.wrap (Pong.b_serve_timer b - 1) = Pong.b_serve_timer b - 1
                  \/ Pong.b_serve_timer b <= 0).
  { destruct (Z_lt_le_dec 0 (Pong.b_serve_timer b)); [left|right; lia].
    apply wrap_id.
    unfold CInt.in_range, CInt.INT_MIN, CInt.INT_MAX, Pong.SERVE_TIME,
      Pong.FPS in *. lia. }
  split; [lia|]. split; [|split].
  - intros Hp. destruct Hwrap as [Hwrap|]; [|lia].
    destruct (Hpos Hp) as (Hx & Hy).
    destruct (move_ball_cases b) as [(_ & Hm)|(Hn & _)]; [|lia].
    rewrite Hm in Fx, Fy, Ft. cbn in Fx, Fy, Ft.
    assert (Hin : Pong.b_x (Pong.g_ball (Pong.before_scoring g recv0 recv1))
                  = F32.of_int 40) by congruence.
    destruct (centre_inside _ Hin) as (Hl & Hr).
    exists (Pong.before_scoring g recv0 recv1).
    unfold Pong.tick, Pong.scoring. rewrite Hl, Hr.
    repeat split; congruence.
  - intros Hz.
    destruct (move_ball_cases b) as [(Hp & _)|(_ & Hm)]; [lia|].
    rewrite Hm. cbn [Pong.b_x Pong.b_y]. split; [reflexivity|].
    split; [reflexivity|]. split; [apply tick_total|].
    intros g' Ht. unfold Pong.tick in Ht.
    rewrite Hm in Fx, Fy, Ft. cbn in Fx, Fy, Ft.
    fold (Pong.move_ball b). 
    assert (Hol : Pong.out_left (Pong.g_ball (Pong.before_scoring g recv0 recv1))
                  = Pong.out_left (Pong.move_ball b)).
    { unfold Pong.out_left. rewrite Fx, Hm. reflexivity. }
    assert (Hor : Pong.out_right (Pong.g_ball (Pong.before_scoring g recv0 recv1))
                  = Pong.out_right (Pong.move_ball b)).
    { unfold Pong.out_right. rewrite Fx, Hm. reflexivity. }
    rewrite <- Hm.
    destruct (scoring_cases _ _ Ht)
      as [(Hl & b1 & r & E & ->)|[(Hl & Hr & b1 & r & E & ->)|(_ & _ & ->)]].
    + right. rewrite <- Hol, Hl. split; [reflexivity|].
      destruct (reset_ball_waits _ _ _ _ E) as (_ & _ & T & X & Y). auto.
    + right. rewrite <- Hor, Hr, orb_true_r. split; [reflexivity|].
      destruct (reset_ball_waits _ _ _ _ E) as (_ & _ & T & X & Y). auto.
    + left. repeat split; congruence.
  - intros g' Ht. unfold Pong.tick in Ht.
    destruct (scoring_cases _ _ Ht)
      as [(Hl & b1 & r & E & ->)|[(Hl & Hr & b1 & r & E & ->)|(_ & _ & ->)]].
    1,2: right; apply (reset_ball_waits _ _ _ _ E).
    left. rewrite Ft.
    destruct (move_ball_cases b) as [(Hp & ->)|(_ & ->)]; cbn; [|lia].
    destruct Hwrap as [->|]; lia.
Qed.


(** C3. A tick whose ball has left the field on one side when the scoring
    block is reached adds exactly one to exactly one score: to player 2's
    when the ball is left of the field, and player 1 serves next, to player
    1's when it is right of it, and player 2 serves next. No tick lowers a
    score. With the ball at [x = 81] player 1's score grows by one and the
    ball is put back at [(40, 12)] with the countdown at [SERVE_TIME = 180].
    The scores are taken below [INT_MAX], and a draw that [reset_ball] keeps
    has to come. *)
Theorem score_once_per_exit (g : Pong.Game) (recv0 recv1 : option Pong.netbuf) :
  Pong.scores_in_range g ->
  Exists (Pong.kept sinf) (Pong.g_draws g) ->
  let m := Pong.before_scoring g recv0 recv1 in
  exists g',
    Pong.tick sinf cosf g recv0 recv1 = Some g'
    /\ (Pong.out_left (Pong.g_ball m) = true ->
        Pong.g_score2 g' = Pong.g_score2 g + 1
        /\ Pong.g_score1 g' = Pong.g_score1 g
        /\ Pong.reset_ball sinf cosf 1 (Pong.g_draws g)
           = Some (Pong.g_ball g', Pong.g_draws g'))
    /\ (Pong.out_right (Pong.g_ball m) = true ->
        Pong.g_score1 g' = Pong.g_score1 g + 1
        /\ Pong.g_score2 g' = Pong.g_score2 g
        /\ Pong.reset_ball sinf cosf 2 (Pong.g_draws g)
           = Some (Pong.g_ball g', Pong.g_draws g'))
    /\ (Pong.out_left (Pong.g_ball m) = false ->
        Pong.out_right (Pong.g_ball m) = false ->
        g' = m
        /\ Pong.g_score1 g' = Pong.g_score1 g
        /\ Pong.g_score2 g' = Pong.g_score2 g)
    /\ Pong.g_score1 g <= Pong.g_score1 g'
    /\ Pong.g_score2 g <= Pong.g_score2 g'
    /\ (Pong.b_x (Pong.g_ball m) = F32.of_int 81 ->
        Pong.FIELD_WIDTH = 80
        /\ Pong.g_score1 g' = Pong.g_score1 g + 1
        /\ Pong.g_score2 g' = Pong.g_score2 g
        /\ Pong.b_x (Pong.g_ball g') = F32.of_int 40
        /\ Pong.b_y (Pong.g_ball g') = F32.of_int 12
        /\ Pong.b_serve_timer (Pong.g_ball g') = Pong.SERVE_TIME
        /\ Pong.SERVE_TIME = 180).
Proof.
  intros Hs Hd m.
  destruct (before_scoring_frame g recv0 recv1)
    as (_ & _ & F1 & F2 & Fd & _). fold m in F1, F2, Fd.
  assert (Hd' : Exists (Pong.kept sinf) (Pong.g_draws m)) by (rewrite Fd; exact Hd).
  destruct (scoring_total m Hd') as (g' & Ht).
  exists g'. split; [exact Ht|].
  destruct Hs as (H1 & H2).
  assert (W1 : CInt.wrap (Pong.g_score1 m + 1) = Pong.g_score1 g + 1).
  { rewrite F1. apply wrap_id. unfold CInt.in_range. lia. }
  assert (W2 : CInt.wrap (Pong.g_score2 m + 1) = Pong.g_score2 g + 1).
  { rewrite F2. apply wrap_id. unfold CInt.in_range. lia. }
  assert (H81 : Pong.b_x (Pong.g_ball m) = F32.of_int 81 ->
                Pong.out_left (Pong.g_ball m) = false
                /\ Pong.out_right (Pong.g_ball m) = true).
  { unfold Pong.out_left, Pong.out_right. intros ->. split; reflexivity. }
  assert (Hlr : Pong.out_right (Pong.g_ball m) = true ->
                Pong.out_left (Pong.g_ball m) = false)
    by apply out_right_not_left.
  destruct (scoring_cases _ _ Ht)
    as [(Hl & b1 & r & E & ->)|[(Hl & Hr & b1 & r & E & ->)|(Hl & Hr & ->)]];
    cbn [Pong.g_score1 Pong.g_score2 Pong.g_ball Pong.g_draws];
    rewrite ?W1, ?W2, ?F1, ?F2; try rewrite Fd in E;
    try (destruct (reset_ball_waits _ _ _ _ E) as (_ & _ & T & X & Y));
    repeat match goal with
           | |- _ /\ _ => split
           | |- _ -> _ => intros ?
           end;
    try match goal with
        | H : Pong.b_x (Pong.g_ball m) = F32.of_int 81 |- _ =>
            destruct (H81 H)
        end;
    try (specialize (Hlr ltac:(assumption)));
    try congruence; try lia; try reflexivity; auto.
Qed.

(** C7. In every state of the game loop the ball's speed is the initial
    speed, hence in [[INITIAL_BALL_SPEED, MAX_BALL_SPEED]] = [[0.5, 1.2]]. A
    paddle collision leaves the ball as it is or multiplies [dx] by [-1],
    which for a [float] is a change of sign; the speed, the position, [dy]
    and the countdown are not touched. *)
Theorem speed_within_bounds :
  (forall g,
     Pong.reachable sinf cosf g ->
     Pong.b_speed (Pong.g_ball g) = Pong.INITIAL_BALL_SPEED
     /\ F32.leb Pong.INITIAL_BALL_SPEED (Pong.b_speed (Pong.g_ball g)) = true
     /\ F32.leb (Pong.b_speed (Pong.g_ball g)) Pong.MAX_BALL_SPEED = true)
  /\ (forall p b b',
        b' = Pong.paddle1_collision p b \/ b' = Pong.paddle2_collision p b ->
        Pong.b_speed b' = Pong.b_speed b
        /\ Pong.b_x b' = Pong.b_x b /\ Pong.b_y b' = Pong.b_y b
        /\ Pong.b_dy b' = Pong.b_dy b
        /\ Pong.b_serve_timer b' = Pong.b_serve_timer b
        /\ (Pong.b_dx b' = Pong.b_dx b
            \/ Pong.b_dx b' = F32.mul (Pong.b_dx b) (F32.of_int (-1))))
  /\ (forall v,
        valid_binary 24 128 v = true ->
        F32.mul v (F32.of_int (-1)) = SFopp v
        /\ F32.fabsf (F32.mul v (F32.of_int (-1))) = F32.fabsf v)
  /\ F32.of_int (-1) = F32.lit true 1 1
  /\ Pong.INITIAL_BALL_SPEED = F32.lit false 1 2
  /\ Pong.MAX_BALL_SPEED = F32.lit false 12 10.
Proof.
  split; [|split; [|split]].
  - intros g Hg. destruct (reachable_inv g Hg) as (_ & _ & _ & _ & Hs).
    rewrite Hs. repeat split; reflexivity.
  - intros p b b' Hb.
    destruct (paddle_collision_frame p b) as ([E1|E1] & [E2|E2]);
      destruct Hb as [->| ->]; rewrite ?E1, ?E2; cbn;
      repeat split; auto.
  - intros v Hv. fold (Pong.flip v). rewrite (flip_opp v Hv).
    split; [reflexivity|]. destruct v; reflexivity.
  - repeat split; reflexivity.
Qed.

(** C5. When a draw to keep is coming, [reset_ball] returns. The ball is at
    the centre [(40, 12)] of the field, its speed is the initial speed and the
    countdown is [SERVE_TIME = 180]. The angle comes from the first draw [r]
    that is not rejected, the draws before it having been rejected for
    [fabsf(sinf(angle)) < 0.3f]; it is a finite number whose magnitude is at
    most 30 degrees ([M_PI / 6] as a [float]), and [0.3f <= fabsf(sinf(angle))]
    provided [sinf] is not a NaN there. The velocity is
    [dir * speed * cosf(angle)] by [speed * sinf(angle)], [dir] being [1.0f]
    for player 1 and [-1.0f] otherwise. *)
Theorem reset_ball_serves (serving : Z) (draws : list N) :
  Exists (Pong.kept sinf) draws ->
  exists b rest pre r,
    Pong.reset_ball sinf cosf serving draws = Some (b, rest)
    /\ draws = pre ++ r :: rest
    /\ Forall (fun r' => F32.ltb (F32.fabsf (sinf (Pong.serve_angle r')))
                              (F32.lit false 3 10) = true) pre
    /\ let angle := Pong.serve_angle r in
       F32.ltb (F32.fabsf (sinf angle)) (F32.lit false 3 10) = false
       /\ (F32.is_nan (sinf angle) = false ->
           F32.leb (F32.lit false 3 10) (F32.fabsf (sinf angle)) = true)
       /\ F32.is_finite angle = true
       /\ F32.leb (F32.fabsf angle) Pong.thirty_degrees = true
       /\ Pong.b_x b = F32.of_int (Z.quot Pong.FIELD_WIDTH 2)
       /\ Pong.b_y b = F32.of_int (Z.quot Pong.FIELD_HEIGHT 2)
       /\ Pong.b_x b = F32.of_int 40 /\ Pong.b_y b = F32.of_int 12
       /\ Pong.b_speed b = Pong.INITIAL_BALL_SPEED
       /\ Pong.b_dx b
          = F32.mul (F32.mul (if serving =? 1 then F32.lit false 1 1
                              else F32.lit true 1 1)
                             Pong.INITIAL_BALL_SPEED)
                    (cosf angle)
       /\ Pong.b_dy b = F32.mul Pong.INITIAL_BALL_SPEED (sinf angle)
       /\ Pong.b_serve_timer b = Pong.SERVE_TIME
       /\ Pong.SERVE_TIME = 180.
Proof.
  intros Hd.
  destruct (reset_ball_total serving draws Hd) as (b & rest & E).
  destruct (reset_ball_inv _ _ _ _ E) as (angle & Ea & ->).
  destruct (draw_angle_inv _ _ _ Ea) as (pre & r & -> & -> & Hk & Hpre).
  eexists; exists rest, pre, r. split; [exact E|]. split; [reflexivity|].
  split; [exact Hpre|].
  destruct (serve_angle_bounded r) as (Hf & Hb).
  cbn zeta. split; [exact Hk|]. split.
  { intros Hn. apply not_ltb_leb; [|reflexivity|exact Hk].
    destruct (sinf (Pong.serve_angle r)); auto. }
  repeat split; auto.
Qed.


(** C6, as the code has it. While a slot is empty the server takes the next
    connection and reads its claim. A message whose first seven bytes are
    [HELLO:1], with slot 0 empty, or [HELLO:2], with slot 1 empty, binds the
    connection to the slot and is answered [WELCOME 1] or [WELCOME 2],
    whatever follows the seven bytes; with any other message, or none, or
    with the slot taken, the connection is closed and deleted and the lobby
    is as before. In all three cases the loop goes on with the next
    connection, and it ends once both slots are filled. Of two [HELLO:1]
    followed by a [HELLO:2], the first and the third are accepted and the
    second is closed. The claims of the specification, the lines [HELLO:1]
    and [HELLO:2], pass the tests. *)
Theorem handshake_fills_free_slots :
  (forall l conn hello evs,
     Pong.l_ready l < 2 ->
     exists l1 out1,
       (forall l2 out2 rest,
          Pong.accept_loop l1 evs = (l2, out2, rest) ->
          Pong.accept_loop l (Pong.Accepted conn hello :: evs)
          = (l2, out1 ++ out2, rest))
       /\ ((Pong.claims1 hello = true
            /\ Pong.c_conn (Pong.l_client0 l) = None
            /\ l1 = Pong.mkLobby (Pong.mkClient (Some conn) 1) (Pong.l_client1 l)
                      (CInt.wrap (Pong.l_ready l + 1))
            /\ out1 = [Pong.NetWrite conn ("WELCOME 1" ++ CStr.LF)])
           \/ (Pong.claims2 hello = true
               /\ Pong.c_conn (Pong.l_client1 l) = None
               /\ l1 = Pong.mkLobby (Pong.l_client0 l)
                         (Pong.mkClient (Some conn) 2)
                         (CInt.wrap (Pong.l_ready l + 1))
               /\ out1 = [Pong.NetWrite conn ("WELCOME 2" ++ CStr.LF)])
           \/ ((Pong.claims1 hello = false
                \/ exists h, Pong.c_conn (Pong.l_client0 l) = Some h)
               /\ (Pong.claims2 hello = false
                   \/ exists h, Pong.c_conn (Pong.l_client1 l) = Some h)
               /\ l1 = l
               /\ out1 = [Pong.NetClose conn; Pong.NetDelete conn])))
  /\ (forall l evs,
        2 <= Pong.l_ready l -> Pong.accept_loop l evs = (l, [], evs))
  /\ (forall evs l out rest,
        Pong.accept_loop Pong.lobby_init evs = (l, out, rest) ->
        2 <= Pong.l_ready l ->
        Pong.both_connected (Pong.l_client0 l) (Pong.l_client1 l))
  /\ (forall c1 c2 c3 h1 h2 h3 evs,
        Pong.claims1 h1 = true -> Pong.claims1 h2 = true ->
        Pong.claims2 h3 = true ->
        Pong.accept_loop Pong.lobby_init
          (Pong.Accepted c1 h1 :: Pong.Accepted c2 h2
           :: Pong.Accepted c3 h3 :: evs)
        = (Pong.mkLobby (Pong.mkClient (Some c1) 1)
             (Pong.mkClient (Some c3) 2) 2,
           [Pong.NetWrite c1 ("WELCOME 1" ++ CStr.LF);
            Pong.NetClose c2; Pong.NetDelete c2;
            Pong.NetWrite c3 ("WELCOME 2" ++ CStr.LF)],
           evs))
  /\ (forall hello,
        (Pong.claims1 hello = true
         <-> exists nb rest,
             hello = Some nb
             /\ Pong.nb_data nb = ("HELLO:1" ++ rest)%string)
        /\ (Pong.claims2 hello = true
            <-> exists nb rest,
                hello = Some nb
                /\ Pong.nb_data nb = ("HELLO:2" ++ rest)%string))
  /\ (forall hello,
        (Pong.spec_named_slot hello = Some 1 -> Pong.claims1 hello = true)
        /\ (Pong.spec_named_slot hello = Some 2 ->
            Pong.claims2 hello = true)).
Proof.
  split; [|split; [|split; [|split; [|split]]]];
    [| | | |exact claims_begin|exact named_slot_claims].
  - intros l conn hello evs Hr.
    destruct (Pong.accept_one l conn hello) as [l1 out1] eqn:E1.
    exists l1, out1. split.
    + intros l2 out2 rest E2. cbn [Pong.accept_loop].
      apply Z.ltb_lt in Hr. rewrite Hr, E1, E2. reflexivity.
    + unfold Pong.claims1, Pong.claims2.
      destruct (accept_one_cases l conn hello)
        as [(P & C & E)|[(P & C & E)|(P & C & E)]];
        rewrite E in E1; injection E1 as <- <-; auto 10.
  - intros l evs Hr. apply Z.ltb_ge in Hr.
    destruct evs; cbn [Pong.accept_loop]; rewrite Hr; reflexivity.
  - intros evs l out rest H Hr. eapply accept_loop_both; eauto.
    apply Z.ltb_ge. exact Hr.
  - intros c1 c2 c3 h1 h2 h3 evs H1 H2 H3.
    unfold Pong.claims1, Pong.claims2 in *.
    assert (D : forall s, String.prefix "HELLO:1" s = true ->
                          String.prefix "HELLO:2" s = false).
    { intros s H. destruct (String.prefix "HELLO:2" s) eqn:E; [|reflexivity].
      apply prefix_correct in H. apply prefix_correct in E.
      cbn [String.length] in H, E. rewrite H in E. discriminate. }
    rewrite accept_loop_step, accept_one_eq by (cbn; lia).
    unfold Pong.claims1, Pong.claims2. rewrite H1.
    cbn [andb Pong.is_null Pong.c_conn Pong.l_client0 Pong.l_client1
         Pong.lobby_init Pong.no_client Pong.l_ready].
    change (CInt.wrap (0 + 1)) with 1.
    rewrite accept_loop_step, accept_one_eq by (cbn; lia).
    unfold Pong.claims1, Pong.claims2. rewrite H2, (D _ H2).
    cbn [andb Pong.is_null Pong.c_conn Pong.l_client0 Pong.l_client1
         Pong.lobby_init Pong.no_client Pong.l_ready].
    rewrite accept_loop_step, accept_one_eq by (cbn; lia).
    unfold Pong.claims1, Pong.claims2. rewrite H3.
    cbn [andb Pong.is_null Pong.c_conn Pong.l_client0 Pong.l_client1
         Pong.lobby_init Pong.no_client Pong.l_ready].
    rewrite ?andb_false_r.
    change (CInt.wrap (1 + 1)) with 2.
    destruct evs; reflexivity.
Qed.


Lemma parse_input_line_eq (line : string) :
  Pong.parse_input_line line =
  if String.prefix "INPUT:UP" line then Pong.UP
  else if String.prefix "INPUT:DOWN" line then Pong.DOWN
  else Pong.NONE.
Proof.
  unfold Pong.parse_input_line.
  pose proof (strncmp_prefix "INPUT:UP" eq_refl line) as P1.
  pose proof (strncmp_prefix "INPUT:DOWN" eq_refl line) as P2.
  cbn [String.length] in P1, P2. rewrite P1, P2. reflexivity.
Qed.

Lemma handle_clients_inputs (h0 h1 : Pong.handle)
  (recv0 recv1 : option Pong.netbuf) (p1 p2 : Pong.Player) :
  Pong.handle_client (Pong.mkClient (Some h1) 2) recv1
    (Pong.handle_client (Pong.mkClient (Some h0) 1) recv0 (p1, p2))
  = (Pong.mkPlayer (Pong.p_y p1) (Pong.command_after (Pong.p_input p1) recv0),
     Pong.mkPlayer (Pong.p_y p2) (Pong.command_after (Pong.p_input p2) recv1)).
Proof.
  unfold Pong.handle_client, Pong.command_after.
  cbn [Pong.c_conn Pong.c_id].
  destruct recv0 as [nb0|], recv1 as [nb1|];
    rewrite ?Z.geb_leb, ?parse_input_line_eq;
    repeat match goal with
           | |- context [5 <=? ?n] => destruct (5 <=? n)
           end;
    cbn; destruct p1, p2; reflexivity.
Qed.

(** C2, as the code has it. A message of five bytes or more read for a player
    in a tick always overwrites that player's command, with what [strncmp]
    finds at [data]: the message followed by what is after it in memory.
    Hence [UP] when the message starts with [INPUT:UP], [DOWN] when it starts
    with [INPUT:DOWN], and [NONE] for any other message that is not itself
    the beginning of one of the two, [INPUT:IDLE] included; a message that is
    only such a beginning is completed by the bytes after it, so that
    [INPUT] followed by [:UP] in memory is [UP]. The command is kept when
    nothing is read or the message is shorter than five bytes. *)
Theorem command_overwritten_by_message (g : Pong.Game)
  (recv0 recv1 : option Pong.netbuf) :
  Pong.reachable sinf cosf g ->
  let m := Pong.before_scoring g recv0 recv1 in
  Pong.p_input (Pong.g_p1 m)
  = Pong.command_after (Pong.p_input (Pong.g_p1 g)) recv0
  /\ Pong.p_input (Pong.g_p2 m)
     = Pong.command_after (Pong.p_input (Pong.g_p2 g)) recv1
  /\ (forall g',
        Pong.tick sinf cosf g recv0 recv1 = Some g' ->
        Pong.p_input (Pong.g_p1 g')
        = Pong.command_after (Pong.p_input (Pong.g_p1 g)) recv0
        /\ Pong.p_input (Pong.g_p2 g')
           = Pong.command_after (Pong.p_input (Pong.g_p2 g)) recv1)
  /\ (forall old data after,
        5 <= Z.of_nat (String.length data) ->
        let cmd := Pong.command_after old (Some (Pong.mkNetbuf data after)) in
        cmd = (if String.prefix "INPUT:UP" (data ++ after) then Pong.UP
               else if String.prefix "INPUT:DOWN" (data ++ after)
                    then Pong.DOWN
                    else Pong.NONE)
        /\ (String.prefix "INPUT:UP" data = true -> cmd = Pong.UP)
        /\ (String.prefix "INPUT:DOWN" data = true -> cmd = Pong.DOWN)
        /\ (String.prefix "INPUT:UP" data = false ->
            String.prefix "INPUT:DOWN" data = false ->
            String.prefix data "INPUT:UP" = false ->
            String.prefix data "INPUT:DOWN" = false -> cmd = Pong.NONE))
  /\ (forall old data after,
        Z.of_nat (String.length data) < 5 ->
        Pong.command_after old (Some (Pong.mkNetbuf data after)) = old)
  /\ (forall old, Pong.command_after old None = old)
  /\ (forall old,
        Pong.command_after old (Some (Pong.mkNetbuf "INPUT" ":UP")) = Pong.UP
        /\ Pong.command_after old (Some (Pong.mkNetbuf "INPUT" ""))
           = Pong.NONE).
Proof.
  intros Hg m.
  destruct (reachable_inv g Hg) as ((h0 & h1 & E0 & E1) & _).
  assert (Hm : Pong.p_input (Pong.g_p1 m)
               = Pong.command_after (Pong.p_input (Pong.g_p1 g)) recv0
               /\ Pong.p_input (Pong.g_p2 m)
                  = Pong.command_after (Pong.p_input (Pong.g_p2 g)) recv1).
  { unfold m, Pong.before_scoring. rewrite E0, E1, handle_clients_inputs.
    cbn [Pong.g_p1 Pong.g_p2].
    rewrite !clamp_paddle_input, !move_paddle_input. cbn. auto. }
  destruct Hm as (M1 & M2). split; [exact M1|]. split; [exact M2|].
  split; [|split; [|split; [|split]]].
  - intros g' Ht. unfold Pong.tick in Ht. fold m in Ht.
    destruct (scoring_cases _ _ Ht)
      as [(_ & b & r & _ & ->)|[(_ & _ & b & r & _ & ->)|(_ & _ & ->)]];
      auto.
  - intros old data after H. exact (command_of_message old data after H).
  - intros old data after H.
    unfold Pong.command_after, Pong.nb_len. cbn [Pong.nb_data].
    assert (E : (5 <=? Z.of_nat (String.length data)) = false)
      by (apply Z.leb_gt; exact H).
    rewrite E. reflexivity.
  - reflexivity.
  - intros old. split; reflexivity.
Qed.


End ServerFacts.

(** ** Formatted output read back *)

Lemma code_digit_char (d : Z) :
  0 <= d < 10 -> CStr.code (Stdio.digit_char d) = 48 + d.
Proof.
  intros H. unfold CStr.code, Stdio.digit_char.
  rewrite N_ascii_embedding; [lia|].
  change 256%N with (Z.to_N 256). apply Z2N.inj_lt; lia.
Qed.

Lemma digit_char_is_digit (d : Z) :
  0 <= d < 10 -> Stdio.is_digit (Stdio.digit_char d) = true.
Proof.
  intros H. unfold Stdio.is_digit. rewrite code_digit_char by exact H.
  apply andb_true_intro. split; apply Z.leb_le; lia.
Qed.

Lemma digit_val_digit_char (d : Z) :
  0 <= d < 10 -> Stdio.digit_val (Stdio.digit_char d) = d.
Proof.
  intros H. unfold Stdio.digit_val. rewrite code_digit_char by exact H. lia.
Qed.

Lemma scan_digits_digit (d : Z) (s : string) (acc : Z) (k : nat) :
  0 <= d < 10 ->
  Stdio.scan_digits (String (Stdio.digit_char d) s) acc k
  = Stdio.scan_digits s (10 * acc + d) (S k).
Proof.
  intros H. cbn [Stdio.scan_digits].
  rewrite digit_char_is_digit, digit_val_digit_char by exact H. reflexivity.
Qed.

Lemma scan_digits_stops (s : string) (acc : Z) (k : nat) :
  Stdio.stops s -> Stdio.scan_digits s acc k = (acc, k, s).
Proof.
  unfold Stdio.stops. destruct s as [|c s]; cbn; [reflexivity|].
  intros ->. reflexivity.
Qed.

Lemma decimal_fuel_step (f : nat) (n : Z) (acc : string) :
  Stdio.decimal_fuel (S f) n acc =
  if n <? 10 then String (Stdio.digit_char (n mod 10)) acc
  else Stdio.decimal_fuel f (n / 10) (String (Stdio.digit_char (n mod 10)) acc).
Proof. reflexivity. Qed.

(** The digits printed for [n] are read back as [n]. *)
Lemma scan_decimal_fuel (f : nat) :
  forall n suf k,
    0 <= n < 10 ^ Z.of_nat (S f) ->
    exists j,
      Stdio.scan_digits (Stdio.decimal_fuel (S f) n suf) 0 k
      = Stdio.scan_digits suf n (S j).
Proof.
  induction f as [|f IH]; intros n suf k Hn.
  - change (10 ^ Z.of_nat 1) with 10 in Hn.
    rewrite decimal_fuel_step.
    assert (E : (n <? 10) = true) by (apply Z.ltb_lt; lia). rewrite E.
    rewrite Z.mod_small by lia. rewrite scan_digits_digit by lia.
    exists k. f_equal.
  - rewrite decimal_fuel_step.
    destruct (n <? 10) eqn:E.
    + apply Z.ltb_lt in E. rewrite Z.mod_small by lia.
      rewrite scan_digits_digit by lia. exists k. f_equal.
    + apply Z.ltb_ge in E.
      assert (Hq : 0 <= n / 10 < 10 ^ Z.of_nat (S f)).
      { split; [apply Z.div_pos; lia|].
        apply Z.div_lt_upper_bound; [lia|].
        replace (Z.of_nat (S (S f))) with (Z.of_nat (S f) + 1) in Hn by lia.
        rewrite Z.pow_add_r in Hn by lia. lia. }
      destruct (IH (n / 10) (String (Stdio.digit_char (n mod 10)) suf) k Hq)
        as (j & Ej).
      rewrite Ej, scan_digits_digit
        by (apply Z.mod_pos_bound; lia).
      exists (S j). f_equal.
      pose proof (Z.div_mod n 10 ltac:(lia)). lia.
Qed.

Lemma decimal_fuel_enough (n : Z) :
  0 <= n -> 0 <= n < 10 ^ Z.of_nat (S (Z.to_nat (Z.log2 n))).
Proof.
  intros Hn. split; [exact Hn|].
  rewrite Nat2Z.inj_succ, Z2Nat.id by apply Z.log2_nonneg.
  destruct (Z.eq_dec n 0) as [->|Hz]; [reflexivity|].
  pose proof (Z.log2_spec n ltac:(lia)) as (_ & Hlt).
  eapply Z.lt_le_trans; [exact Hlt|].
  apply Z.pow_le_mono_l. pose proof (Z.log2_nonneg n). lia.
Qed.

Lemma scan_decimal (n : Z) (suf : string) (k : nat) :
  0 <= n -> Stdio.stops suf ->
  exists j, Stdio.scan_digits (Stdio.decimal n suf) 0 k = (n, S j, suf).
Proof.
  intros Hn Hs. unfold Stdio.decimal.
  destruct (scan_decimal_fuel _ n suf k (decimal_fuel_enough n Hn)) as (j & E).
  exists j. rewrite E. apply scan_digits_stops, Hs.
Qed.

(** What is printed for a number starts with a digit. *)
Lemma decimal_fuel_head (f : nat) :
  forall n suf,
    0 <= n ->
    exists d rest,
      0 <= d < 10
      /\ Stdio.decimal_fuel (S f) n suf = String (Stdio.digit_char d) rest.
Proof.
  induction f as [|f IH]; intros n suf Hn.
  - rewrite decimal_fuel_step. exists (n mod 10).
    destruct (n <? 10); eexists; (split; [apply Z.mod_pos_bound; lia|]);
      reflexivity.
  - rewrite decimal_fuel_step.
    destruct (n <? 10).
    + exists (n mod 10). eexists.
      split; [apply Z.mod_pos_bound; lia|reflexivity].
    + apply IH. apply Z.div_pos; lia.
Qed.

Lemma decimal_head (n : Z) (suf : string) :
  0 <= n ->
  exists d rest,
    0 <= d < 10 /\ Stdio.decimal n suf = String (Stdio.digit_char d) rest.
Proof. intros Hn. apply decimal_fuel_head, Hn. Qed.

(** A property of the ten digits. *)
Lemma digit_cases (P : ascii -> Prop) :
  P "0"%char -> P "1"%char -> P "2"%char -> P "3"%char -> P "4"%char ->
  P "5"%char -> P "6"%char -> P "7"%char -> P "8"%char -> P "9"%char ->
  forall d, 0 <= d < 10 -> P (Stdio.digit_char d).
Proof.
  intros P0 P1 P2 P3 P4 P5 P6 P7 P8 P9 d Hd.
  assert (E : d = 0 \/ d = 1 \/ d = 2 \/ d = 3 \/ d = 4 \/ d = 5 \/ d = 6
              \/ d = 7 \/ d = 8 \/ d = 9) by lia.
  repeat (destruct E as [->|E]; [assumption|]). subst d. assumption.
Qed.

(** [%d] reads back what [%d] printed. *)
Lemma scan_d_fmt_d (z : Z) (suf : string) :
  CInt.in_range z -> Stdio.stops suf ->
  Stdio.scan_d (Stdio.fmt_d z suf) = Stdio.Matched z suf.
Proof.
  intros Hz Hs. unfold Stdio.fmt_d.
  destruct (scan_decimal (Z.abs z) suf 0 (Z.abs_nonneg z) Hs) as (j & Ej).
  destruct (z <? 0) eqn:En; cbn [Stdio.sign_prefix].
  - apply Z.ltb_lt in En. unfold Stdio.scan_d.
    cbn [Stdio.skip_space]. change (Stdio.is_space "-") with false.
    cbv iota. cbn [Stdio.scan_sign]. rewrite Ej.
    f_equal. rewrite wrap_id; [lia|]. replace (- Z.abs z) with z by lia.
    exact Hz.
  - apply Z.ltb_ge in En.
    destruct (decimal_head (Z.abs z) suf (Z.abs_nonneg z))
      as (d & rest & Hd & Eh).
    rewrite Eh in *. revert Ej.
    pattern (Stdio.digit_char d). apply digit_cases; [..|exact Hd];
      intros Ej; unfold Stdio.scan_d; cbn [Stdio.skip_space];
      match goal with
      | |- context [Stdio.is_space ?c] => change (Stdio.is_space c) with false
      end; cbv iota; cbn [Stdio.scan_sign]; rewrite Ej;
      (f_equal; rewrite wrap_id; [lia|]; replace (Z.abs z) with z by lia;
       exact Hz).
Qed.

Lemma hundredths_nonneg (m : positive) (e : Z) : 0 <= Stdio.hundredths m e.
Proof.
  unfold Stdio.hundredths. destruct (0 <=? e) eqn:E.
  - apply Z.leb_le in E. pose proof (Z.pow_pos_nonneg 2 e ltac:(lia) E). nia.
  - apply Z.leb_gt in E. unfold Stdio.div_nearest_even.
    pose proof (Z.pow_pos_nonneg 2 (- e) ltac:(lia) ltac:(lia)) as Hp.
    pose proof (Z.div_pos (Z.pos m * 100) (2 ^ (- e)) ltac:(lia) Hp) as Hq.
    destruct (2 * ((Z.pos m * 100) mod 2 ^ (- e)) ?= 2 ^ (- e));
      [destruct (Z.even _)|..]; lia.
Qed.

(** A number that starts with a digit is read as a decimal number. *)
Lemma scan_f_number_head (neg : bool) (d : Z) (rest : string) :
  0 <= d < 10 ->
  Stdio.scan_f (Stdio.sign_prefix neg (String (Stdio.digit_char d) rest))
  = Stdio.scan_number neg (String (Stdio.digit_char d) rest).
Proof.
  intros Hd. pattern (Stdio.digit_char d).
  apply digit_cases; [..|exact Hd]; destruct neg; reflexivity.
Qed.

(** [%f] reads back what [%.2f] printed, up to the two decimals. *)
Lemma scan_f_fmt_f2 (x : spec_float) (rest : string) :
  Stdio.scan_f (Stdio.fmt_f2 x (String "," rest))
  = Stdio.Matched (Stdio.two_decimals x) (String "," rest).
Proof.
  destruct x as [s|s| |s m e]; try (destruct s; reflexivity);
    try reflexivity.
  cbn [Stdio.fmt_f2 Stdio.two_decimals].
  pose proof (hundredths_nonneg m e) as Hh.
  set (h := Stdio.hundredths m e) in *.
  unfold Stdio.fixed2.
  set (frac := String "." (String (Stdio.digit_char (h / 10 mod 10))
                 (String (Stdio.digit_char (h mod 10)) (String "," rest)))).
  assert (H100 : 0 <= h / 100) by (apply Z.div_pos; lia).
  destruct (decimal_head (h / 100) frac H100) as (d & r0 & Hd & Eh).
  rewrite Eh, scan_f_number_head by exact Hd. rewrite <- Eh.
  unfold Stdio.scan_number.
  destruct (scan_decimal (h / 100) frac 0 H100 eq_refl) as (j & Ej).
  rewrite Ej. unfold frac.
  rewrite !scan_digits_digit by (apply Z.mod_pos_bound; lia).
  rewrite scan_digits_stops by reflexivity.
  cbn [Nat.add Stdio.scan_exponent]. 
  change (Ascii.eqb (Stdio.lower ",") "e") with false. cbv iota.
  f_equal. f_equal.
  pose proof (Z.div_mod h 10 ltac:(lia)).
  pose proof (Z.div_mod (h / 10) 10 ltac:(lia)).
  rewrite Z.div_div in * by lia. change (10 * 10) with 100 in *. lia.
Qed.

Lemma sscanf_char (c : ascii) (fmt : list Stdio.in_directive) (r : string)
  (done : list Stdio.arg) :
  Stdio.sscanf (Stdio.InChar c :: fmt) (String c r) done
  = Stdio.sscanf fmt r done.
Proof. cbn [Stdio.sscanf]. rewrite Ascii.eqb_refl. reflexivity. Qed.

Lemma sscanf_d (fmt : list Stdio.in_directive) (s rest : string) (z : Z)
  (done : list Stdio.arg) :
  Stdio.scan_d s = Stdio.Matched z rest ->
  Stdio.sscanf (Stdio.InD :: fmt) s done
  = Stdio.sscanf fmt rest (done ++ [Stdio.ArgInt z]).
Proof. intros E. cbn [Stdio.sscanf]. rewrite E. reflexivity. Qed.

Lemma sscanf_f (fmt : list Stdio.in_directive) (s rest : string)
  (x : spec_float) (done : list Stdio.arg) :
  Stdio.scan_f s = Stdio.Matched x rest ->
  Stdio.sscanf (Stdio.InF :: fmt) s done
  = Stdio.sscanf fmt rest (done ++ [Stdio.ArgFloat x]).
Proof. intros E. cbn [Stdio.sscanf]. rewrite E. reflexivity. Qed.

Lemma scan_d_fmt_d_comma (z : Z) (rest : string) :
  CInt.in_range z ->
  Stdio.scan_d (Stdio.fmt_d z (String "," rest))
  = Stdio.Matched z (String "," rest).
Proof. intros Hz. apply scan_d_fmt_d; [exact Hz|reflexivity]. Qed.

(** The client's [sscanf] reads the nine fields of a snapshot text. *)
Lemma sscanf_state_text (p1 p2 : Z) (bx by_ bdx bdy : spec_float)
  (s1 s2 timer : Z) (tail : string) :
  CInt.in_range p1 -> CInt.in_range p2 -> CInt.in_range s1 ->
  CInt.in_range s2 -> CInt.in_range timer -> Stdio.stops tail ->
  Stdio.sscanf Client.state_format
    (Pong.state_text p1 p2 bx by_ bdx bdy s1 s2 timer tail) []
  = (9,
     [Stdio.ArgInt p1; Stdio.ArgInt p2;
      Stdio.ArgFloat (Stdio.two_decimals bx);
      Stdio.ArgFloat (Stdio.two_decimals by_);
      Stdio.ArgFloat (Stdio.two_decimals bdx);
      Stdio.ArgFloat (Stdio.two_decimals bdy);
      Stdio.ArgInt s1; Stdio.ArgInt s2; Stdio.ArgInt timer]).
Proof.
  intros H1 H2 H3 H4 H5 Ht.
  unfold Client.state_format, Pong.state_text.
  cbn [Stdio.in_chars List.app String.append].
  rewrite !sscanf_char.
  rewrite (sscanf_d _ _ _ _ _ (scan_d_fmt_d_comma p1 _ H1)), sscanf_char.
  rewrite (sscanf_d _ _ _ _ _ (scan_d_fmt_d_comma p2 _ H2)), sscanf_char.
  rewrite (sscanf_f _ _ _ _ _ (scan_f_fmt_f2 bx _)), sscanf_char.
  rewrite (sscanf_f _ _ _ _ _ (scan_f_fmt_f2 by_ _)), sscanf_char.
  rewrite (sscanf_f _ _ _ _ _ (scan_f_fmt_f2 bdx _)), sscanf_char.
  rewrite (sscanf_f _ _ _ _ _ (scan_f_fmt_f2 bdy _)), sscanf_char.
  rewrite (sscanf_d _ _ _ _ _ (scan_d_fmt_d_comma s1 _ H3)), sscanf_char.
  rewrite (sscanf_d _ _ _ _ _ (scan_d_fmt_d_comma s2 _ H4)), sscanf_char.
  rewrite (sscanf_d _ _ _ _ _ (scan_d_fmt_d timer _ H5 Ht)).
  reflexivity.
Qed.

Lemma take_all (s : string) (n : nat) :
  (String.length s <= n)%nat -> CStr.take n s = s.
Proof.
  revert n. induction s as [|c s IH]; intros [|n] H; cbn in *;
    try reflexivity; try lia.
  f_equal. apply IH. lia.
Qed.

Lemma decimal_fuel_app (f : nat) :
  forall n a b,
    Stdio.decimal_fuel f n (a ++ b) = (Stdio.decimal_fuel f n a ++ b)%string.
Proof.
  induction f as [|f IH]; intros n a b; [reflexivity|].
  rewrite !decimal_fuel_step. destruct (n <? 10); [reflexivity|].
  rewrite <- IH. reflexivity.
Qed.

Lemma fmt_d_app (z : Z) (a b : string) :
  Stdio.fmt_d z (a ++ b) = (Stdio.fmt_d z a ++ b)%string.
Proof.
  unfold Stdio.fmt_d, Stdio.decimal. rewrite decimal_fuel_app.
  destruct (z <? 0); reflexivity.
Qed.

Lemma fmt_f2_app (x : spec_float) (a b : string) :
  Stdio.fmt_f2 x (a ++ b) = (Stdio.fmt_f2 x a ++ b)%string.
Proof.
  destruct x as [s|s| |s m e]; cbn [Stdio.fmt_f2]; try (destruct s; reflexivity);
    try reflexivity.
  all: unfold Stdio.fixed2, Stdio.decimal;
    change (String "." (String ?d1 (String ?d2 (a ++ b))))
      with (String "." (String d1 (String d2 a)) ++ b)%string.
  all: rewrite decimal_fuel_app; destruct s; reflexivity.
Qed.

Lemma state_text_app (p1 p2 : Z) (bx by_ bdx bdy : spec_float)
  (s1 s2 timer : Z) (a b : string) :
  Pong.state_text p1 p2 bx by_ bdx bdy s1 s2 timer (a ++ b)
  = (Pong.state_text p1 p2 bx by_ bdx bdy s1 s2 timer a ++ b)%string.
Proof.
  unfold Pong.state_text. cbn [String.append].
  rewrite fmt_d_app.
  repeat (change (String "," (?u ++ b)) with (String "," u ++ b)%string;
          rewrite ?fmt_d_app, ?fmt_f2_app).
  reflexivity.
Qed.

(** ** The client *)

Lemma assigned_by_nil (fmt : list Stdio.in_directive) :
  Stdio.assigned_by fmt [] = true.
Proof. induction fmt as [|[c| |] fmt IH]; cbn; auto. Qed.

(** [sscanf] returns the number of values it stored, or [EOF] having stored
    none, and stores values of the types the format asks for. *)
Lemma sscanf_assigned (fmt : list Stdio.in_directive) :
  forall s done n args,
    Stdio.sscanf fmt s done = (n, args) ->
    exists new,
      args = done ++ new
      /\ Stdio.assigned_by fmt new = true
      /\ (n = Z.of_nat (List.length args) \/ (n = -1 /\ args = [])).
Proof.
  assert (Hstop : forall fl done n args f,
            Stdio.scanf_stop fl done = (n, args) ->
            exists new,
              args = done ++ new
              /\ Stdio.assigned_by f new = true
              /\ (n = Z.of_nat (List.length args) \/ (n = -1 /\ args = []))).
  { intros fl done n args f H. exists []. rewrite app_nil_r.
    unfold Stdio.scanf_stop in H.
    destruct done as [|a done]; [destruct fl|]; injection H as <- <-;
      (split; [reflexivity|]); (split; [apply assigned_by_nil|]); auto. }
  induction fmt as [|dir fmt IH]; intros s done n args H.
  - cbn in H. injection H as <- <-. exists []. rewrite app_nil_r. auto.
  - destruct dir as [c| |]; cbn [Stdio.sscanf] in H.
    + destruct s as [|d r]; [eapply Hstop; exact H|].
      destruct (Ascii.eqb d c); [|eapply Hstop; exact H].
      destruct (IH _ _ _ _ H) as (new & -> & Ha & Hn). exists new. auto.
    + destruct (Stdio.scan_d s) as [z rest| |];
        [|eapply Hstop; exact H|eapply Hstop; exact H].
      destruct (IH _ _ _ _ H) as (new & -> & Ha & Hn).
      exists (Stdio.ArgInt z :: new).
      split; [rewrite <- app_assoc; reflexivity|]. split; [exact Ha|exact Hn].
    + destruct (Stdio.scan_f s) as [x rest| |];
        [|eapply Hstop; exact H|eapply Hstop; exact H].
      destruct (IH _ _ _ _ H) as (new & -> & Ha & Hn).
      exists (Stdio.ArgFloat x :: new).
      split; [rewrite <- app_assoc; reflexivity|]. split; [exact Ha|exact Hn].
Qed.

(** When [sscanf] returns 9 the nine variables have been assigned. *)
Lemma sscanf_state_nine (line : string) (args : list Stdio.arg) :
  Stdio.sscanf Client.state_format line [] = (9, args) ->
  exists a b c d e f g h i,
    args = [Stdio.ArgInt a; Stdio.ArgInt b; Stdio.ArgFloat c; Stdio.ArgFloat d;
            Stdio.ArgFloat e; Stdio.ArgFloat f; Stdio.ArgInt g; Stdio.ArgInt h;
            Stdio.ArgInt i].
Proof.
  intros H. destruct (sscanf_assigned _ _ _ _ _ H) as (new & -> & Ha & Hn).
  cbn [List.app] in *. destruct Hn as [Hn|[Hn _]]; [|discriminate].
  unfold Client.state_format in Ha. cbn [Stdio.in_chars List.app] in Ha.
  cbn [Stdio.assigned_by] in Ha.
  repeat match type of Ha with
         | match ?l with _ => _ end = true =>
             destruct l as [|[?|?|?] ?]; try discriminate
         end.
  all: cbn [List.length] in Hn; try lia.
  repeat eexists.
Qed.

Lemma process_game_state_accepts (line : string) (state : Client.GameState)
  (predicted : Client.PredictedBall) (time : spec_float) :
  fst (Stdio.sscanf Client.state_format line [])
  = Client.SERVER_EXPECTED_MESSAGES ->
  exists a b c d e f g h i,
    Stdio.sscanf Client.state_format line []
    = (9, [Stdio.ArgInt a; Stdio.ArgInt b; Stdio.ArgFloat c; Stdio.ArgFloat d;
           Stdio.ArgFloat e; Stdio.ArgFloat f; Stdio.ArgInt g; Stdio.ArgInt h;
           Stdio.ArgInt i])
    /\ Client.process_game_state line state predicted time
       = (1, Client.mkGameState (Client.is_player1 state) a b g h i,
          Client.mkPredicted c d e f time 1).
Proof.
  intros H.
  destruct (Stdio.sscanf Client.state_format line []) as [parsed args] eqn:E.
  cbn [fst] in H. subst parsed.
  destruct (sscanf_state_nine _ _ E) as (a & b & c & d & e & f & g & h & i & ->).
  exists a, b, c, d, e, f, g, h, i. split; [reflexivity|].
  unfold Client.process_game_state. rewrite E. reflexivity.
Qed.
(** C10. A line for which [sscanf] does not return 9, that is a line that is
    not a complete [STATE] message of nine fields, makes [process_game_state]
    return 0 and leaves the game state and the whole predicted ball, position,
    velocity, time stamp and validity flag, as they were. *)
Theorem malformed_line_ignored (line : string) (state : Client.GameState)
  (predicted : Client.PredictedBall) (time : spec_float) :
  fst (Stdio.sscanf Client.state_format line [])
  <> Client.SERVER_EXPECTED_MESSAGES ->
  Client.process_game_state line state predicted time = (0, state, predicted).
Proof.
  unfold Client.process_game_state.
  destruct (Stdio.sscanf Client.state_format line []) as [parsed args].
  cbn [fst]. intros H.
  apply Z.eqb_neq in H.
  repeat match goal with
         | |- match ?l with _ => _ end = _ =>
             lazymatch type of l with
             | bool => rewrite H
             | _ => destruct l
             end; try reflexivity
         end.
Qed.


(** The prediction block either leaves the prediction alone or advances it
    and stamps it with the time of the frame. *)
Lemma predict_cases (now frame_time : spec_float)
  (predicted : Client.PredictedBall) :
  (Client.fresh now predicted = false
   /\ Client.predict now frame_time predicted = predicted)
  \/ (Client.fresh now predicted = true
      /\ Client.predict now frame_time predicted
         = Client.mkPredicted
             (Client.advance (Client.x predicted) (Client.dx predicted)
                (F64.of_f32 frame_time))
             (Client.advance (Client.y predicted) (Client.dy predicted)
                (F64.of_f32 frame_time))
             (Client.dx predicted) (Client.dy predicted) now
             (Client.valid predicted)).
Proof.
  unfold Client.predict. destruct (Client.fresh now predicted); auto.
Qed.

(** A predicted frame keeps the prediction fresh for the frames drawn less
    than a second after it, however old the last snapshot is. *)
Lemma predicted_frame_stays_fresh (now frame_time now' : spec_float)
  (predicted : Client.PredictedBall) :
  Client.fresh now predicted = true ->
  F64.ltb (F64.sub now' now) (F64.lit false 1 1) = true ->
  Client.fresh now' (Client.predict now frame_time predicted) = true.
Proof.
  intros Hf Hn.
  destruct (predict_cases now frame_time predicted) as [(E & _)|(_ & ->)];
    [congruence|].
  unfold Client.fresh in *. cbn [Client.valid Client.last_update].
  apply andb_prop in Hf. destruct Hf as (Hv & _). rewrite Hv, Hn. reflexivity.
Qed.

(** C1, on the run where it fails. A snapshot with the ball at [(40, 12)] and
    velocity [(0.50, 0.10)] is processed at time 0 and nothing is received
    afterwards; frames follow at 60 a second. The first frame moves the ball
    to [x = 40.5], by [0.5 * (1/60) * 60]. Frame 90 is drawn a second and a
    half after the snapshot, and the ball still moves, from [84.5] to [85]:
    each predicted frame has stamped [last_update] with its own time. *)
Theorem prediction_outlives_snapshot :
  Client.valid Example.synced = 1
  /\ Client.last_update Example.synced = S754_zero false
  /\ Client.x Example.synced = F32.lit false 40 1
  /\ Client.x (Example.after_frames 1) = F32.lit false 405 10
  /\ F64.ltb (F64.sub (F64.lit false 90 60)
                (Client.last_update Example.synced))
             (F64.lit false 1 1) = false
  /\ Client.last_update (Example.after_frames 89) = F64.lit false 89 60
  /\ Client.x (Example.after_frames 89) = F32.lit false 845 10
  /\ Client.x (Example.after_frames 90) = F32.lit false 85 1.
Proof. vm_compute. repeat split; reflexivity. Qed.

(** [hundredths] is the nearest integer to a hundred times the value. *)
Lemma hundredths_nearest (m : positive) (e : Z) :
  (0 <= e -> Stdio.hundredths m e = Z.pos m * 2 ^ e * 100)
  /\ (e < 0 ->
      2 * Z.abs (Stdio.hundredths m e * 2 ^ (- e) - Z.pos m * 100)
      <= 2 ^ (- e)).
Proof.
  unfold Stdio.hundredths. split; intros He.
  - apply Z.leb_le in He. rewrite He. reflexivity.
  - assert (E : (0 <=? e) = false) by (apply Z.leb_gt; lia). rewrite E.
    unfold Stdio.div_nearest_even.
    pose proof (Z.pow_pos_nonneg 2 (- e) ltac:(lia) ltac:(lia)) as Hp.
    set (d := 2 ^ (- e)) in *. set (n := Z.pos m * 100).
    pose proof (Z.div_mod n d ltac:(lia)) as Hdm.
    pose proof (Z.mod_pos_bound n d Hp) as Hr.
    set (q := n / d) in *. set (r := n mod d) in *.
    destruct (2 * r ?= d) eqn:C.
    + apply Z.compare_eq in C. destruct (Z.even q); lia.
    + rewrite Z.compare_lt_iff in C. lia.
    + rewrite Z.compare_gt_iff in C. lia.
Qed.

(** C8. The text the server formats for a snapshot ends with a newline. Read
    by [process_game_state], with the newline or, as the client does, without
    it, it is a complete message: the two paddle positions, the two scores
    and the countdown come back as they were, and each of the four ball
    fields comes back as the [float] nearest to its value rounded to two
    decimals. The line sent is that text whenever it fits the 128 bytes of
    the server's buffer. *)
Theorem snapshot_round_trip (g : Pong.Game) (state : Client.GameState)
  (predicted : Client.PredictedBall) (time : spec_float) :
  Pong.ints_in_range g ->
  let text := Stdio.format Pong.state_format (Pong.state_args g) in
  let decoded :=
    (1,
     Client.mkGameState (Client.is_player1 state)
       (Pong.p_y (Pong.g_p1 g)) (Pong.p_y (Pong.g_p2 g))
       (Pong.g_score1 g) (Pong.g_score2 g)
       (Pong.b_serve_timer (Pong.g_ball g)),
     Client.mkPredicted
       (Stdio.two_decimals (F64.of_f32 (Pong.b_x (Pong.g_ball g))))
       (Stdio.two_decimals (F64.of_f32 (Pong.b_y (Pong.g_ball g))))
       (Stdio.two_decimals (F64.of_f32 (Pong.b_dx (Pong.g_ball g))))
       (Stdio.two_decimals (F64.of_f32 (Pong.b_dy (Pong.g_ball g))))
       time 1) in
  exists body,
    text = (body ++ CStr.LF)%string
    /\ Client.process_game_state body state predicted time = decoded
    /\ Client.process_game_state text state predicted time = decoded
    /\ ((String.length text < 128)%nat -> Pong.state_line g = text).
Proof.
  intros (H1 & H2 & H3 & H4 & H5) text decoded.
  set (txt := Pong.state_text (Pong.p_y (Pong.g_p1 g)) (Pong.p_y (Pong.g_p2 g))
            (F64.of_f32 (Pong.b_x (Pong.g_ball g)))
            (F64.of_f32 (Pong.b_y (Pong.g_ball g)))
            (F64.of_f32 (Pong.b_dx (Pong.g_ball g)))
            (F64.of_f32 (Pong.b_dy (Pong.g_ball g)))
            (Pong.g_score1 g) (Pong.g_score2 g)
            (Pong.b_serve_timer (Pong.g_ball g))).
  assert (Et : text = txt CStr.LF) by reflexivity.
  exists (txt EmptyString). split; [|split; [|split]].
  - rewrite Et. unfold txt. rewrite <- state_text_app. reflexivity.
  - unfold Client.process_game_state, txt.
    rewrite sscanf_state_text by (try assumption; reflexivity).
    reflexivity.
  - rewrite Et. unfold Client.process_game_state, txt.
    rewrite sscanf_state_text by (try assumption; reflexivity).
    reflexivity.
  - intros Hlen. unfold Pong.state_line, Stdio.snprintf. fold text.
    apply take_all. cbn [Nat.pred]. lia.
Qed.

(** ** The claims on the runs of [Example] *)

Lemma start_reachable :
  Pong.reachable Taylor.sinf Taylor.cosf Example.start.
Proof.
  apply (Pong.reach_init Taylor.sinf Taylor.cosf Example.arrivals
           Example.lobby Example.answers [] Example.draws);
    vm_compute; reflexivity.
Defined.

Lemma going_up_reachable :
  Pong.reachable Taylor.sinf Taylor.cosf Example.going_up.
Proof.
  apply (Pong.reach_tick Taylor.sinf Taylor.cosf Example.start
           (Example.message "INPUT:UP") None);
    [exact start_reachable | vm_compute; reflexivity].
Defined.

Lemma leaving_draw_kept :
  Exists (Pong.kept Taylor.sinf) (Pong.g_draws Example.leaving).
Proof. apply Exists_cons_hd. vm_compute. reflexivity. Defined.

(** C4 at the first state of the game. *)
Lemma paddles_stay_in_field_witness :
  Pong.reachable Taylor.sinf Taylor.cosf Example.start
  /\ Pong.in_field (Pong.g_p1 Example.start)
  /\ Pong.in_field (Pong.g_p2 Example.start).
Proof.
  split; [exact start_reachable|].
  apply (proj2 (proj2 (proj2 (proj2
           (paddles_stay_in_field Taylor.sinf Taylor.cosf))))).
  exact start_reachable.
Defined.

(** C9 at the first state of the game: the countdown goes from 180 to 179. *)
Lemma serve_countdown_witness :
  Pong.reachable Taylor.sinf Taylor.cosf Example.start
  /\ exists g',
      Pong.tick Taylor.sinf Taylor.cosf Example.start None None = Some g'
      /\ Pong.b_serve_timer (Pong.g_ball g') = 179.
Proof.
  split; [exact start_reachable|].
  destruct (serve_countdown Taylor.sinf Taylor.cosf Example.start None None
              start_reachable) as (_ & Hpos & _).
  destruct (Hpos ltac:(vm_compute; reflexivity)) as (g' & Ht & Hc & _).
  exists g'. split; [exact Ht|exact Hc].
Defined.

(** C3 with the ball leaving on the right: 4 - 2 becomes 5 - 2. *)
Lemma score_once_per_exit_witness :
  Pong.scores_in_range Example.leaving
  /\ Exists (Pong.kept Taylor.sinf) (Pong.g_draws Example.leaving)
  /\ exists g',
      Pong.tick Taylor.sinf Taylor.cosf Example.leaving None None = Some g'
      /\ Pong.g_score1 g' = 5 /\ Pong.g_score2 g' = 2.
Proof.
  assert (Hs : Pong.scores_in_range Example.leaving)
    by (vm_compute; intuition discriminate).
  split; [exact Hs|]. split; [exact leaving_draw_kept|].
  destruct (score_once_per_exit Taylor.sinf Taylor.cosf Example.leaving
              None None Hs leaving_draw_kept)
    as (g' & Ht & _ & Hr & _).
  destruct (Hr ltac:(vm_compute; reflexivity)) as (H1 & H2 & _).
  exists g'. split; [exact Ht|]. split; [exact H1|exact H2].
Defined.

(** C7 at the first state of the game. *)
Lemma speed_within_bounds_witness :
  Pong.reachable Taylor.sinf Taylor.cosf Example.start
  /\ Pong.b_speed (Pong.g_ball Example.start) = Pong.INITIAL_BALL_SPEED.
Proof.
  split; [exact start_reachable|].
  apply (proj1 (speed_within_bounds Taylor.sinf Taylor.cosf)).
  exact start_reachable.
Defined.

(** C5 with the draws 500, 0, 999, 250: the first is rejected, the second
    kept. *)
Lemma reset_ball_serves_witness :
  Exists (Pong.kept Taylor.sinf) Example.draws
  /\ exists b rest,
      Pong.reset_ball Taylor.sinf Taylor.cosf 1 Example.draws = Some (b, rest).
Proof.
  assert (Hd : Exists (Pong.kept Taylor.sinf) Example.draws).
  { apply Exists_cons_tl, Exists_cons_hd. vm_compute. reflexivity. }
  split; [exact Hd|].
  destruct (reset_ball_serves Taylor.sinf Taylor.cosf 1 Example.draws Hd)
    as (b & rest & _ & _ & E & _).
  exists b, rest. exact E.
Defined.

(** C6 on the three connections of the scenario. *)
Lemma handshake_fills_free_slots_witness :
  Pong.claims1 (Some (Example.hello "1")) = true
  /\ Pong.claims2 (Some (Example.hello "2")) = true
  /\ Pong.accept_loop Pong.lobby_init Example.arrivals
     = (Example.lobby, Example.answers, []).
Proof.
  split; [reflexivity|]. split; [reflexivity|].
  apply (proj1 (proj2 (proj2 (proj2 handshake_fills_free_slots))));
    reflexivity.
Defined.

(** C6 as it is stated does not hold: [HELLO:12] is not the claim of a
    player 1 or 2, and the connection that sends it to an empty lobby is
    bound to slot 0 and welcomed as player 1 instead of being closed. *)
Lemma malformed_claim_accepted :
  ~ (forall l conn hello,
       Pong.l_ready l < 2 ->
       Pong.spec_named_slot hello = None ->
       Pong.accept_one l conn hello
       = (l, [Pong.NetClose conn; Pong.NetDelete conn])).
Proof.
  intros H.
  specialize (H Pong.lobby_init 1%positive
                (Some (Pong.mkNetbuf ("HELLO:12" ++ CStr.LF) ""))
                ltac:(cbn; lia) eq_refl).
  vm_compute in H. discriminate H.
Qed.

(** C2 on a state in which player 1 is going up: five bytes that are no
    command put [NONE] in store. *)
Lemma command_overwritten_by_message_witness :
  Pong.reachable Taylor.sinf Taylor.cosf Example.going_up
  /\ Pong.p_input
       (Pong.g_p1 (Pong.before_scoring Example.going_up
                     (Example.message "HELLO") None))
     = Pong.NONE.
Proof.
  split; [exact going_up_reachable|].
  rewrite (proj1 (command_overwritten_by_message Taylor.sinf Taylor.cosf
                    Example.going_up (Example.message "HELLO") None
                    going_up_reachable)).
  reflexivity.
Defined.

(** C2 as it is stated does not hold: player 1 is going up, five bytes that
    are none of the three commands are read, and the command in store is no
    longer [UP]. *)
Lemma unrecognized_message_overwrites :
  ~ (forall g recv0 recv1 nb,
       Pong.reachable Taylor.sinf Taylor.cosf g ->
       recv0 = Some nb ->
       Pong.recognized (Pong.nb_memory nb) = false ->
       Pong.p_input (Pong.g_p1 (Pong.before_scoring g recv0 recv1))
       = Pong.p_input (Pong.g_p1 g)).
Proof.
  intros H.
  specialize (H Example.going_up (Example.message "HELLO") None
                (Pong.mkNetbuf "HELLO" "") going_up_reachable
                eq_refl eq_refl).
  vm_compute in H. discriminate H.
Qed.

(** C8 on a snapshot with the ball at [80.75]. *)
Lemma snapshot_round_trip_witness :
  Pong.ints_in_range Example.leaving
  /\ Pong.state_line Example.leaving
     = ("STATE:10,10,80.75,3.00,0.25,0.12,4,2,0" ++ CStr.LF)%string
  /\ fst (fst (Client.process_game_state (Pong.state_line Example.leaving)
                 Example.fresh_state Client.predicted_init (S754_zero false)))
     = 1.
Proof.
  assert (Hi : Pong.ints_in_range Example.leaving)
    by (vm_compute; intuition discriminate).
  split; [exact Hi|]. split; [reflexivity|].
  destruct (snapshot_round_trip Example.leaving Example.fresh_state
              Client.predicted_init (S754_zero false) Hi)
    as (body & _ & _ & E3 & E4).
  rewrite (E4 ltac:(vm_compute; repeat constructor)), E3. reflexivity.
Defined.

(** C10 on a line that stops after the fifth field. *)
Lemma malformed_line_ignored_witness :
  fst (Stdio.sscanf Client.state_format "STATE:10,12,40.00,12.00,0.50" [])
  <> Client.SERVER_EXPECTED_MESSAGES
  /\ Client.process_game_state "STATE:10,12,40.00,12.00,0.50"
       Example.fresh_state Example.synced (F64.lit false 5 1)
     = (0, Example.fresh_state, Example.synced).
Proof.
  assert (H : fst (Stdio.sscanf Client.state_format
                     "STATE:10,12,40.00,12.00,0.50" [])
              <> Client.SERVER_EXPECTED_MESSAGES)
    by (vm_compute; discriminate).
  split; [exact H|].
  apply (malformed_line_ignored _ _ _ _ H).
Defined.

(** * Further properties *)

(** ** The input messages, from the keys to the stored command *)


(** The commands in store after the reads of a tick. *)
Lemma before_scoring_inputs (sinf cosf : spec_float -> spec_float)
  (g : Pong.Game) (recv0 recv1 : option Pong.netbuf) :
  Pong.reachable sinf cosf g ->
  Pong.p_input (Pong.g_p1 (Pong.before_scoring g recv0 recv1))
  = Pong.command_after (Pong.p_input (Pong.g_p1 g)) recv0
  /\ Pong.p_input (Pong.g_p2 (Pong.before_scoring g recv0 recv1))
     = Pong.command_after (Pong.p_input (Pong.g_p2 g)) recv1.
Proof.
  intros Hg.
  destruct (reachable_inv sinf cosf g Hg) as ((h0 & h1 & E0 & E1) & _).
  unfold Pong.before_scoring. rewrite E0, E1, handle_clients_inputs.
  cbn [Pong.g_p1 Pong.g_p2].
  rewrite !clamp_paddle_input, !move_paddle_input. cbn. auto.
Qed.

(** X1. Whatever the keys, the message [handle_input] sends has five bytes or
    more, and the server reads the pressed direction off it: [UP] for the up
    key of the player, [DOWN] for the down key when the up key is not
    pressed, [NONE] otherwise. Bytes that follow the message in the same
    buffer and the command stored before do not matter. *)
Theorem input_message_decoded (keys : Client.Keys) (state : Client.GameState)
  (more after : string) (old : Pong.Input) :
  let msg := Client.handle_input keys state in
  let up := if Client.is_player1 state =? 0 then Client.KEY_UP keys
            else Client.KEY_W keys in
  let down := if Client.is_player1 state =? 0 then Client.KEY_DOWN keys
              else Client.KEY_S keys in
  5 <= Z.of_nat (String.length msg)
  /\ Pong.parse_input_line (msg ++ more)
     = (if up then Pong.UP else if down then Pong.DOWN else Pong.NONE)
  /\ Pong.command_after old (Some (Pong.mkNetbuf (msg ++ more) after))
     = (if up then Pong.UP else if down then Pong.DOWN else Pong.NONE).
Proof.
  intros msg up down. unfold msg, up, down, Client.handle_input.
  unfold Pong.command_after, Pong.nb_len, Pong.nb_memory.
  cbn [Pong.nb_data Pong.nb_after].
  destruct (Client.is_player1 state =? 0); cbn [negb];
    destruct (Client.KEY_W keys), (Client.KEY_S keys),
      (Client.KEY_UP keys), (Client.KEY_DOWN keys);
    rewrite parse_input_line_eq;
    (split; [cbn; lia|]); (split; [reflexivity|]);
    match goal with
    | |- context [5 <=? ?n] =>
        assert (E : (5 <=? n) = true)
          by (apply Z.leb_le; cbn [String.append String.length CStr.LF];
              lia);
        rewrite E
    end; reflexivity.
Qed.

(** ** The handshake, from [main] to the accept loop *)

Lemma hello_msg_1 : Session.hello_msg 1 = ("HELLO:1" ++ CStr.LF)%string.
Proof. reflexivity. Qed.

Lemma hello_msg_2 : Session.hello_msg 2 = ("HELLO:2" ++ CStr.LF)%string.
Proof. reflexivity. Qed.

(** X2. [main] goes on only with player number 1 or 2. The [HELLO] message
    it then sends names that player to the server, whatever follows it in the
    buffer: the connection gets slot 0 and [WELCOME 1] for number 1 when slot
    0 is empty, slot 1 and [WELCOME 2] for number 2 when slot 1 is empty, and
    is closed when the slot is taken. The client is player 1 for number 1
    only. *)
Theorem hello_names_the_player (player_number : Z) :
  (Session.start player_number = None
   <-> player_number <> 1 /\ player_number <> 2)
  /\ forall msg state,
      Session.start player_number = Some (msg, state) ->
      (negb (Client.is_player1 state =? 0) = (player_number =? 1))
      /\ forall more after l conn,
          let hello := Some (Pong.mkNetbuf (msg ++ more) after) in
          let slot := if player_number =? 1 then Pong.l_client0 l
                      else Pong.l_client1 l in
          Pong.claims1 hello = (player_number =? 1)
          /\ Pong.claims2 hello = (player_number =? 2)
          /\ (Pong.c_conn slot = None ->
              Pong.accept_one l conn hello
              = (if player_number =? 1 then
                   Pong.mkLobby (Pong.mkClient (Some conn) 1)
                     (Pong.l_client1 l) (CInt.wrap (Pong.l_ready l + 1))
                 else
                   Pong.mkLobby (Pong.l_client0 l)
                     (Pong.mkClient (Some conn) 2)
                     (CInt.wrap (Pong.l_ready l + 1)),
                 [Pong.NetWrite conn
                    (if player_number =? 1
                     then ("WELCOME 1" ++ CStr.LF)%string
                     else ("WELCOME 2" ++ CStr.LF)%string)]))
          /\ (Pong.c_conn slot <> None ->
              Pong.accept_one l conn hello
              = (l, [Pong.NetClose conn; Pong.NetDelete conn])).
Proof.
  unfold Session.start. split.
  - destruct (Z.eqb_spec player_number 1), (Z.eqb_spec player_number 2);
      cbn [negb andb]; split; intros H; try discriminate; try lia;
      reflexivity.
  - intros msg state H.
    destruct (player_number =? 1) eqn:E1.
    + apply Z.eqb_eq in E1. subst player_number. cbn in H.
      injection H as <- <-. split; [reflexivity|].
      intros more after l conn.
      set (hello := Some (Pong.mkNetbuf _ after)).
      assert (C1 : Pong.claims1 hello = true) by reflexivity.
      assert (C2 : Pong.claims2 hello = false) by reflexivity.
      rewrite accept_one_eq, C1, C2. cbn [andb].
      repeat split; destruct (Pong.c_conn (Pong.l_client0 l));
        cbn [Pong.is_null]; intros; try reflexivity; congruence.
    + destruct (player_number =? 2) eqn:E2; [|discriminate].
      apply Z.eqb_eq in E2. subst player_number. cbn in H.
      injection H as <- <-. split; [reflexivity|].
      intros more after l conn.
      set (hello := Some (Pong.mkNetbuf _ after)).
      assert (C1 : Pong.claims1 hello = false) by reflexivity.
      assert (C2 : Pong.claims2 hello = true) by reflexivity.
      rewrite accept_one_eq, C1, C2. cbn [andb].
      repeat split; destruct (Pong.c_conn (Pong.l_client1 l));
        cbn [Pong.is_null]; intros; try reflexivity; congruence.
Qed.

(** ** The accept loop as a whole *)

Lemma accept_one_writes (l : Pong.Lobby) (conn : Pong.handle)
  (hello : option Pong.netbuf) (l1 : Pong.Lobby) (out1 : list Pong.net_action) :
  Pong.accept_one l conn hello = (l1, out1) ->
  (forall a, In a out1 -> Play.action_conn a = conn)
  /\ out1 <> []
  /\ ((Play.writes out1 = 1
       /\ ((Pong.c_conn (Pong.l_client0 l) = None
            /\ l1 = Pong.mkLobby (Pong.mkClient (Some conn) 1)
                      (Pong.l_client1 l) (CInt.wrap (Pong.l_ready l + 1)))
           \/ (Pong.c_conn (Pong.l_client1 l) = None
               /\ l1 = Pong.mkLobby (Pong.l_client0 l)
                         (Pong.mkClient (Some conn) 2)
                         (CInt.wrap (Pong.l_ready l + 1)))))
      \/ (Play.writes out1 = 0 /\ l1 = l)).
Proof.
  intros E.
  destruct (accept_one_cases l conn hello)
    as [(_ & C & E')|[(_ & C & E')|(_ & _ & E')]];
    rewrite E' in E; injection E as <- <-.
  - split; [|split; [discriminate|left; split; [reflexivity|left; auto]]].
    intros a [<-|[]]. reflexivity.
  - split; [|split; [discriminate|left; split; [reflexivity|right; auto]]].
    intros a [<-|[]]. reflexivity.
  - split; [|split; [discriminate|right; auto]].
    intros a [<-|[<-|[]]]; reflexivity.
Qed.

Lemma accept_loop_accounts_from (evs : list Pong.accept_event) :
  forall l out rest l',
    Pong.accept_loop l evs = (l', out, rest) ->
    (Pong.l_client0 l = Pong.no_client
     \/ exists h, Pong.l_client0 l = Pong.mkClient (Some h) 1) ->
    (Pong.l_client1 l = Pong.no_client
     \/ exists h, Pong.l_client1 l = Pong.mkClient (Some h) 2) ->
    Pong.l_ready l =
      (if Pong.is_null (Pong.c_conn (Pong.l_client0 l)) then 0 else 1)
      + (if Pong.is_null (Pong.c_conn (Pong.l_client1 l)) then 0 else 1) ->
    Play.writes out = Pong.l_ready l' - Pong.l_ready l
    /\ (forall h, Pong.c_conn (Pong.l_client0 l) = Some h ->
                  Pong.l_client0 l' = Pong.l_client0 l)
    /\ (forall h, Pong.c_conn (Pong.l_client1 l) = Some h ->
                  Pong.l_client1 l' = Pong.l_client1 l)
    /\ (rest <> [] -> Pong.l_ready l' = 2)
    /\ exists used,
        evs = used ++ rest
        /\ forall c, In c (List.map Play.action_conn out)
                     <-> In c (Play.accepted used).
Proof.
  induction evs as [|ev evs IH]; intros l out rest l' H H0 H1 Hr.
  - cbn [Pong.accept_loop] in H.
    assert (E : (l', out, rest) = (l, [], []))
      by (destruct (Pong.l_ready l <? 2); congruence).
    injection E as -> -> ->.
    split; [cbn; lia|]. split; [auto|]. split; [auto|].
    split; [congruence|]. exists []. split; [reflexivity|].
    intros c; cbn; tauto.
  - cbn [Pong.accept_loop] in H.
    destruct (Pong.l_ready l <? 2) eqn:Er.
    2:{ injection H as <- <- <-. apply Z.ltb_ge in Er.
        assert (Hle : Pong.l_ready l <= 2).
        { rewrite Hr.
          destruct (Pong.is_null _), (Pong.is_null _); lia. }
        split; [cbn; lia|]. split; [auto|]. split; [auto|].
        split; [intros _; lia|]. exists []. split; [reflexivity|].
        intros c; cbn; tauto. }
    destruct ev as [|conn hello].
    { destruct (IH _ _ _ _ H H0 H1 Hr) as (W & S0 & S1 & R & used & Eu & Hu).
      split; [exact W|]. split; [exact S0|]. split; [exact S1|].
      split; [exact R|]. exists (Pong.AcceptFailed :: used).
      split; [cbn; congruence|exact Hu]. }
    destruct (Pong.accept_one l conn hello) as [l1 out1] eqn:E1.
    destruct (Pong.accept_loop l1 evs) as [[l2 out2] rest2] eqn:E2.
    injection H as <- <- <-.
    destruct (accept_one_writes _ _ _ _ _ E1) as (Hc & Hne & Hcase).
    apply Z.ltb_lt in Er.
    assert (Hw : CInt.wrap (Pong.l_ready l + 1) = Pong.l_ready l + 1).
    { apply wrap_id. unfold CInt.in_range, CInt.INT_MIN, CInt.INT_MAX.
      rewrite Hr in *. destruct (Pong.is_null _), (Pong.is_null _); lia. }
    assert (Hwr : forall a b, Play.writes (a ++ b) = Play.writes a + Play.writes b).
    { induction a as [|[]]; intros; cbn [List.app Play.writes];
        rewrite ?IHa; lia. }
    assert (Hin : forall c, In c (List.map Play.action_conn out1) <-> conn = c).
    { intros c. split.
      - intros Hi. apply in_map_iff in Hi. destruct Hi as (a & <- & Ha).
        symmetry. apply Hc, Ha.
      - intros <-. destruct out1 as [|a out1]; [congruence|].
        left. apply Hc. left. reflexivity. }
    destruct Hcase as [(W1 & [(C & ->)|(C & ->)])|(W1 & ->)].
    + destruct (IH _ _ _ _ E2) as (W & S0 & S1 & R & used & Eu & Hu);
        cbn [Pong.l_client0 Pong.l_client1 Pong.l_ready Pong.c_conn
             Pong.is_null]; eauto.
      { rewrite Hw, Hr, C. cbn [Pong.is_null]. lia. }
      cbn [Pong.l_client0 Pong.l_client1 Pong.l_ready Pong.c_conn] in *.
      split; [rewrite Hwr, W1, W; lia|].
      split; [intros h Hh; congruence|].
      split; [exact S1|]. split; [exact R|].
      exists (Pong.Accepted conn hello :: used).
      split; [cbn; congruence|].
      intros c. rewrite map_app, in_app_iff, Hin, Hu. cbn. tauto.
    + destruct (IH _ _ _ _ E2) as (W & S0 & S1 & R & used & Eu & Hu);
        cbn [Pong.l_client0 Pong.l_client1 Pong.l_ready Pong.c_conn
             Pong.is_null]; eauto.
      { rewrite Hw, Hr, C. cbn [Pong.is_null]. lia. }
      cbn [Pong.l_client0 Pong.l_client1 Pong.l_ready Pong.c_conn] in *.
      split; [rewrite Hwr, W1, W; lia|].
      split; [exact S0|].
      split; [intros h Hh; congruence|]. split; [exact R|].
      exists (Pong.Accepted conn hello :: used).
      split; [cbn; congruence|].
      intros c. rewrite map_app, in_app_iff, Hin, Hu. cbn. tauto.
    + destruct (IH _ _ _ _ E2 H0 H1 Hr) as (W & S0 & S1 & R & used & Eu & Hu).
      split; [rewrite Hwr, W1, W; lia|].
      split; [exact S0|]. split; [exact S1|]. split; [exact R|].
      exists (Pong.Accepted conn hello :: used).
      split; [cbn; congruence|].
      intros c. rewrite map_app, in_app_iff, Hin, Hu. cbn. tauto.
Qed.

(** X3. Whatever connections arrive, the accept loop started on an empty
    lobby sends one [WELCOME] for each slot it fills and never more than two;
    it acts on every connection it took from [netconn_accept] and on no
    other; it leaves connections unread only once both slots are filled. *)
Theorem accept_loop_accounts (evs : list Pong.accept_event) (l : Pong.Lobby)
  (out : list Pong.net_action) (rest : list Pong.accept_event) :
  Pong.accept_loop Pong.lobby_init evs = (l, out, rest) ->
  0 <= Pong.l_ready l <= 2
  /\ Play.writes out = Pong.l_ready l
  /\ (rest <> [] -> Pong.l_ready l = 2)
  /\ exists used,
      evs = used ++ rest
      /\ forall c, In c (List.map Play.action_conn out)
                   <-> In c (Play.accepted used).
Proof.
  intros H.
  destruct (accept_loop_accounts_from evs _ _ _ _ H)
    as (W & _ & _ & R & U); try (left; reflexivity); try reflexivity.
  destruct (accept_loop_inv evs _ _ _ _ H) as (_ & _ & Hc);
    try (left; reflexivity); try reflexivity.
  cbn [Pong.lobby_init Pong.l_ready] in W.
  split; [rewrite Hc; destruct (Pong.is_null _), (Pong.is_null _); lia|].
  split; [lia|]. split; [exact R|exact U].
Qed.

(** X4. A slot that holds a connection keeps it for the rest of the accept
    loop: a later claim for the same player never replaces it. *)
Theorem bound_slot_is_kept (evs1 evs2 : list Pong.accept_event)
  (l1 l2 : Pong.Lobby) (out1 out2 : list Pong.net_action)
  (rest1 rest2 : list Pong.accept_event) :
  Pong.accept_loop Pong.lobby_init evs1 = (l1, out1, rest1) ->
  Pong.accept_loop l1 evs2 = (l2, out2, rest2) ->
  (forall h, Pong.c_conn (Pong.l_client0 l1) = Some h ->
             Pong.l_client0 l2 = Pong.l_client0 l1)
  /\ (forall h, Pong.c_conn (Pong.l_client1 l1) = Some h ->
                Pong.l_client1 l2 = Pong.l_client1 l1).
Proof.
  intros H1 H2.
  destruct (accept_loop_inv evs1 _ _ _ _ H1) as (I0 & I1 & Ic);
    try (left; reflexivity); try reflexivity.
  destruct (accept_loop_accounts_from evs2 _ _ _ _ H2 I0 I1 Ic)
    as (_ & S0 & S1 & _). auto.
Qed.

(** ** The game loop over several ticks *)

Lemma tick_players (sinf cosf : spec_float -> spec_float) (g g' : Pong.Game)
  (recv0 recv1 : option Pong.netbuf) :
  Pong.tick sinf cosf g recv0 recv1 = Some g' ->
  Pong.g_p1 g' = Pong.g_p1 (Pong.before_scoring g recv0 recv1)
  /\ Pong.g_p2 g' = Pong.g_p2 (Pong.before_scoring g recv0 recv1)
  /\ Pong.g_client0 g' = Pong.g_client0 g
  /\ Pong.g_client1 g' = Pong.g_client1 g.
Proof.
  intros Ht. unfold Pong.tick in Ht.
  destruct (before_scoring_frame g recv0 recv1) as (F0 & F1 & _).
  destruct (scoring_cases _ _ _ _ Ht)
    as [(_ & b & r & _ & ->)|[(_ & _ & b & r & _ & ->)|(_ & _ & ->)]];
    cbn; auto.
Qed.



Lemma ticks_reachable (sinf cosf : spec_float -> spec_float)
  (recvs : list (option Pong.netbuf * option Pong.netbuf)) :
  forall g g',
    Pong.reachable sinf cosf g ->
    Play.ticks sinf cosf g recvs = Some g' ->
    Pong.reachable sinf cosf g'.
Proof.
  induction recvs as [|[r0 r1] recvs IH]; intros g g' Hg H; cbn in H.
  - injection H as <-. exact Hg.
  - destruct (Pong.tick sinf cosf g r0 r1) as [g1|] eqn:Et; [|discriminate].
    eapply IH; [|exact H]. eapply Pong.reach_tick; eauto.
Qed.


(** The walls and the paddles leave a ball at the centre alone. *)
Lemma centre_undeflected (p1 p2 : Pong.Player) (b : Pong.Ball) :
  Pong.b_x b = F32.of_int 40 -> Pong.b_y b = F32.of_int 12 ->
  Pong.paddle2_collision p2 (Pong.paddle1_collision p1 (Pong.bounce_walls b))
  = b.
Proof.
  intros Hx Hy.
  unfold Pong.bounce_walls. rewrite Hy.
  change (F32.ltb (F32.of_int 12) (F32.of_int 0)) with false.
  change (F32.ltb (F32.of_int (Pong.FIELD_HEIGHT - 1)) (F32.of_int 12))
    with false.
  cbn [orb].
  unfold Pong.paddle1_collision. rewrite Hx.
  change (F32.leb (F32.of_int 40)
            (F32.of_int (Pong.PADDLE_OFFSET_X + Pong.PADDLE_WIDTH)))
    with false.
  rewrite andb_false_r.
  unfold Pong.paddle2_collision. rewrite Hx.
  change (F32.leb
            (F32.of_int
               (Pong.FIELD_WIDTH - Pong.PADDLE_OFFSET_X - Pong.PADDLE_WIDTH))
            (F32.of_int 40)) with false.
  rewrite andb_false_r. reflexivity.
Qed.

Lemma pause_tick (sinf cosf : spec_float -> spec_float) (g : Pong.Game)
  (recv0 recv1 : option Pong.netbuf) :
  Pong.waits_at_centre (Pong.g_ball g) ->
  0 < Pong.b_serve_timer (Pong.g_ball g) ->
  exists g',
    Pong.tick sinf cosf g recv0 recv1 = Some g'
    /\ Pong.g_ball g'
       = Pong.mkBall (Pong.b_x (Pong.g_ball g)) (Pong.b_y (Pong.g_ball g))
           (Pong.b_dx (Pong.g_ball g)) (Pong.b_dy (Pong.g_ball g))
           (Pong.b_serve_timer (Pong.g_ball g) - 1)
           (Pong.b_speed (Pong.g_ball g))
    /\ Pong.g_score1 g' = Pong.g_score1 g
    /\ Pong.g_score2 g' = Pong.g_score2 g
    /\ Pong.g_draws g' = Pong.g_draws g.
Proof.
  intros (Hrange & Hpos) Ht. destruct (Hpos Ht) as (Hx & Hy).
  exists (Pong.before_scoring g recv0 recv1).
  assert (Hb : Pong.g_ball (Pong.before_scoring g recv0 recv1)
               = Pong.mkBall (Pong.b_x (Pong.g_ball g))
                   (Pong.b_y (Pong.g_ball g)) (Pong.b_dx (Pong.g_ball g))
                   (Pong.b_dy (Pong.g_ball g))
                   (Pong.b_serve_timer (Pong.g_ball g) - 1)
                   (Pong.b_speed (Pong.g_ball g))).
  { unfold Pong.before_scoring.
    destruct (Pong.handle_client _ _ _) as [q1 q2]. cbn [Pong.g_ball].
    destruct (move_ball_cases (Pong.g_ball g)) as [(_ & ->)|(Hn & _)];
      [|lia].
    rewrite centre_undeflected by assumption.
    rewrite wrap_id; [reflexivity|].
    unfold CInt.in_range, CInt.INT_MIN, CInt.INT_MAX, Pong.SERVE_TIME,
      Pong.FPS in *. lia. }
  destruct (before_scoring_frame g recv0 recv1)
    as (_ & _ & F1 & F2 & Fd & _).
  split; [|auto].
  unfold Pong.tick, Pong.scoring.
  destruct (centre_inside (Pong.g_ball (Pong.before_scoring g recv0 recv1)))
    as (-> & ->); [rewrite Hb; exact Hx|reflexivity].
Qed.

(** X6. The pause after a serve: while the countdown is at [t], the next [n]
    ticks, for [n <= t] and whatever is read in them, all return, and they
    leave the ball, its velocity, the scores and the coming values of
    [rand()] as they are; only the countdown changes, to [t - n]. The ball
    does not move before tick [t + 1] after the serve. *)
Theorem serve_pause (sinf cosf : spec_float -> spec_float) (g : Pong.Game)
  (recvs : list (option Pong.netbuf * option Pong.netbuf)) :
  Pong.reachable sinf cosf g ->
  Z.of_nat (List.length recvs) <= Pong.b_serve_timer (Pong.g_ball g) ->
  exists g',
    Play.ticks sinf cosf g recvs = Some g'
    /\ Pong.g_ball g'
       = Pong.mkBall (Pong.b_x (Pong.g_ball g)) (Pong.b_y (Pong.g_ball g))
           (Pong.b_dx (Pong.g_ball g)) (Pong.b_dy (Pong.g_ball g))
           (Pong.b_serve_timer (Pong.g_ball g) - Z.of_nat (List.length recvs))
           (Pong.b_speed (Pong.g_ball g))
    /\ Pong.g_score1 g' = Pong.g_score1 g
    /\ Pong.g_score2 g' = Pong.g_score2 g
    /\ Pong.g_draws g' = Pong.g_draws g.
Proof.
  revert g. induction recvs as [|[r0 r1] recvs IH]; intros g Hg Hn.
  - exists g. cbn [Play.ticks List.length]. split; [reflexivity|].
    split; [|auto]. rewrite Z.sub_0_r. destruct (Pong.g_ball g); reflexivity.
  - cbn [List.length] in Hn.
    destruct (reachable_inv sinf cosf g Hg) as (_ & _ & _ & Hw & _).
    destruct (pause_tick sinf cosf g r0 r1 Hw ltac:(lia))
      as (g1 & Et & Eb & E1 & E2 & Ed).
    assert (Hg1 : Pong.reachable sinf cosf g1)
      by (eapply Pong.reach_tick; eauto).
    destruct (IH g1 Hg1) as (g' & Ets & Eb' & E1' & E2' & Ed').
    { rewrite Eb. cbn [Pong.b_serve_timer]. lia. }
    exists g'. cbn [Play.ticks]. rewrite Et. split; [exact Ets|].
    rewrite Eb', E1', E2', Ed', Eb. cbn [Pong.b_x Pong.b_y Pong.b_dx
      Pong.b_dy Pong.b_serve_timer Pong.b_speed List.length].
    repeat split; try assumption. f_equal. lia.
Qed.

(** ** The walls and the paddles *)

(** At the left paddle is not at the right paddle. *)
Lemma left_not_right (x : spec_float) :
  F32.leb x (F32.of_int (Pong.PADDLE_OFFSET_X + Pong.PADDLE_WIDTH)) = true ->
  F32.leb (F32.of_int (Pong.FIELD_WIDTH - Pong.PADDLE_OFFSET_X
                       - Pong.PADDLE_WIDTH)) x = false.
Proof.
  change (F32.of_int (Pong.PADDLE_OFFSET_X + Pong.PADDLE_WIDTH))
    with (S754_finite false 8388608 (-21)).
  change (F32.of_int (Pong.FIELD_WIDTH - Pong.PADDLE_OFFSET_X
                      - Pong.PADDLE_WIDTH))
    with (S754_finite false 9961472 (-17)).
  unfold F32.leb, SFleb, SFcompare.
  destruct x as [s|s| |s m e]; cbv beta iota.
  - reflexivity.
  - destruct s; [reflexivity|discriminate].
  - discriminate.
  - destruct s; [reflexivity|].
    destruct (e ?= -21) eqn:C1; intros H; try discriminate.
    + apply Z.compare_eq in C1. subst e. reflexivity.
    + change (e < -21) in C1.
      assert (C2 : (-17 ?= e) = Gt) by (apply Z.compare_gt_iff; lia).
      rewrite C2. reflexivity.
Qed.

(** X7. The two collision blocks of a tick together turn the ball round at
    most once: [dx] is multiplied by [-1] when the ball moves left, is at
    [x <= 4] and level with paddle 1, or moves right, is at [x >= 76] and
    level with paddle 2; otherwise the ball is left as it is. A ball moving
    away from a paddle passes through it. *)
Theorem deflected_at_most_once (p1 p2 : Pong.Player) (b : Pong.Ball) :
  Pong.paddle2_collision p2 (Pong.paddle1_collision p1 b)
  = (if Play.hits_paddle1 p1 b || Play.hits_paddle2 p2 b
     then Pong.flip_dx b else b)
  /\ (Play.hits_paddle1 p1 b && Play.hits_paddle2 p2 b = false)
  /\ (F32.ltb (Pong.b_dx b) (F32.of_int 0) = false ->
      Pong.paddle1_collision p1 b = b)
  /\ (F32.ltb (F32.of_int 0) (Pong.b_dx b) = false ->
      Pong.paddle2_collision p2 b = b).
Proof.
  unfold Play.hits_paddle1, Play.hits_paddle2, Pong.paddle1_collision,
    Pong.paddle2_collision.
  set (A := F32.ltb (Pong.b_dx b) (F32.of_int 0)).
  set (W1 := Pong.within_paddle p1 b).
  set (C := F32.ltb (F32.of_int 0) (Pong.b_dx b)).
  set (W2 := Pong.within_paddle p2 b).
  destruct (F32.leb (Pong.b_x b)
              (F32.of_int (Pong.PADDLE_OFFSET_X + Pong.PADDLE_WIDTH))) eqn:X4.
  - pose proof (left_not_right _ X4) as X76.
    rewrite X76, !andb_false_r, orb_false_r. cbn [andb].
    split; [|split; [reflexivity|split]].
    + destruct (A && true && W1) eqn:H1.
      * apply andb_prop in H1. destruct H1 as (H1 & ->).
        rewrite H1. cbn [Pong.flip_dx Pong.b_x Pong.b_dx].
        rewrite X76, andb_false_r. reflexivity.
      * destruct (A && true) eqn:H2.
        { cbn [andb] in H1. rewrite H1, X76, andb_false_r. reflexivity. }
        rewrite X76, andb_false_r. reflexivity.
    + intros ->. reflexivity.
    + intros _. rewrite ?X76, ?andb_false_r. reflexivity.
  - rewrite !andb_false_r. cbn [andb orb].
    split; [|split; [reflexivity|split; [reflexivity|]]].
    + subst A W1 C W2.
      destruct (F32.ltb (F32.of_int 0) (Pong.b_dx b)),
        (F32.leb (F32.of_int (Pong.FIELD_WIDTH - Pong.PADDLE_OFFSET_X
                              - Pong.PADDLE_WIDTH)) (Pong.b_x b)),
        (Pong.within_paddle p2 b); reflexivity.
    + intros ->. reflexivity.
Qed.

(** A tick either draws a serve angle, using up values of [rand()], or ends
    as it is before the scoring block. *)
Lemma tick_serves_or_not (sinf cosf : spec_float -> spec_float)
  (g g' : Pong.Game) (recv0 recv1 : option Pong.netbuf) :
  Pong.tick sinf cosf g recv0 recv1 = Some g' ->
  (List.length (Pong.g_draws g') < List.length (Pong.g_draws g))%nat
  \/ g' = Pong.before_scoring g recv0 recv1.
Proof.
  intros Ht. unfold Pong.tick in Ht.
  destruct (before_scoring_frame g recv0 recv1) as (_ & _ & _ & _ & Fd & _).
  assert (Hshort : forall s b r,
            Pong.reset_ball sinf cosf s
              (Pong.g_draws (Pong.before_scoring g recv0 recv1)) = Some (b, r) ->
            (List.length r < List.length (Pong.g_draws g))%nat).
  { intros s b r E. rewrite Fd in E.
    destruct (reset_ball_inv _ _ _ _ _ _ E) as (angle & Ea & _).
    destruct (draw_angle_inv _ _ _ _ Ea) as (pre & r0 & -> & _).
    rewrite length_app. cbn [List.length]. lia. }
  destruct (scoring_cases _ _ _ _ Ht)
    as [(_ & b & r & E & ->)|[(_ & _ & b & r & E & ->)|(_ & _ & ->)]];
    cbn [Pong.g_draws]; eauto.
Qed.

Lemma ticks_draws_le (sinf cosf : spec_float -> spec_float)
  (recvs : list (option Pong.netbuf * option Pong.netbuf)) :
  forall g g',
    Play.ticks sinf cosf g recvs = Some g' ->
    (List.length (Pong.g_draws g') <= List.length (Pong.g_draws g))%nat.
Proof.
  induction recvs as [|[r0 r1] recvs IH]; intros g g' H; cbn in H.
  - injection H as <-. lia.
  - destruct (Pong.tick sinf cosf g r0 r1) as [g1|] eqn:Et; [|discriminate].
    specialize (IH _ _ H).
    destruct (tick_serves_or_not _ _ _ _ _ _ Et) as [Hl| ->]; [lia|].
    destruct (before_scoring_frame g r0 r1) as (_ & _ & _ & _ & Fd & _).
    rewrite Fd in IH. exact IH.
Qed.

Lemma flip_abs (v : spec_float) :
  valid_binary 24 128 v = true ->
  SFabs (Pong.flip v) = SFabs v
  /\ valid_binary 24 128 (Pong.flip v) = true.
Proof.
  intros Hv. rewrite (flip_opp v Hv). destruct v; auto.
Qed.

(** What a tick that draws no serve angle does to the velocity. *)
Lemma unserved_tick_velocity (g : Pong.Game)
  (recv0 recv1 : option Pong.netbuf) :
  let b := Pong.g_ball g in
  let b' := Pong.g_ball (Pong.before_scoring g recv0 recv1) in
  valid_binary 24 128 (Pong.b_dx b) = true ->
  valid_binary 24 128 (Pong.b_dy b) = true ->
  SFabs (Pong.b_dx b') = SFabs (Pong.b_dx b)
  /\ SFabs (Pong.b_dy b') = SFabs (Pong.b_dy b)
  /\ valid_binary 24 128 (Pong.b_dx b') = true
  /\ valid_binary 24 128 (Pong.b_dy b') = true.
Proof.
  intros b b' Vx Vy. unfold b', Pong.before_scoring.
  destruct (Pong.handle_client _ _ _) as [q1 q2]. cbn [Pong.g_ball].
  fold b.
  set (b1 := Pong.move_ball b).
  assert (M : Pong.b_dx b1 = Pong.b_dx b /\ Pong.b_dy b1 = Pong.b_dy b).
  { unfold b1, Pong.move_ball. destruct (_ >? 0); auto. }
  destruct M as (Mx & My).
  set (b2 := Pong.bounce_walls b1).
  assert (W : Pong.b_dx b2 = Pong.b_dx b
              /\ (Pong.b_dy b2 = Pong.b_dy b
                  \/ Pong.b_dy b2 = Pong.flip (Pong.b_dy b))).
  { unfold b2, Pong.bounce_walls. destruct (_ || _); cbn; rewrite ?Mx, ?My;
      auto. }
  destruct W as (Wx & Wy).
  destruct (flip_abs _ Vx) as (Ax & Vfx).
  destruct (flip_abs _ Vy) as (Ay & Vfy).
  destruct (deflected_at_most_once
              (Pong.clamp_paddle (Pong.move_paddle q1))
              (Pong.clamp_paddle (Pong.move_paddle q2)) b2) as (-> & _).
  destruct (_ || _); cbn [Pong.flip_dx Pong.b_dx Pong.b_dy]; rewrite ?Wx;
    destruct Wy as [-> | ->]; auto.
Qed.

(** X8. Between two serves the ball keeps the magnitude of both velocity
    components: over any run of ticks during which [rand()] is not called,
    that is during which no point is scored, [|dx|] and [|dy|] are what they
    were, and so are the scores. The two components are taken to be
    [float]s, with a mantissa of 24 bits. *)
Theorem velocity_kept_between_serves (sinf cosf : spec_float -> spec_float)
  (recvs : list (option Pong.netbuf * option Pong.netbuf)) :
  forall g g',
    Play.ticks sinf cosf g recvs = Some g' ->
    List.length (Pong.g_draws g') = List.length (Pong.g_draws g) ->
    valid_binary 24 128 (Pong.b_dx (Pong.g_ball g)) = true ->
    valid_binary 24 128 (Pong.b_dy (Pong.g_ball g)) = true ->
    SFabs (Pong.b_dx (Pong.g_ball g')) = SFabs (Pong.b_dx (Pong.g_ball g))
    /\ SFabs (Pong.b_dy (Pong.g_ball g')) = SFabs (Pong.b_dy (Pong.g_ball g))
    /\ Pong.g_score1 g' = Pong.g_score1 g
    /\ Pong.g_score2 g' = Pong.g_score2 g.
Proof.
  induction recvs as [|[r0 r1] recvs IH]; intros g g' H Hl Vx Vy; cbn in H.
  - injection H as <-. auto.
  - destruct (Pong.tick sinf cosf g r0 r1) as [g1|] eqn:Et; [|discriminate].
    pose proof (ticks_draws_le _ _ _ _ _ H) as Hle.
    destruct (tick_serves_or_not _ _ _ _ _ _ Et) as [Hlt|E1]; [lia|].
    subst g1.
    destruct (before_scoring_frame g r0 r1)
      as (_ & _ & F1 & F2 & Fd & _).
    destruct (unserved_tick_velocity g r0 r1 Vx Vy) as (Ax & Ay & Vx' & Vy').
    destruct (IH _ _ H) as (Bx & By & S1 & S2); try assumption.
    { rewrite Fd. exact Hl. }
    rewrite Bx, By, S1, S2, Ax, Ay, F1, F2. auto.
Qed.

(** ** The broadcast *)

(** X9. In every state of the game loop the snapshot is written twice, the
    same bytes to the connection of player 1 and then to that of player 2.
    The game loop never changes the two connections: after any number of
    ticks, whatever the reads gave, the snapshot still goes to the same two
    connections. *)
Theorem broadcast_reaches_both (sinf cosf : spec_float -> spec_float)
  (g : Pong.Game) :
  Pong.reachable sinf cosf g ->
  exists h0 h1,
    Pong.broadcast g
    = [Pong.NetWrite h0 (Pong.state_line g);
       Pong.NetWrite h1 (Pong.state_line g)]
    /\ forall recvs g',
        Play.ticks sinf cosf g recvs = Some g' ->
        Pong.g_client0 g' = Pong.g_client0 g
        /\ Pong.g_client1 g' = Pong.g_client1 g
        /\ Pong.broadcast g'
           = [Pong.NetWrite h0 (Pong.state_line g');
              Pong.NetWrite h1 (Pong.state_line g')].
Proof.
  intros Hg.
  destruct (reachable_inv sinf cosf g Hg) as ((h0 & h1 & E0 & E1) & _).
  exists h0, h1.
  assert (Hb : forall g', Pong.g_client0 g' = Pong.g_client0 g ->
                          Pong.g_client1 g' = Pong.g_client1 g ->
                          Pong.broadcast g'
                          = [Pong.NetWrite h0 (Pong.state_line g');
                             Pong.NetWrite h1 (Pong.state_line g')]).
  { intros g' C0 C1. unfold Pong.broadcast, Pong.send_state.
    rewrite C0, C1, E0, E1. reflexivity. }
  split; [apply Hb; reflexivity|].
  intros recvs. revert g Hg E0 E1 Hb.
  induction recvs as [|[r0 r1] recvs IH]; intros g Hg E0 E1 Hb g' H;
    cbn in H.
  - injection H as <-. auto.
  - destruct (Pong.tick sinf cosf g r0 r1) as [g1|] eqn:Et; [|discriminate].
    destruct (tick_players _ _ _ _ _ _ Et) as (_ & _ & C0 & C1).
    assert (Hg1 : Pong.reachable sinf cosf g1)
      by (eapply Pong.reach_tick; eauto).
    destruct (IH g1 Hg1) with (g' := g') as (D0 & D1 & _); try congruence.
    { intros g2 C0' C1'. apply Hb; congruence. }
    split; [congruence|]. split; [congruence|]. apply Hb; congruence.
Qed.

(** ** The client's reassembly of lines *)

Lemma length_append (s t : string) :
  String.length (s ++ t) = (String.length s + String.length t)%nat.
Proof. induction s as [|c s IH]; cbn; [reflexivity|]. rewrite IH. reflexivity. Qed.

Lemma append_assoc (s t u : string) :
  ((s ++ t) ++ u = s ++ (t ++ u))%string.
Proof. induction s as [|c s IH]; cbn; [reflexivity|]. rewrite IH. reflexivity. Qed.

Lemma split_newline_some (s line rest : string) :
  Session.split_newline s = Some (line, rest) ->
  s = (line ++ CStr.LF ++ rest)%string
  /\ Session.split_newline line = None
  /\ (String.length rest < String.length s)%nat.
Proof.
  revert line rest. induction s as [|c s IH]; intros line rest H;
    cbn [Session.split_newline] in H; [discriminate|].
  destruct (Ascii.eqb c "010") eqn:Ec.
  - injection H as <- <-. apply Ascii.eqb_eq in Ec. subst c.
    cbn. auto.
  - destruct (Session.split_newline s) as [[l r]|]; [|discriminate].
    injection H as <- <-. destruct (IH _ _ eq_refl) as (-> & Hl & Hlen).
    cbn [Session.split_newline String.append String.length].
    rewrite Ec, Hl. repeat split. cbn in *. lia.
Qed.

Lemma split_newline_app (s t : string) :
  Session.split_newline (s ++ t)
  = match Session.split_newline s with
    | Some (line, rest) => Some (line, (rest ++ t)%string)
    | None =>
        match Session.split_newline t with
        | Some (line, rest) => Some ((s ++ line)%string, rest)
        | None => None
        end
    end.
Proof.
  induction s as [|c s IH]; cbn [String.append Session.split_newline].
  - destruct (Session.split_newline t) as [[l r]|]; reflexivity.
  - destruct (Ascii.eqb c "010"); [reflexivity|]. rewrite IH.
    destruct (Session.split_newline s) as [[l r]|]; [reflexivity|].
    destruct (Session.split_newline t) as [[l r]|]; reflexivity.
Qed.

(** Fuel beyond the length of the buffer makes no difference. *)
Lemma take_lines_fuel (f1 : nat) :
  forall f2 s,
    (String.length s <= f1)%nat -> (String.length s <= f2)%nat ->
    Session.take_lines f1 s = Session.take_lines f2 s.
Proof.
  induction f1 as [|f1 IH]; intros f2 s H1 H2.
  - destruct s; [|cbn in H1; lia]. destruct f2; reflexivity.
  - destruct f2 as [|f2].
    + destruct s; [reflexivity|cbn in H2; lia].
    + cbn [Session.take_lines].
      destruct (Session.split_newline s) as [[line rest]|] eqn:E;
        [|reflexivity].
      destruct (split_newline_some _ _ _ E) as (_ & _ & Hl).
      rewrite (IH f2 rest) by lia. reflexivity.
Qed.

(** The loop, run to its end, cuts the buffer at its newlines. *)
Lemma take_lines_spec (f : nat) :
  forall s ls rem,
    (String.length s <= f)%nat ->
    Session.take_lines f s = (ls, rem) ->
    s = String.concat CStr.LF (ls ++ [rem])
    /\ Session.split_newline rem = None
    /\ Forall (fun l => Session.split_newline l = None) ls.
Proof.
  induction f as [|f IH]; intros s ls rem Hf H.
  - destruct s; [|cbn in Hf; lia]. cbn in H. injection H as <- <-.
    repeat split; constructor.
  - cbn [Session.take_lines] in H.
    destruct (Session.split_newline s) as [[line rest]|] eqn:E.
    + destruct (split_newline_some _ _ _ E) as (-> & Hn & Hl).
      destruct (Session.take_lines f rest) as [ls' rem'] eqn:Er.
      injection H as <- <-.
      destruct (IH rest ls' rem' ltac:(lia) Er) as (Hs & Hr & Hls).
      split; [|split; [exact Hr|constructor; assumption]].
      cbn [List.app String.concat].
      destruct (ls' ++ [rem']) eqn:El; [destruct ls'; discriminate|].
      rewrite <- Hs. reflexivity.
    + injection H as <- <-. repeat split; auto.
Qed.

Lemma take_lines_step (f : nat) (s : string) :
  Session.take_lines (S f) s
  = match Session.split_newline s with
    | None => ([], s)
    | Some (line, rest) =>
        let '(ls, b) := Session.take_lines f rest in (line :: ls, b)
    end.
Proof. reflexivity. Qed.

(** What the loop leaves is no longer than what it was given. *)
Lemma take_lines_length (f : nat) (s : string) (ls : list string)
  (rem : string) :
  (String.length s <= f)%nat ->
  Session.take_lines f s = (ls, rem) ->
  (String.length rem <= String.length s)%nat.
Proof.
  intros Hf H. destruct (take_lines_spec f s ls rem Hf H) as (Hs & _).
  rewrite Hs. clear. revert rem.
  induction ls as [|l ls IHl]; intros rem; cbn [List.app String.concat].
  - lia.
  - destruct (ls ++ [rem]) eqn:El; [destruct ls; discriminate|].
    rewrite <- El, !length_append. specialize (IHl rem). lia.
Qed.

Lemma take_lines_app (n : nat) :
  forall s t f,
    (String.length s <= n)%nat -> (String.length (s ++ t) <= f)%nat ->
    Session.take_lines f (s ++ t)
    = (let '(l1, b1) := Session.take_lines n s in
       let '(l2, b2) := Session.take_lines f (b1 ++ t) in
       (l1 ++ l2, b2)).
Proof.
  induction n as [|n IH]; intros s t f Hn Hf.
  - destruct s; [|cbn in Hn; lia]. cbn [Session.take_lines String.append].
    destruct (Session.take_lines f t); reflexivity.
  - rewrite (take_lines_step n s).
    destruct (Session.split_newline s) as [[line rest]|] eqn:E.
    + destruct (split_newline_some _ _ _ E) as (Es & _ & Hl).
      destruct f as [|f].
      { subst s. rewrite !length_append in Hf. cbn in Hf. lia. }
      rewrite (take_lines_step f (s ++ t)), split_newline_app, E.
      assert (Hlen : (String.length (rest ++ t) <= f)%nat).
      { rewrite Es in Hf. rewrite !length_append in *.
        cbn in Hf. lia. }
      rewrite (IH rest t f) by lia.
      destruct (Session.take_lines n rest) as [l1 b1] eqn:E1.
      pose proof (take_lines_length n rest l1 b1 ltac:(lia) E1) as Hb.
      rewrite (take_lines_fuel f (S f) (b1 ++ t))
        by (rewrite length_append in *; lia).
      destruct (Session.take_lines (S f) (b1 ++ t)); reflexivity.
    + destruct (Session.take_lines f (s ++ t)); reflexivity.
Qed.

Lemma c_str_idem (s : string) : Session.c_str (Session.c_str s) = Session.c_str s.
Proof.
  induction s as [|c s IH]; cbn [Session.c_str]; [reflexivity|].
  destruct (Ascii.eqb c CStr.NUL) eqn:E; [reflexivity|].
  cbn [Session.c_str]. rewrite E, IH. reflexivity.
Qed.

Lemma c_str_app (s t : string) :
  Session.c_str s = s ->
  Session.c_str (s ++ t) = (s ++ Session.c_str t)%string.
Proof.
  induction s as [|c s IH]; cbn [Session.c_str String.append];
    [reflexivity|].
  destruct (Ascii.eqb c CStr.NUL); [discriminate|].
  intros H. injection H as H. rewrite IH by exact H. reflexivity.
Qed.

(** X10. The receive block cuts the stream at its newlines and loses
    nothing: the lines it hands to [process_game_state], in order, and what
    it keeps in [buffer], joined by newlines, are the old [buffer] followed
    by the bytes read (each up to its first [NUL]); no line and no kept
    remainder holds a newline. When [recv] returns nothing, [buffer] is not
    touched and no line is processed. [strcat] overruns [buffer] exactly
    when the two strings have 512 characters or more. *)
Theorem receive_cuts_at_newlines (buffer data : string) :
  (data = EmptyString -> Session.receive buffer data = Some ([], buffer))
  /\ (forall ls rem,
         data <> EmptyString ->
         Session.receive buffer data = Some (ls, rem) ->
         String.concat CStr.LF (ls ++ [rem])
         = (Session.c_str buffer ++ Session.c_str data)%string
         /\ Session.split_newline rem = None
         /\ Forall (fun l => Session.split_newline l = None) ls)
  /\ (data <> EmptyString ->
      (Session.receive buffer data = None
       <-> (512 <= String.length (Session.c_str buffer)
                   + String.length (Session.c_str data))%nat)).
Proof.
  split; [intros ->; reflexivity|]. split.
  - intros ls rem Hd H. unfold Session.receive in H.
    destruct data as [|c d]; [congruence|].
    destruct (_ <? _); [|discriminate]. injection H as H.
    destruct (take_lines_spec _ _ _ _ (Nat.le_refl _) H) as (Hs & Hr & Hl).
    auto.
  - intros Hd. unfold Session.receive.
    destruct data as [|c d]; [congruence|].
    rewrite <- length_append. unfold Session.BUFFER_SIZE.
    destruct (_ <? _) eqn:E.
    + apply Z.ltb_lt in E. split; [discriminate|]. lia.
    + apply Z.ltb_ge in E. split; [lia|reflexivity].
Qed.

(** X11. How the stream is cut into reads does not matter: when a read fits
    [buffer], so do two reads of its two pieces, the first without a [NUL];
    they hand over the same lines in the same order and leave the same
    remainder in [buffer]. *)
Theorem receive_in_pieces (buffer d1 d2 : string)
  (ls : list string) (rem : string) :
  d1 <> EmptyString -> d2 <> EmptyString ->
  Session.c_str d1 = d1 ->
  Session.receive buffer (d1 ++ d2) = Some (ls, rem) ->
  exists l1 b1 l2,
    Session.receive buffer d1 = Some (l1, b1)
    /\ Session.receive b1 d2 = Some (l2, rem)
    /\ ls = l1 ++ l2.
Proof.
  intros H1 H2 Hc. unfold Session.receive.
  destruct d1 as [|c1 r1]; [congruence|].
  destruct d2 as [|c2 r2]; [congruence|].
  cbn [String.append].
  set (d1 := String c1 r1) in *. set (d2 := String c2 r2) in *.
  change (String c1 (r1 ++ d2)) with (d1 ++ d2)%string.
  rewrite (c_str_app d1 d2 Hc), Hc, <- append_assoc.
  set (s := (Session.c_str buffer ++ d1)%string).
  unfold Session.BUFFER_SIZE.
  destruct (_ <? _) eqn:L; [|discriminate]. apply Z.ltb_lt in L.
  rewrite length_append in L.
  rewrite (take_lines_app (String.length s) s (Session.c_str d2) _
             (Nat.le_refl _) (Nat.le_refl _)).
  destruct (Session.take_lines (String.length s) s) as [l1 b1] eqn:E1.
  assert (Hb1 : Session.c_str b1 = b1).
  { destruct (take_lines_spec _ _ _ _ (Nat.le_refl _) E1) as (Hs & _).
    assert (Hcs : Session.c_str s = s).
    { unfold s. rewrite c_str_app by apply c_str_idem.
      rewrite Hc. reflexivity. }
    revert Hcs. rewrite Hs. clear. revert b1.
    induction l1 as [|l l1 IHl]; intros b1; cbn [List.app String.concat];
      [auto|].
    destruct (l1 ++ [b1]) eqn:El; [destruct l1; discriminate|].
    rewrite <- El. intros Hcs.
    apply IHl. revert Hcs. generalize (String.concat CStr.LF (l1 ++ [b1])).
    intros u. clear. induction l as [|c l IH];
      cbn [String.append Session.c_str CStr.LF].
    - change (Ascii.eqb "010" CStr.NUL) with false. intros H.
      injection H as H. exact H.
    - destruct (Ascii.eqb c CStr.NUL); [discriminate|].
      intros H. injection H as H. apply IH, H. }
  pose proof (take_lines_length _ _ _ _ (Nat.le_refl _) E1) as Hb.
  destruct (Session.take_lines _ (b1 ++ Session.c_str d2)) as [l2 b2] eqn:E2.
  intros H. injection H as <- <-.
  exists l1, b1, l2.
  assert (E : (Z.of_nat (String.length s) <? 256 * 2) = true)
    by (apply Z.ltb_lt; lia).
  rewrite E. split; [reflexivity|]. rewrite Hb1.
  assert (E' : (Z.of_nat (String.length (b1 ++ Session.c_str d2)) <? 256 * 2)
               = true)
    by (apply Z.ltb_lt; rewrite length_append; lia).
  rewrite E'.
  rewrite (take_lines_fuel _ (String.length (s ++ Session.c_str d2))
             (b1 ++ Session.c_str d2)) by (rewrite !length_append; lia).
  rewrite E2. auto.
Qed.

(** ** The stream between the two programs *)

Lemma plain_step (c : ascii) (r : string) :
  Session.plain (String c r)
  = negb (Ascii.eqb c CStr.NUL) && negb (Ascii.eqb c "010") && Session.plain r.
Proof. reflexivity. Qed.

Lemma plain_app (s t : string) :
  Session.plain (s ++ t) = Session.plain s && Session.plain t.
Proof.
  induction s as [|c s IH]; [reflexivity|].
  cbn [String.append]. rewrite !plain_step, IH, andb_assoc. reflexivity.
Qed.

Lemma plain_no_newline (s : string) :
  Session.plain s = true -> Session.split_newline s = None.
Proof.
  induction s as [|c s IH]; [reflexivity|].
  rewrite plain_step. cbn [Session.split_newline]. intros H.
  apply andb_prop in H. destruct H as (H & Hs).
  apply andb_prop in H. destruct H as (_ & Hc).
  apply negb_true_iff in Hc. rewrite Hc, (IH Hs). reflexivity.
Qed.

Lemma plain_no_nul (s : string) :
  Session.plain s = true -> CStr.no_nul s = true.
Proof.
  induction s as [|c s IH]; [reflexivity|].
  rewrite plain_step. cbn [CStr.no_nul]. intros H.
  apply andb_prop in H. destruct H as (H & Hs).
  apply andb_prop in H. destruct H as (Hc & _).
  rewrite Hc, (IH Hs). reflexivity.
Qed.

Lemma plain_of (s : string) :
  Session.split_newline s = None -> CStr.no_nul s = true ->
  Session.plain s = true.
Proof.
  induction s as [|c s IH]; [reflexivity|].
  rewrite plain_step. cbn [Session.split_newline CStr.no_nul]. intros H1 H2.
  apply andb_prop in H2. destruct H2 as (Hc & Hs). rewrite Hc.
  destruct (Ascii.eqb c "010"); [discriminate|].
  destruct (Session.split_newline s) as [[l r]|]; [discriminate|].
  rewrite IH by auto. reflexivity.
Qed.

Lemma no_nul_app (s t : string) :
  CStr.no_nul (s ++ t) = CStr.no_nul s && CStr.no_nul t.
Proof.
  induction s as [|c s IH]; [reflexivity|].
  cbn [String.append CStr.no_nul]. rewrite IH, andb_assoc. reflexivity.
Qed.

Lemma no_nul_c_str (s : string) :
  CStr.no_nul s = true -> Session.c_str s = s.
Proof.
  induction s as [|c s IH]; [reflexivity|].
  cbn [CStr.no_nul Session.c_str]. intros H.
  apply andb_prop in H. destruct H as (Hc & Hs).
  apply negb_true_iff in Hc. rewrite Hc, (IH Hs). reflexivity.
Qed.

(** A line followed by its newline is cut there. *)
Lemma split_newline_line (l r : string) :
  Session.split_newline l = None ->
  Session.split_newline (l ++ CStr.LF ++ r) = Some (l, r).
Proof.
  intros H. rewrite split_newline_app, H.
  change (Session.split_newline (CStr.LF ++ r)) with (Some (EmptyString, r)).
  cbv beta iota. f_equal. f_equal.
  clear. induction l as [|c l IH]; [reflexivity|]. cbn. rewrite IH. reflexivity.
Qed.

Lemma framed_no_nul (msgs : list string) :
  Forall (fun m => Session.plain m = true /\ (String.length m < 256)%nat) msgs ->
  CStr.no_nul
    (Session.stream (List.map (fun m => (m ++ CStr.LF)%string) msgs)) = true.
Proof.
  induction 1 as [|m ms (Hm & _) _ IH]; [reflexivity|].
  cbn [List.map Session.stream List.fold_right].
  change (List.fold_right String.append EmptyString ?l)
    with (Session.stream l).
  rewrite !no_nul_app, IH, (plain_no_nul m Hm). reflexivity.
Qed.

(** What is before the first newline of a stream is no longer than its first
    line. *)
Lemma plain_prefix_short (p : string) :
  forall m t r,
    Session.plain p = true ->
    (p ++ t = m ++ CStr.LF ++ r)%string ->
    (String.length p <= String.length m)%nat.
Proof.
  induction p as [|c p IH]; intros m t r Hp H; [cbn; lia|].
  rewrite plain_step in Hp.
  apply andb_prop in Hp. destruct Hp as (Hc & Hp).
  apply andb_prop in Hc. destruct Hc as (_ & Hc).
  destruct m as [|c' m].
  - cbn in H. injection H as -> _. discriminate.
  - cbn [String.append] in H. injection H as _ H.
    cbn [String.length]. specialize (IH m t r Hp H). lia.
Qed.

Lemma buffer_short (p t : string) (msgs : list string) :
  Forall (fun m => Session.plain m = true /\ (String.length m < 256)%nat) msgs ->
  Session.plain p = true ->
  (p ++ t)%string
  = Session.stream (List.map (fun m => (m ++ CStr.LF)%string) msgs) ->
  (String.length p < 256)%nat.
Proof.
  intros Hm Hp H. destruct Hm as [|m ms (_ & Hl) _].
  - destruct p; [cbn; lia|discriminate].
  - cbn [List.map Session.stream List.fold_right] in H.
    rewrite append_assoc in H.
    pose proof (plain_prefix_short p m t _ Hp H). lia.
Qed.

(** The lines cut from the front of a stream are its first lines. *)
Lemma lines_prefix (ls : list string) :
  forall rem t msgs,
    Forall (fun l => Session.split_newline l = None) ls ->
    Forall (fun m => Session.plain m = true /\ (String.length m < 256)%nat)
      msgs ->
    (String.concat CStr.LF (ls ++ [rem]) ++ t)%string
    = Session.stream (List.map (fun m => (m ++ CStr.LF)%string) msgs) ->
    exists msgs',
      msgs = ls ++ msgs'
      /\ (rem ++ t)%string
         = Session.stream (List.map (fun m => (m ++ CStr.LF)%string) msgs').
Proof.
  induction ls as [|l ls IH]; intros rem t msgs Hls Hm H.
  - exists msgs. auto.
  - inversion Hls as [|? ? Hl Hls']; subst.
    cbn [List.app String.concat] in H.
    destruct (ls ++ [rem]) as [|x xs] eqn:El; [destruct ls; discriminate|].
    rewrite <- El in H. rewrite !append_assoc in H.
    destruct Hm as [|m ms (Hp & Hlen) Hms].
    + destruct l; discriminate.
    + cbn [List.map Session.stream List.fold_right] in H.
      change (List.fold_right String.append EmptyString ?l)
        with (Session.stream l) in H.
      rewrite append_assoc in H.
      apply (f_equal Session.split_newline) in H.
      rewrite (split_newline_line l _ Hl) in H.
      rewrite (split_newline_line m _ (plain_no_newline m Hp)) in H.
      injection H as -> H.
      destruct (IH rem t ms Hls' Hms H) as (msgs' & -> & Hr).
      exists msgs'. auto.
Qed.

(** The receive blocks from a [buffer] that holds the start of a line. *)
Lemma receives_stream (reads : list string) :
  forall buffer msgs,
    Forall (fun m => Session.plain m = true /\ (String.length m < 256)%nat)
      msgs ->
    Forall (fun d => d <> EmptyString /\ (String.length d < 256)%nat) reads ->
    Session.plain buffer = true ->
    (buffer ++ Session.stream reads)%string
    = Session.stream (List.map (fun m => (m ++ CStr.LF)%string) msgs) ->
    Session.receives buffer reads = Some (msgs, EmptyString).
Proof.
  induction reads as [|d ds IH]; intros buffer msgs Hm Hr Hb H.
  - cbn [Session.stream List.fold_right] in H.
    destruct Hm as [|m ms (Hp & _) _].
    + cbn in H. destruct buffer; [reflexivity|discriminate].
    + exfalso.
      assert (N : Session.split_newline (buffer ++ EmptyString) = None).
      { rewrite split_newline_app, (plain_no_newline _ Hb). reflexivity. }
      rewrite H in N. cbn [List.map Session.stream List.fold_right] in N.
      rewrite append_assoc in N.
      rewrite (split_newline_line m _ (plain_no_newline m Hp)) in N.
      discriminate.
  - inversion Hr as [|? ? (Hd & Hdl) Hr']; subst.
    cbn [Session.stream List.fold_right] in H.
    change (List.fold_right String.append EmptyString ?l)
      with (Session.stream l) in H.
    pose proof (framed_no_nul msgs Hm) as Hn.
    rewrite <- H, !no_nul_app in Hn.
    apply andb_prop in Hn. destruct Hn as (_ & Hn).
    apply andb_prop in Hn. destruct Hn as (Hnd & Hnds).
    pose proof (buffer_short buffer _ msgs Hm Hb H) as Hbl.
    cbn [Session.receives]. unfold Session.receive.
    destruct d as [|c d]; [congruence|].
    set (data := String c d) in *.
    rewrite (no_nul_c_str _ (plain_no_nul _ Hb)), (no_nul_c_str _ Hnd).
    assert (E : (Z.of_nat (String.length (buffer ++ data))
                 <? Session.BUFFER_SIZE * 2) = true).
    { apply Z.ltb_lt. rewrite length_append. unfold Session.BUFFER_SIZE. lia. }
    rewrite E.
    destruct (Session.take_lines _ (buffer ++ data)) as [ls rem] eqn:Et.
    destruct (take_lines_spec _ _ _ _ (Nat.le_refl _) Et) as (Hs & Hrem & Hls).
    rewrite <- append_assoc, Hs in H.
    destruct (lines_prefix ls rem _ msgs Hls Hm H) as (msgs' & -> & H').
    apply Forall_app in Hm. destruct Hm as (_ & Hm').
    assert (Hp : Session.plain rem = true).
    { apply plain_of; [exact Hrem|].
      pose proof (framed_no_nul msgs' Hm') as Hn'.
      rewrite <- H', no_nul_app in Hn'.
      apply andb_prop in Hn'. apply Hn'. }
    rewrite (IH rem msgs' Hm' Hr' Hp H'). reflexivity.
Qed.

(** X12. The client gets every line the server wrote, whole and in order,
    however the transport cuts the stream: when the reads, each of 1 to 255
    bytes, make up lines of fewer than 256 characters without a [NUL], each
    ended by a newline, the receive blocks never overrun [buffer], hand
    exactly these lines to [process_game_state], in order, and leave
    [buffer] empty. *)
Theorem stream_reassembled (msgs reads : list string) :
  Forall (fun m => Session.plain m = true /\ (String.length m < 256)%nat)
    msgs ->
  Forall (fun d => d <> EmptyString /\ (String.length d < 256)%nat) reads ->
  Session.stream reads
  = Session.stream (List.map (fun m => (m ++ CStr.LF)%string) msgs) ->
  Session.receives EmptyString reads = Some (msgs, EmptyString).
Proof.
  intros Hm Hr H. apply receives_stream; auto.
Qed.

(** ** The snapshot fits the server's buffer *)

Lemma digit_plain (d : Z) :
  0 <= d < 10 ->
  negb (Ascii.eqb (Stdio.digit_char d) CStr.NUL)
  && negb (Ascii.eqb (Stdio.digit_char d) "010") = true.
Proof.
  revert d.
  apply (digit_cases
           (fun c => negb (Ascii.eqb c CStr.NUL) && negb (Ascii.eqb c "010")
                     = true)); reflexivity.
Qed.

Lemma plain_decimal_fuel (f : nat) :
  forall n acc,
    Session.plain (Stdio.decimal_fuel f n acc) = Session.plain acc.
Proof.
  induction f as [|f IH]; intros n acc; [reflexivity|].
  rewrite decimal_fuel_step.
  assert (E : Session.plain (String (Stdio.digit_char (n mod 10)) acc)
              = Session.plain acc).
  { rewrite plain_step, digit_plain; [reflexivity|].
    apply Z.mod_pos_bound. lia. }
  destruct (n <? 10); [exact E|]. rewrite IH. exact E.
Qed.

Lemma plain_fmt_d (z : Z) (acc : string) :
  Session.plain (Stdio.fmt_d z acc) = Session.plain acc.
Proof.
  unfold Stdio.fmt_d, Stdio.decimal, Stdio.sign_prefix.
  destruct (z <? 0); [rewrite plain_step|]; rewrite plain_decimal_fuel;
    reflexivity.
Qed.

Lemma plain_fmt_f2 (x : spec_float) (acc : string) :
  Session.plain (Stdio.fmt_f2 x acc) = Session.plain acc.
Proof.
  assert (F : forall h, Session.plain (Stdio.fixed2 h acc) = Session.plain acc).
  { intros h. unfold Stdio.fixed2, Stdio.decimal.
    rewrite plain_decimal_fuel, !plain_step.
    rewrite !digit_plain by (apply Z.mod_pos_bound; lia). reflexivity. }
  destruct x as [s|s| |s m e]; cbn [Stdio.fmt_f2]; unfold Stdio.sign_prefix.
  - destruct s; [rewrite plain_step|]; rewrite F; reflexivity.
  - destruct s; reflexivity.
  - reflexivity.
  - destruct s; [rewrite plain_step|]; rewrite F; reflexivity.
Qed.

Lemma plain_state_text (p1 p2 : Z) (bx by_ bdx bdy : spec_float)
  (s1 s2 timer : Z) (tail : string) :
  Session.plain (Pong.state_text p1 p2 bx by_ bdx bdy s1 s2 timer tail)
  = Session.plain tail.
Proof.
  unfold Pong.state_text. cbn [String.append].
  rewrite !plain_step.
  repeat (rewrite ?plain_fmt_d, ?plain_fmt_f2, ?plain_step).
  reflexivity.
Qed.

(** A number below [10^k] prints with at most [k] digits. *)
Lemma decimal_fuel_length (f : nat) :
  forall n k acc,
    (1 <= k)%nat -> n < 10 ^ Z.of_nat k ->
    (String.length (Stdio.decimal_fuel f n acc) <= k + String.length acc)%nat.
Proof.
  induction f as [|f IH]; intros n k acc Hk Hn; [cbn; lia|].
  rewrite decimal_fuel_step.
  destruct (n <? 10) eqn:E; [cbn [String.length]; lia|].
  apply Z.ltb_ge in E.
  destruct k as [|[|k]]; [lia|cbn in Hn; lia|].
  assert (Hd : n / 10 < 10 ^ Z.of_nat (S k)).
  { apply Z.div_lt_upper_bound; [lia|].
    replace (Z.of_nat (S (S k))) with (Z.succ (Z.of_nat (S k))) in Hn by lia.
    rewrite Z.pow_succ_r in Hn by lia. exact Hn. }
  pose proof (IH (n / 10) (S k)
                (String (Stdio.digit_char (n mod 10)) acc) ltac:(lia) Hd) as L.
  cbn [String.length] in L. lia.
Qed.

Lemma fmt_d_length (z : Z) (acc : string) :
  CInt.in_range z ->
  (String.length (Stdio.fmt_d z acc) <= 11 + String.length acc)%nat.
Proof.
  intros Hz. unfold CInt.in_range, CInt.INT_MIN, CInt.INT_MAX in Hz.
  unfold Stdio.fmt_d, Stdio.decimal, Stdio.sign_prefix.
  pose proof (decimal_fuel_length (S (Z.to_nat (Z.log2 (Z.abs z)))) (Z.abs z)
                10 acc ltac:(lia) ltac:(cbn; lia)) as L.
  destruct (z <? 0); cbn [String.length]; lia.
Qed.

Lemma fixed2_length (h : Z) (acc : string) :
  h < 10 ^ 12 ->
  (String.length (Stdio.fixed2 h acc) <= 13 + String.length acc)%nat.
Proof.
  intros Hh. unfold Stdio.fixed2, Stdio.decimal.
  assert (Hd : h / 100 < 10 ^ Z.of_nat 10).
  { apply Z.div_lt_upper_bound; [lia|].
    change (100 * 10 ^ Z.of_nat 10) with (10 ^ 12). exact Hh. }
  pose proof (decimal_fuel_length (S (Z.to_nat (Z.log2 (h / 100)))) (h / 100)
                10 (String "."
                      (String (Stdio.digit_char (h / 10 mod 10))
                         (String (Stdio.digit_char (h mod 10)) acc)))
                ltac:(lia) Hd) as L.
  cbn [String.length] in L. lia.
Qed.

Lemma fmt_f2_length (x : spec_float) (acc : string) :
  Play.moderate x ->
  (String.length (Stdio.fmt_f2 (F64.of_f32 x) acc)
   <= 14 + String.length acc)%nat.
Proof.
  unfold Play.moderate.
  destruct (F64.of_f32 x) as [s|s| |s m e]; intros H;
    cbn [Stdio.fmt_f2]; unfold Stdio.sign_prefix.
  - pose proof (fixed2_length 0 acc ltac:(lia)).
    destruct s; cbn [String.length]; lia.
  - destruct s; cbn [String.length String.append]; lia.
  - cbn [String.length String.append]; lia.
  - pose proof (fixed2_length _ acc H).
    destruct s; cbn [String.length]; lia.
Qed.

Lemma state_text_length (g : Pong.Game) (tail : string) :
  Pong.ints_in_range g -> Play.moderate_ball (Pong.g_ball g) ->
  (String.length
     (Pong.state_text (Pong.p_y (Pong.g_p1 g)) (Pong.p_y (Pong.g_p2 g))
        (F64.of_f32 (Pong.b_x (Pong.g_ball g)))
        (F64.of_f32 (Pong.b_y (Pong.g_ball g)))
        (F64.of_f32 (Pong.b_dx (Pong.g_ball g)))
        (F64.of_f32 (Pong.b_dy (Pong.g_ball g)))
        (Pong.g_score1 g) (Pong.g_score2 g)
        (Pong.b_serve_timer (Pong.g_ball g)) tail)
   <= 125 + String.length tail)%nat.
Proof.
  intros (H1 & H2 & H3 & H4 & H5) (M1 & M2 & M3 & M4).
  unfold Pong.state_text. cbn [String.append String.length].
  match goal with
  | |- (?len <= _)%nat =>
      let rec bound t :=
        lazymatch t with
        | S ?n => bound n
        | String.length ?s => bound s
        | String _ ?r => bound r
        | Stdio.fmt_d ?z ?acc =>
            bound acc; pose proof (fmt_d_length z acc ltac:(assumption))
        | Stdio.fmt_f2 (F64.of_f32 ?x) ?acc =>
            bound acc; pose proof (fmt_f2_length x acc ltac:(assumption))
        | _ => idtac
        end in
      bound len
  end.
  cbn [String.length] in *.
  lia.
Qed.

(** Under these bounds [state] holds the whole text. *)
Lemma state_line_text (g : Pong.Game) :
  Pong.ints_in_range g -> Play.moderate_ball (Pong.g_ball g) ->
  Pong.state_line g
  = Pong.state_text (Pong.p_y (Pong.g_p1 g)) (Pong.p_y (Pong.g_p2 g))
      (F64.of_f32 (Pong.b_x (Pong.g_ball g)))
      (F64.of_f32 (Pong.b_y (Pong.g_ball g)))
      (F64.of_f32 (Pong.b_dx (Pong.g_ball g)))
      (F64.of_f32 (Pong.b_dy (Pong.g_ball g)))
      (Pong.g_score1 g) (Pong.g_score2 g)
      (Pong.b_serve_timer (Pong.g_ball g)) CStr.LF.
Proof.
  intros Hi Hm.
  pose proof (state_text_length g CStr.LF Hi Hm) as L1.
  cbn [String.length CStr.LF] in L1.
  unfold Pong.state_line, Stdio.snprintf.
  change (Stdio.format Pong.state_format (Pong.state_args g))
    with (Pong.state_text (Pong.p_y (Pong.g_p1 g)) (Pong.p_y (Pong.g_p2 g))
            (F64.of_f32 (Pong.b_x (Pong.g_ball g)))
            (F64.of_f32 (Pong.b_y (Pong.g_ball g)))
            (F64.of_f32 (Pong.b_dx (Pong.g_ball g)))
            (F64.of_f32 (Pong.b_dy (Pong.g_ball g)))
            (Pong.g_score1 g) (Pong.g_score2 g)
            (Pong.b_serve_timer (Pong.g_ball g)) CStr.LF).
  apply take_all. cbn [Nat.pred]. lia.
Qed.

(** X13. The snapshot is never cut by the 128 bytes of [state]: when the five
    integers are [int]s and each ball field, to two decimals, has at most
    ten digits before the point, what [snprintf] leaves in [state] is all
    the format asks for, at most 126 characters, the last of them the only
    newline, and none of them a [NUL]. *)
Theorem snapshot_fits_the_buffer (g : Pong.Game) :
  Pong.ints_in_range g -> Play.moderate_ball (Pong.g_ball g) ->
  exists body,
    Pong.state_line g = (body ++ CStr.LF)%string
    /\ Pong.state_line g = Stdio.format Pong.state_format (Pong.state_args g)
    /\ Session.plain body = true
    /\ (String.length body <= 125)%nat.
Proof.
  intros Hi Hm.
  pose proof (state_text_length g EmptyString Hi Hm) as L0.
  pose proof (state_line_text g Hi Hm) as El.
  eexists. split; [|split; [|split]].
  - rewrite El.
    change CStr.LF with (EmptyString ++ CStr.LF)%string at 1.
    rewrite state_text_app. reflexivity.
  - rewrite El. reflexivity.
  - apply plain_state_text.
  - exact L0.
Qed.

(** X14. Snapshots cross the stream: the lines the server wrote in
    consecutive ticks, cut by the transport into reads of 1 to 255 bytes at
    any places, reach [process_game_state] one by one and in order; each is
    accepted and comes out as the paddles, scores and countdown of its tick,
    with the ball fields rounded to two decimals, and [buffer] is empty at
    the end. *)
Theorem snapshots_cross_the_stream (gs : list Pong.Game)
  (reads : list string) :
  Forall (fun g => Pong.ints_in_range g /\ Play.moderate_ball (Pong.g_ball g))
    gs ->
  Forall (fun d => d <> EmptyString /\ (String.length d < 256)%nat) reads ->
  Session.stream reads = Session.stream (List.map Pong.state_line gs) ->
  exists ls,
    Session.receives EmptyString reads = Some (ls, EmptyString)
    /\ Forall2
         (fun g line =>
            forall state predicted time,
              Client.process_game_state line state predicted time
              = (1,
                 Client.mkGameState (Client.is_player1 state)
                   (Pong.p_y (Pong.g_p1 g)) (Pong.p_y (Pong.g_p2 g))
                   (Pong.g_score1 g) (Pong.g_score2 g)
                   (Pong.b_serve_timer (Pong.g_ball g)),
                 Client.mkPredicted
                   (Stdio.two_decimals (F64.of_f32 (Pong.b_x (Pong.g_ball g))))
                   (Stdio.two_decimals (F64.of_f32 (Pong.b_y (Pong.g_ball g))))
                   (Stdio.two_decimals (F64.of_f32 (Pong.b_dx (Pong.g_ball g))))
                   (Stdio.two_decimals (F64.of_f32 (Pong.b_dy (Pong.g_ball g))))
                   time 1))
         gs ls.
Proof.
  intros Hg Hr H.
  set (body := fun g =>
         Pong.state_text (Pong.p_y (Pong.g_p1 g)) (Pong.p_y (Pong.g_p2 g))
           (F64.of_f32 (Pong.b_x (Pong.g_ball g)))
           (F64.of_f32 (Pong.b_y (Pong.g_ball g)))
           (F64.of_f32 (Pong.b_dx (Pong.g_ball g)))
           (F64.of_f32 (Pong.b_dy (Pong.g_ball g)))
           (Pong.g_score1 g) (Pong.g_score2 g)
           (Pong.b_serve_timer (Pong.g_ball g)) EmptyString).
  exists (List.map body gs). split.
  - apply receives_stream; [| exact Hr | reflexivity |].
    + clear H. induction Hg as [|g gs' (Hi & Hm) _ IH]; constructor; auto.
      split; [apply plain_state_text|].
      pose proof (state_text_length g EmptyString Hi Hm) as L.
      cbn [String.length] in L. unfold body. lia.
    + cbn [String.append]. rewrite H. f_equal. clear H.
      induction Hg as [|g gs' (Hi & Hm) _ IH]; [reflexivity|].
      cbn [List.map]. rewrite IH, (state_line_text g Hi Hm). f_equal.
      unfold body.
      change CStr.LF with (EmptyString ++ CStr.LF)%string at 1.
      rewrite state_text_app. reflexivity.
  - clear H. induction Hg as [|g gs' (Hi & Hm) _ IH]; constructor; auto.
    intros state predicted time. destruct Hi as (H1 & H2 & H3 & H4 & H5).
    unfold Client.process_game_state, body.
    rewrite sscanf_state_text by (try assumption; reflexivity).
    reflexivity.
Qed.

(** ** A turn of the client's loop *)

(** [process_game_state] never changes the side the client plays. *)
Lemma process_game_state_side (line : string) (state : Client.GameState)
  (predicted : Client.PredictedBall) (time : spec_float) :
  Client.is_player1 (snd (fst (Client.process_game_state line state predicted
                                 time)))
  = Client.is_player1 state.
Proof.
  destruct (Z.eq_dec (fst (Stdio.sscanf Client.state_format line []))
              Client.SERVER_EXPECTED_MESSAGES) as [E|E].
  - destruct (process_game_state_accepts line state predicted time E)
      as (a & b & c & d & e & f & g & h & i & _ & ->). reflexivity.
  - unfold Client.process_game_state.
    destruct (Stdio.sscanf Client.state_format line []) as [parsed args].
    cbn [fst] in E. apply Z.eqb_neq in E.
    repeat match goal with
           | |- context [match ?l with _ => _ end] =>
               lazymatch type of l with
               | bool => rewrite E
               | _ => destruct l
               end; try reflexivity
           end.
Qed.

(** An incomplete line changes nothing. *)
Lemma process_game_state_rejects (line : string) (state : Client.GameState)
  (predicted : Client.PredictedBall) (time : spec_float) :
  Session.complete line = false ->
  Client.process_game_state line state predicted time = (0, state, predicted).
Proof.
  unfold Session.complete, Client.process_game_state.
  destruct (Stdio.sscanf Client.state_format line []) as [parsed args].
  cbn [fst]. intros E.
  repeat match goal with
         | |- match ?l with _ => _ end = _ =>
             lazymatch type of l with
             | bool => rewrite E
             | _ => destruct l
             end; try reflexivity
         end.
Qed.

(** A complete line overwrites all but the side. *)
Lemma process_game_state_forgets (line : string)
  (s1 s2 : Client.GameState) (p1 p2 : Client.PredictedBall)
  (time : spec_float) :
  Session.complete line = true ->
  Client.is_player1 s1 = Client.is_player1 s2 ->
  Client.process_game_state line s1 p1 time
  = Client.process_game_state line s2 p2 time.
Proof.
  unfold Session.complete. intros E Hs. apply Z.eqb_eq in E.
  destruct (process_game_state_accepts line s1 p1 time E)
    as (a & b & c & d & e & f & g & h & i & Es & ->).
  destruct (process_game_state_accepts line s2 p2 time E)
    as (a' & b' & c' & d' & e' & f' & g' & h' & i' & Es' & ->).
  rewrite Es in Es'. injection Es' as <- <- <- <- <- <- <- <- <-.
  rewrite Hs. reflexivity.
Qed.

Lemma process_lines_side (ls : list (string * spec_float)) :
  forall state predicted,
    Client.is_player1 (fst (Client.process_lines ls state predicted))
    = Client.is_player1 state.
Proof.
  induction ls as [|[l t] ls IH]; intros state predicted; [reflexivity|].
  cbn [Client.process_lines].
  pose proof (process_game_state_side l state predicted t) as Hs.
  destruct (Client.process_game_state l state predicted t) as [[r s] p].
  cbn [fst snd] in Hs. rewrite IH. exact Hs.
Qed.

Lemma process_lines_rejected (clock : nat -> spec_float) (ls : list string) :
  forall k state predicted,
    List.forallb (fun l => negb (Session.complete l)) ls = true ->
    Client.process_lines (Session.stamp clock k ls) state predicted
    = (state, predicted).
Proof.
  induction ls as [|l ls IH]; intros k state predicted H; [reflexivity|].
  cbn [List.forallb] in H. apply andb_prop in H. destruct H as (Hl & H).
  apply negb_true_iff in Hl.
  cbn [Session.stamp Client.process_lines].
  rewrite (process_game_state_rejects l state predicted _ Hl).
  apply IH, H.
Qed.

Lemma process_lines_last (clock : nat -> spec_float) (before : list string) :
  forall k l after state predicted,
    Session.complete l = true ->
    List.forallb (fun l => negb (Session.complete l)) after = true ->
    (1, fst (Client.process_lines (Session.stamp clock k (before ++ l :: after))
               state predicted),
     snd (Client.process_lines (Session.stamp clock k (before ++ l :: after))
            state predicted))
    = Client.process_game_state l state predicted
        (clock (k + List.length before)%nat).
Proof.
  induction before as [|b before IH]; intros k l after state predicted Hl Ha.
  - cbn [List.app Session.stamp Client.process_lines List.length].
    rewrite Nat.add_0_r.
    unfold Session.complete in Hl. apply Z.eqb_eq in Hl.
    destruct (process_game_state_accepts l state predicted (clock k) Hl)
      as (a' & b' & c' & d' & e' & f' & g' & h' & i' & _ & ->).
    rewrite (process_lines_rejected clock after _ _ _ Ha). reflexivity.
  - cbn [List.app Session.stamp Client.process_lines List.length].
    pose proof (process_game_state_side b state predicted (clock k)) as Hs.
    destruct (Client.process_game_state b state predicted (clock k))
      as [[r s] p].
    cbn [fst snd] in Hs.
    rewrite (IH (S k) l after s p Hl Ha).
    replace (S k + List.length before)%nat
      with (k + S (List.length before))%nat by lia.
    apply process_game_state_forgets; assumption.
Qed.

(** X15. A turn of the main loop never changes the side the client plays;
    when none of the lines completed in it is a full [STATE] message, the
    game state is what it was and the prediction is what the prediction
    block made of it; otherwise the last full message of the turn decides
    both, whatever the state, the prediction and the lines before it were. *)
Theorem frame_applies_last_snapshot (now frame_time : spec_float)
  (keys : Client.Keys) (clock : nat -> spec_float) (data buffer : string)
  (state : Client.GameState) (predicted : Client.PredictedBall)
  (msg buffer' : string) (state' : Client.GameState)
  (predicted' : Client.PredictedBall) :
  Session.main_frame now frame_time keys clock data buffer state predicted
  = Some (msg, buffer', state', predicted') ->
  exists ls,
    Session.receive buffer data = Some (ls, buffer')
    /\ msg = Client.handle_input keys state
    /\ Client.is_player1 state' = Client.is_player1 state
    /\ (List.forallb (fun l => negb (Session.complete l)) ls = true ->
        state' = state
        /\ predicted' = Client.predict now frame_time predicted)
    /\ (forall before l after,
           ls = before ++ l :: after ->
           Session.complete l = true ->
           List.forallb (fun l => negb (Session.complete l)) after = true ->
           (1, state', predicted')
           = Client.process_game_state l state predicted
               (clock (List.length before))).
Proof.
  unfold Session.main_frame. intros H.
  destruct (Session.receive buffer data) as [[ls b]|]; [|discriminate].
  destruct (Client.process_lines (Session.stamp clock 0 ls) state
              (Client.predict now frame_time predicted)) as [s p] eqn:E.
  injection H as <- <- <- <-.
  exists ls. split; [reflexivity|]. split; [reflexivity|]. split; [|split].
  - pose proof (process_lines_side (Session.stamp clock 0 ls) state
                  (Client.predict now frame_time predicted)) as Hs.
    rewrite E in Hs. exact Hs.
  - intros Hr. rewrite (process_lines_rejected clock ls 0 _ _ Hr) in E.
    injection E as <- <-. auto.
  - intros before l after -> Hl Ha.
    pose proof (process_lines_last clock before 0 l after state
                  (Client.predict now frame_time predicted) Hl Ha) as L.
    rewrite E in L. cbn [fst snd Nat.add] in L. rewrite L.
    apply process_game_state_forgets; [exact Hl|reflexivity].
Qed.

(** ** [draw_game] *)

(** A paddle row of the server is 25 pixels of the window. *)
Lemma paddle_pixels (y : Z) :
  0 <= y <= 20 ->
  Render.int_of_float
    (Render.scale (F32.of_int y) Render.SERVER_HEIGHT Render.SCREEN_HEIGHT)
  = 25 * y.
Proof.
  intros Hy.
  assert (T : List.forallb
                (fun n =>
                   Render.int_of_float
                     (Render.scale (F32.of_int (Z.of_nat n))
                        Render.SERVER_HEIGHT Render.SCREEN_HEIGHT)
                   =? 25 * Z.of_nat n) (List.seq 0 21) = true)
    by (vm_compute; reflexivity).
  rewrite List.forallb_forall in T.
  specialize (T (Z.to_nat y)). rewrite Z2Nat.id in T by lia.
  apply Z.eqb_eq, T, List.in_seq. lia.
Qed.

Lemma paddle_columns :
  Render.int_of_float
    (Render.scale (F32.of_int Render.SERVER_PADDLE_OFFSET_X)
       Render.SERVER_WIDTH Render.SCREEN_WIDTH) = 20
  /\ Render.int_of_float
       (Render.scale
          (F32.of_int (Render.SERVER_WIDTH - Render.SERVER_PADDLE_OFFSET_X
                       - Render.SERVER_PADDLE_WIDTH))
          Render.SERVER_WIDTH Render.SCREEN_WIDTH) = 760.
Proof. split; vm_compute; reflexivity. Qed.

(** The dashed line: twenty rectangles, all inside the window, and nothing
    else. *)
Lemma dashes_on_screen :
  Forall Render.on_screen
    (Render.dashes (Z.to_nat Render.SCREEN_HEIGHT) 0)
  /\ List.length (Render.dashes (Z.to_nat Render.SCREEN_HEIGHT) 0) = 20%nat.
Proof.
  set (ds := Render.dashes _ 0). vm_compute in ds. subst ds.
  split; [|reflexivity].
  repeat (apply Forall_cons;
          [cbn [Render.on_screen];
           unfold Render.SCREEN_WIDTH, Render.SCREEN_HEIGHT; lia|]).
  apply Forall_nil.
Qed.

Lemma dashes_rectangles (fuel : nat) :
  forall i,
    List.filter Render.is_ball (Render.dashes fuel i) = []
    /\ List.filter Render.is_countdown (Render.dashes fuel i) = [].
Proof.
  induction fuel as [|fuel IH]; intros i; [cbn; auto|].
  cbn [Render.dashes].
  destruct (i <? Render.SCREEN_HEIGHT); [|cbn; auto].
  cbn [List.filter Render.is_ball Render.is_countdown]. apply IH.
Qed.

(** X16. The paddles are drawn where the server has them: a paddle at row
    [y] of the server's 24, between 0 and 20, is a white rectangle of 20 by
    100 pixels at pixel row [25 * y], in column 20 for player 1 and 760 for
    player 2; these two rectangles and the twenty dashes of the centre line
    are inside the window of 800 by 600. *)
Theorem paddles_drawn_in_window (state : Client.GameState)
  (predicted : Client.PredictedBall) (last_input : option string) :
  0 <= Client.p1_y state <= 20 -> 0 <= Client.p2_y state <= 20 ->
  (exists rest,
      Render.draw_game state predicted last_input
      = Render.BeginDrawing :: Render.ClearBackground Render.BLACK
        :: Render.DrawRectangle 20 (25 * Client.p1_y state) 20 100 Render.WHITE
        :: Render.DrawRectangle 760 (25 * Client.p2_y state) 20 100
             Render.WHITE
        :: rest)
  /\ Forall Render.on_screen (Render.draw_game state predicted last_input).
Proof.
  intros H1 H2. unfold Render.draw_game. cbv zeta.
  destruct paddle_columns as (-> & ->).
  rewrite (paddle_pixels _ H1), (paddle_pixels _ H2).
  split; [eexists; reflexivity|].
  rewrite !Forall_app.
  split; [|split; [|split; [|split; [|split; [|split]]]]].
  - repeat (apply Forall_cons;
            [cbn [Render.on_screen];
             unfold Render.SCREEN_WIDTH, Render.SCREEN_HEIGHT,
               Render.PADDLE_WIDTH, Render.PADDLE_HEIGHT; lia|]).
    apply Forall_nil.
  - destruct (_ <=? _); repeat constructor.
  - repeat constructor.
  - apply dashes_on_screen.
  - destruct (_ >? _); repeat constructor.
  - destruct last_input; repeat constructor.
  - repeat constructor.
Qed.

Lemma score_texts (s : string) (f : Z) (c : Render.Color) :
  Render.is_countdown (Render.DrawText s (Z.quot Render.SCREEN_WIDTH 4) 30 f c)
  = false
  /\ Render.is_countdown
       (Render.DrawText s (Z.quot (3 * Render.SCREEN_WIDTH) 4) 30 f c) = false
  /\ Render.is_countdown
       (Render.DrawText s 10 (Render.SCREEN_HEIGHT - 30) f c) = false
  /\ Render.is_countdown
       (Render.DrawText s (Z.quot Render.SCREEN_WIDTH 2 - 10)
          (Z.quot Render.SCREEN_HEIGHT 2 - 20) f c) = true.
Proof. repeat split. Qed.

(** X17. Each frame shows either the ball or the countdown, never both and
    never neither: with [serve_timer <= 0] one circle of radius 15 and no
    countdown, with [serve_timer > 0] no circle and one number at the centre
    of the window, the [k] with [30 (k - 1) < serve_timer <= 30 k]; it is at
    most 6 while the timer is at most 180. *)
Theorem ball_or_countdown (state : Client.GameState)
  (predicted : Client.PredictedBall) (last_input : option string) :
  let ds := Render.draw_game state predicted last_input in
  let t := Client.serve_timer state in
  (t <= 0 ->
   List.filter Render.is_countdown ds = []
   /\ exists cx cy,
       List.filter Render.is_ball ds
       = [Render.DrawCircle cx cy (F32.of_int 15) Render.WHITE])
  /\ (0 < t -> t + 29 <= CInt.INT_MAX ->
      List.filter Render.is_ball ds = []
      /\ exists k,
          30 * (k - 1) < t <= 30 * k
          /\ (t <= 180 -> k <= 6)
          /\ List.filter Render.is_countdown ds
             = [Render.DrawText (Stdio.fmt_d k EmptyString) 390 280 40
                  Render.WHITE]).
Proof.
  intros ds t. subst ds. unfold Render.draw_game. cbv zeta. fold t.
  clearbody t.
  rewrite !List.filter_app.
  destruct (dashes_rectangles (Z.to_nat Render.SCREEN_HEIGHT) 0) as (-> & ->).
  assert (L : forall o : option string,
             List.filter Render.is_ball
               match o with
               | Some msg =>
                   [Render.DrawText ("Last input: " ++ msg) 10
                      (Render.SCREEN_HEIGHT - 30) 20 Render.GREEN]
               | None => []
               end = []
             /\ List.filter Render.is_countdown
                  match o with
                  | Some msg =>
                      [Render.DrawText ("Last input: " ++ msg) 10
                         (Render.SCREEN_HEIGHT - 30) 20 Render.GREEN]
                  | None => []
                  end = []).
  { intros [msg|]; split; reflexivity. }
  destruct (L last_input) as (-> & ->). clear L.
  split.
  - intros Ht.
    assert (E1 : (t <=? 0) = true) by (apply Z.leb_le; lia).
    assert (E2 : (t >? 0) = false) by (rewrite Z.gtb_ltb; apply Z.ltb_ge; lia).
    rewrite E1, E2. split; [reflexivity|].
    eexists; eexists. reflexivity.
  - intros Ht Hmax.
    assert (E1 : (t <=? 0) = false) by (apply Z.leb_gt; lia).
    assert (E2 : (t >? 0) = true) by (rewrite Z.gtb_ltb; apply Z.ltb_lt; lia).
    rewrite E1, E2. split; [reflexivity|].
    assert (W : CInt.wrap (t + 29) = t + 29).
    { apply wrap_id. unfold CInt.in_range, CInt.INT_MIN, CInt.INT_MAX in *.
      lia. }
    rewrite W, (Z.quot_div_nonneg (t + 29) 30) by lia.
    exists ((t + 29) / 30).
    pose proof (Z.div_mod (t + 29) 30 ltac:(lia)) as Hd.
    pose proof (Z.mod_pos_bound (t + 29) 30 ltac:(lia)) as Hm.
    split; [lia|]. split; [lia|]. reflexivity.
Qed.

(** ** The further properties on the runs of [Example] and [Scenario] *)

(** X2 for player 1 on an empty lobby. *)
Lemma hello_names_the_player_witness :
  Session.start 1
  = Some (("HELLO:1" ++ CStr.LF)%string, Example.fresh_state)
  /\ Pong.accept_one Pong.lobby_init 1%positive
       (Some (Example.hello "1"))
     = (Scenario.half_lobby,
        [Pong.NetWrite 1%positive ("WELCOME 1" ++ CStr.LF)%string]).
Proof.
  split; [reflexivity|].
  destruct (hello_names_the_player 1) as (_ & H).
  destruct (H _ _ eq_refl) as (_ & H').
  destruct (H' EmptyString EmptyString Pong.lobby_init 1%positive)
    as (_ & _ & Hfree & _).
  exact (Hfree eq_refl).
Defined.

(** X3 on the three connections of the handshake. *)
Lemma accept_loop_accounts_witness :
  Pong.accept_loop Pong.lobby_init Example.arrivals
  = (Example.lobby, Example.answers, [])
  /\ Play.writes Example.answers = 2.
Proof.
  assert (H : Pong.accept_loop Pong.lobby_init Example.arrivals
              = (Example.lobby, Example.answers, []))
    by reflexivity.
  split; [exact H|].
  destruct (accept_loop_accounts _ _ _ _ H) as (_ & W & _).
  exact W.
Defined.

(** X4: the second claim for player 1 does not take the slot. *)
Lemma bound_slot_is_kept_witness :
  Pong.accept_loop Pong.lobby_init Scenario.first_arrival
  = (Scenario.half_lobby,
     [Pong.NetWrite 1%positive ("WELCOME 1" ++ CStr.LF)%string], [])
  /\ Pong.accept_loop Scenario.half_lobby Scenario.later_arrivals
     = (Example.lobby,
        [Pong.NetClose 2%positive; Pong.NetDelete 2%positive;
         Pong.NetWrite 3%positive ("WELCOME 2" ++ CStr.LF)%string], [])
  /\ Pong.l_client0 Example.lobby = Pong.l_client0 Scenario.half_lobby.
Proof.
  assert (H1 : Pong.accept_loop Pong.lobby_init Scenario.first_arrival
               = (Scenario.half_lobby,
                  [Pong.NetWrite 1%positive ("WELCOME 1" ++ CStr.LF)%string],
                  [])) by reflexivity.
  assert (H2 : Pong.accept_loop Scenario.half_lobby Scenario.later_arrivals
               = (Example.lobby,
                  [Pong.NetClose 2%positive; Pong.NetDelete 2%positive;
                   Pong.NetWrite 3%positive ("WELCOME 2" ++ CStr.LF)%string],
                  [])) by reflexivity.
  split; [exact H1|]. split; [exact H2|].
  exact (proj1 (bound_slot_is_kept _ _ _ _ _ _ _ _ H1 H2) 1%positive eq_refl).
Defined.


(** X6 on the first two ticks of the game. *)
Lemma serve_pause_witness :
  Pong.reachable Taylor.sinf Taylor.cosf Example.start
  /\ exists g',
      Play.ticks Taylor.sinf Taylor.cosf Example.start
        [(Example.message "INPUT:UP", None); (None, None)] = Some g'
      /\ Pong.b_serve_timer (Pong.g_ball g') = 178
      /\ Pong.b_x (Pong.g_ball g') = F32.of_int 40.
Proof.
  split; [exact start_reachable|].
  destruct (serve_pause Taylor.sinf Taylor.cosf Example.start
              [(Example.message "INPUT:UP", None); (None, None)]
              start_reachable ltac:(vm_compute; discriminate))
    as (g' & Et & Eb & _).
  exists g'. split; [exact Et|]. rewrite Eb. split; reflexivity.
Defined.

(** X7: the ball of [Scenario.rally], moved to [x = 4], is turned round by
    paddle 1 and left alone by paddle 2. *)
Lemma deflected_at_most_once_witness :
  Play.hits_paddle1 (Pong.g_p1 Scenario.rally)
    (Pong.move_ball (Pong.g_ball Scenario.rally)) = true
  /\ Pong.b_dx
       (Pong.paddle2_collision (Pong.g_p2 Scenario.rally)
          (Pong.paddle1_collision (Pong.g_p1 Scenario.rally)
             (Pong.move_ball (Pong.g_ball Scenario.rally))))
     = F32.lit false 1 4.
Proof.
  split; [vm_compute; reflexivity|].
  rewrite (proj1 (deflected_at_most_once (Pong.g_p1 Scenario.rally)
                    (Pong.g_p2 Scenario.rally)
                    (Pong.move_ball (Pong.g_ball Scenario.rally)))).
  vm_compute. reflexivity.
Defined.

(** X8: the ball of [Scenario.rally] comes back from paddle 1 as fast as it
    went. *)
Lemma velocity_kept_between_serves_witness :
  exists g',
    Play.ticks Taylor.sinf Taylor.cosf Scenario.rally (Play.silence 2)
    = Some g'
    /\ Pong.b_dx (Pong.g_ball g') = F32.lit false 1 4
    /\ SFabs (Pong.b_dx (Pong.g_ball g'))
       = SFabs (Pong.b_dx (Pong.g_ball Scenario.rally)).
Proof.
  destruct (Play.ticks Taylor.sinf Taylor.cosf Scenario.rally
              (Play.silence 2)) as [g'|] eqn:E;
    [|vm_compute in E; discriminate].
  exists g'. split; [reflexivity|].
  split; [vm_compute in E; injection E as <-; reflexivity|].
  apply (velocity_kept_between_serves Taylor.sinf Taylor.cosf
           (Play.silence 2) Scenario.rally g' E).
  - vm_compute in E. injection E as <-. reflexivity.
  - reflexivity.
  - reflexivity.
Defined.

(** X9 at the first state of the game. *)
Lemma broadcast_reaches_both_witness :
  Pong.reachable Taylor.sinf Taylor.cosf Example.start
  /\ exists h0 h1,
      Pong.broadcast Example.start
      = [Pong.NetWrite h0 (Pong.state_line Example.start);
         Pong.NetWrite h1 (Pong.state_line Example.start)].
Proof.
  split; [exact start_reachable|].
  destruct (broadcast_reaches_both Taylor.sinf Taylor.cosf Example.start
              start_reachable) as (h0 & h1 & E & _).
  exists h0, h1. exact E.
Defined.

(** X10: two lines are completed and the start of a third is kept. *)
Lemma receive_cuts_at_newlines_witness :
  Session.receive "ab" ("c" ++ CStr.LF ++ "de" ++ CStr.LF ++ "f")
  = Some (["abc"; "de"]%string, "f"%string)
  /\ Session.split_newline "f" = None.
Proof.
  assert (H : Session.receive "ab" ("c" ++ CStr.LF ++ "de" ++ CStr.LF ++ "f")
              = Some (["abc"; "de"]%string, "f"%string)) by reflexivity.
  split; [exact H|].
  destruct (receive_cuts_at_newlines "ab"
              ("c" ++ CStr.LF ++ "de" ++ CStr.LF ++ "f"))
    as (_ & Hcut & _).
  exact (proj1 (proj2 (Hcut _ _ ltac:(discriminate) H))).
Defined.

(** X11: a read cut in the middle of a line. *)
Lemma receive_in_pieces_witness :
  Session.receive "ab" (("c" ++ CStr.LF ++ "d") ++ ("e" ++ CStr.LF ++ "f"))
  = Some (["abc"; "de"]%string, "f"%string)
  /\ exists l1 b1 l2,
      Session.receive "ab" ("c" ++ CStr.LF ++ "d") = Some (l1, b1)
      /\ Session.receive b1 ("e" ++ CStr.LF ++ "f") = Some (l2, "f"%string)
      /\ ["abc"; "de"]%string = l1 ++ l2.
Proof.
  assert (H : Session.receive "ab"
                (("c" ++ CStr.LF ++ "d") ++ ("e" ++ CStr.LF ++ "f"))
              = Some (["abc"; "de"]%string, "f"%string)) by reflexivity.
  split; [exact H|].
  apply (receive_in_pieces "ab" ("c" ++ CStr.LF ++ "d")
           ("e" ++ CStr.LF ++ "f") _ _
           ltac:(discriminate) ltac:(discriminate) eq_refl H).
Defined.

(** X12 on two lines cut in three reads. *)
Lemma stream_reassembled_witness :
  Session.receives EmptyString
    ["STA"; "TE:a" ++ CStr.LF ++ "b"; CStr.LF]%string
  = Some (["STATE:a"; "b"]%string, EmptyString).
Proof.
  apply stream_reassembled.
  - repeat (apply Forall_cons; [split; [reflexivity|cbn; lia]|]).
    apply Forall_nil.
  - repeat (apply Forall_cons; [split; [discriminate|cbn; lia]|]).
    apply Forall_nil.
  - reflexivity.
Defined.

(** X13 on the snapshot with the ball at [80.75]. *)
Lemma snapshot_fits_the_buffer_witness :
  Pong.ints_in_range Example.leaving
  /\ Play.moderate_ball (Pong.g_ball Example.leaving)
  /\ Pong.state_line Example.leaving
     = Stdio.format Pong.state_format (Pong.state_args Example.leaving).
Proof.
  assert (Hi : Pong.ints_in_range Example.leaving)
    by (vm_compute; intuition discriminate).
  assert (Hm : Play.moderate_ball (Pong.g_ball Example.leaving))
    by (vm_compute; auto).
  split; [exact Hi|]. split; [exact Hm|].
  destruct (snapshot_fits_the_buffer Example.leaving Hi Hm)
    as (body & _ & E & _).
  exact E.
Defined.

(** X14 on the first two snapshots of the game, cut in three reads. *)
Lemma snapshots_cross_the_stream_witness :
  Session.stream Scenario.reads
  = Session.stream
      (List.map Pong.state_line [Example.start; Example.going_up])
  /\ exists l1 l2,
      Session.receives EmptyString Scenario.reads
      = Some ([l1; l2], EmptyString)
      /\ Client.p1_y
           (snd (fst (Client.process_game_state l2 Example.fresh_state
                        Client.predicted_init (S754_zero false))))
         = 9.
Proof.
  assert (Hs : Session.stream Scenario.reads
               = Session.stream
                   (List.map Pong.state_line
                      [Example.start; Example.going_up]))
    by reflexivity.
  split; [exact Hs|].
  destruct (snapshots_cross_the_stream [Example.start; Example.going_up]
              Scenario.reads) as (ls & Hr & Hf).
  - apply Forall_cons; [|apply Forall_cons; [|apply Forall_nil]];
      (split; [vm_compute; intuition discriminate|vm_compute; auto]).
  - repeat (apply Forall_cons; [split; [discriminate|cbn; lia]|]).
    apply Forall_nil.
  - exact Hs.
  - inversion Hf as [|g1 l1 gs1 ls1 _ Hf1]; subst.
    inversion Hf1 as [|g2 l2 gs2 ls2 H2 Hf2]; subst.
    inversion Hf2; subst.
    exists l1, l2. split; [exact Hr|]. rewrite H2. reflexivity.
Defined.

(** X15 on the turn of [Scenario]: the snapshot completed by the read is
    applied, the line that is no snapshot changes nothing, and the start of
    the next snapshot stays in [buffer]. *)
Lemma frame_applies_last_snapshot_witness :
  exists state' predicted',
    Session.main_frame (F64.lit false 1 1) (F32.lit false 1 60) Scenario.keys
      Scenario.clock Scenario.data Scenario.held Example.fresh_state
      Client.predicted_init
    = Some (("INPUT:UP" ++ CStr.LF)%string, "STA"%string, state', predicted')
    /\ Client.is_player1 state' = 1
    /\ (1, state', predicted')
       = Client.process_game_state Example.snapshot Example.fresh_state
           Client.predicted_init (Scenario.clock 0).
Proof.
  destruct (Session.main_frame (F64.lit false 1 1) (F32.lit false 1 60)
              Scenario.keys Scenario.clock Scenario.data Scenario.held
              Example.fresh_state Client.predicted_init)
    as [[[[msg buffer'] state'] predicted']|] eqn:E;
    [|vm_compute in E; discriminate].
  destruct (frame_applies_last_snapshot _ _ _ _ _ _ _ _ _ _ _ _ E)
    as (ls & Hr & Hm & Hs & _ & Hl).
  assert (El : ls = [Example.snapshot; "junk"%string]
               /\ buffer' = "STA"%string).
  { vm_compute in Hr. injection Hr as <- <-. split; reflexivity. }
  destruct El as (-> & ->). rewrite Hm.
  exists state', predicted'. split; [reflexivity|]. split; [exact Hs|].
  exact (Hl [] Example.snapshot ["junk"%string] eq_refl eq_refl eq_refl).
Defined.

(** X16 with the paddles at rows 10 and 20. *)
Lemma paddles_drawn_in_window_witness :
  0 <= Client.p1_y Scenario.counting <= 20
  /\ 0 <= Client.p2_y Scenario.counting <= 20
  /\ Forall Render.on_screen
       (Render.draw_game Scenario.counting Client.predicted_init None).
Proof.
  assert (H1 : 0 <= Client.p1_y Scenario.counting <= 20) by (cbn; lia).
  assert (H2 : 0 <= Client.p2_y Scenario.counting <= 20) by (cbn; lia).
  split; [exact H1|]. split; [exact H2|].
  exact (proj2 (paddles_drawn_in_window Scenario.counting
                  Client.predicted_init None H1 H2)).
Defined.

(** X17 at the start of a countdown: the number shown is 6 and there is no
    ball. *)
Lemma ball_or_countdown_witness :
  List.filter Render.is_ball
    (Render.draw_game Scenario.counting Client.predicted_init None) = []
  /\ List.filter Render.is_countdown
       (Render.draw_game Scenario.counting Client.predicted_init None)
     = [Render.DrawText "6" 390 280 40 Render.WHITE].
Proof.
  pose proof (ball_or_countdown Scenario.counting Client.predicted_init None)
    as H.
  cbv zeta in H. destruct H as (_ & H).
  destruct (H ltac:(reflexivity) ltac:(vm_compute; discriminate))
    as (Hb & k & Hk & _ & Ht).
  split; [exact Hb|].
  cbn [Client.serve_timer Scenario.counting] in Hk.
  assert (Ek : k = 6) by lia. subst k. exact Ht.
Defined.
